(** * The authenticated session of my-app: token storage, the axios gateway
      and the auth service

    The repository holds the same application twice, as [src/natvived.js]
    and as [src/native.en.ts].  Both define one axios instance with a request
    and a response interceptor ([api/axios]) and an auth service on top of it
    ([services/authService]).  The auth services agree line by line; the
    interceptors differ in the storage they use: [natvived.js] reads and
    clears [localStorage] (and moves [window.location.href]), while
    [native.en.ts] reads and clears [AsyncStorage], the storage the auth
    service writes.  The two storages are kept apart here.

    Around them stand the rest of the auth service of [natvived.js]
    ([refreshToken], [updateUserProfile], [resetPassword]), its product
    service, the auth context and the handlers of the login, register and
    products screens; they are embedded too, and the second half of the
    properties is about them and about whole histories of calls.

    The development embeds this code in Rocq:
    - JavaScript strings are lists of UTF-16 code units ([list N]);
    - [JSON.stringify] and [JSON.parse] follow ECMA-262 on the values the
      code hands them;
    - asynchronous code is a state-and-exception monad [Promise] over a
      [World] that holds both storages, the location, the pending storage
      failures and the trace of the calls made on the environment;
    - the network is a parameter: a function from the request that was sent
      to the reply axios settles on. *)

From Stdlib Require Import NArith ZArith List String Ascii Lia Bool.
From stdpp Require Import base option list gmap.

Local Open Scope N_scope.

(** ** JavaScript strings *)

(** A string is its sequence of UTF-16 code units. *)
Abbreviation jsstring := (list N).

(** The code units of an ASCII literal. *)
Fixpoint u16 (s : string) : jsstring :=
  match s with
  | EmptyString => []
  | String a r => N_of_ascii a :: u16 r
  end.

(** ** JSON values *)

(** A number is kept as the decimal it was written as,
    [mantissa * 10 ^ exponent]; the rounding to a double is outside the
    model, and no profile field is a number. *)
#[local] Unset Elimination Schemes.
Inductive jsval : Type :=
  | JNull
  | JBool (b : bool)
  | JNum (mantissa exponent : Z)
  | JString (s : jsstring)
  | JArray (elements : list jsval)
  | JObject (properties : list (jsstring * jsval)).
#[local] Set Elimination Schemes.

(** [CreateDataProperty]: a key that is already there keeps its place and
    takes the new value, a new key goes last.  (Keys that are array
    indices, which an object lists first, do not occur in a profile and
    are kept in this order too.) *)
Fixpoint define (k : jsstring) (v : jsval) (o : list (jsstring * jsval))
  : list (jsstring * jsval) :=
  match o with
  | [] => [(k, v)]
  | (k', v') :: r =>
      if bool_decide (k' = k) then (k', v) :: r else (k', v') :: define k v r
  end.

Module JSON.

(** *** QuoteJSONString *)

Definition hex_digit (d : N) : N := if d <? 10 then 48 + d else 87 + d.

Definition hex4 (c : N) : jsstring :=
  [hex_digit (c / 4096 mod 16); hex_digit (c / 256 mod 16);
   hex_digit (c / 16 mod 16); hex_digit (c mod 16)].

(** [\uXXXX], lower case as UnicodeEscape prints it. *)
Definition unicode_escape (c : N) : jsstring := 92 :: 117 :: hex4 c.

Definition is_high_surrogate (c : N) : bool := (0xD800 <=? c) && (c <=? 0xDBFF).
Definition is_low_surrogate (c : N) : bool := (0xDC00 <=? c) && (c <=? 0xDFFF).

(** One code unit that is not a surrogate. *)
Definition quote_unit (c : N) : jsstring :=
  if c =? 8 then [92; 98]
  else if c =? 9 then [92; 116]
  else if c =? 10 then [92; 110]
  else if c =? 12 then [92; 102]
  else if c =? 13 then [92; 114]
  else if c =? 34 then [92; 34]
  else if c =? 92 then [92; 92]
  else if c <? 32 then unicode_escape c
  else [c].

(** A surrogate pair is copied, a lone surrogate is escaped. *)
Fixpoint quote_units (s : jsstring) : jsstring :=
  match s with
  | [] => []
  | c :: r =>
      if is_high_surrogate c then
        match r with
        | d :: r' =>
            if is_low_surrogate d then c :: d :: quote_units r'
            else unicode_escape c ++ quote_units r
        | [] => unicode_escape c
        end
      else if is_low_surrogate c then unicode_escape c ++ quote_units r
      else quote_unit c ++ quote_units r
  end.

Definition quote (s : jsstring) : jsstring := 34 :: quote_units s ++ [34].

(** *** SerializeJSONObject, without a gap, for string-valued properties *)

Definition stringify_property (p : jsstring * jsstring) : jsstring :=
  quote (fst p) ++ 58 :: quote (snd p).

Fixpoint stringify_properties (ps : list (jsstring * jsstring)) : jsstring :=
  match ps with
  | [] => []
  | [p] => stringify_property p
  | p :: r => stringify_property p ++ 44 :: stringify_properties r
  end.

Definition stringify_object (ps : list (jsstring * jsstring)) : jsstring :=
  123 :: stringify_properties ps ++ [125].

(** *** JSON.parse: the ECMA-404 grammar *)

Definition is_ws (c : N) : bool :=
  (c =? 32) || (c =? 9) || (c =? 10) || (c =? 13).

Fixpoint skip_ws (s : jsstring) : jsstring :=
  match s with
  | c :: r => if is_ws c then skip_ws r else s
  | [] => []
  end.

Definition hex_value (c : N) : option N :=
  if (48 <=? c) && (c <=? 57) then Some (c - 48)
  else if (97 <=? c) && (c <=? 102) then Some (c - 87)
  else if (65 <=? c) && (c <=? 70) then Some (c - 55)
  else None.

Definition unhex4 (h1 h2 h3 h4 : N) : option N :=
  match hex_value h1, hex_value h2, hex_value h3, hex_value h4 with
  | Some a, Some b, Some c, Some d => Some (((a * 16 + b) * 16 + c) * 16 + d)
  | _, _, _, _ => None
  end.

(** The character after a backslash, [u] apart. *)
Definition unescape (e : N) : option N :=
  if e =? 34 then Some 34
  else if e =? 92 then Some 92
  else if e =? 47 then Some 47
  else if e =? 98 then Some 8
  else if e =? 102 then Some 12
  else if e =? 110 then Some 10
  else if e =? 114 then Some 13
  else if e =? 116 then Some 9
  else None.

Definition cons_unit (c : N) (r : option (jsstring * jsstring))
  : option (jsstring * jsstring) :=
  match r with
  | Some (s, rest) => Some (c :: s, rest)
  | None => None
  end.

(** The characters of a string literal after its opening quote, up to and
    with the closing one; the result is the string and the text left. *)
Fixpoint parse_string_body (s : jsstring) : option (jsstring * jsstring) :=
  match s with
  | [] => None
  | c :: r =>
      if c =? 34 then Some ([], r)
      else if c =? 92 then
        match r with
        | [] => None
        | e :: r1 =>
            if e =? 117 then
              match r1 with
              | h1 :: h2 :: h3 :: h4 :: r2 =>
                  match unhex4 h1 h2 h3 h4 with
                  | Some u => cons_unit u (parse_string_body r2)
                  | None => None
                  end
              | _ => None
              end
            else
              match unescape e with
              | Some u => cons_unit u (parse_string_body r1)
              | None => None
              end
        end
      else if c <? 32 then None
      else cons_unit c (parse_string_body r)
  end.

Definition is_digit (c : N) : bool := (48 <=? c) && (c <=? 57).

Fixpoint span_digits (s : jsstring) : jsstring * jsstring :=
  match s with
  | c :: r =>
      if is_digit c then let (ds, rest) := span_digits r in (c :: ds, rest)
      else ([], s)
  | [] => ([], [])
  end.

Definition digits_value (ds : jsstring) : Z :=
  fold_left (fun acc c => (acc * 10 + Z.of_N (c - 48))%Z) ds 0%Z.

(** [- int frac? exp?]; an integer part longer than one digit does not
    start with 0. *)
Definition parse_number (s : jsstring) : option (jsval * jsstring) :=
  let (negative, s1) :=
    match s with
    | c :: r => if c =? 45 then (true, r) else (false, s)
    | [] => (false, s)
    end in
  let (ip, s2) := span_digits s1 in
  match ip with
  | [] => None
  | d :: ds =>
      if (d =? 48) && negb (bool_decide (ds = [])) then None
      else
        let frac :=
          match s2 with
          | c :: r =>
              if c =? 46 then
                let (fp, rest) := span_digits r in
                match fp with [] => None | _ => Some (fp, rest) end
              else Some ([], s2)
          | [] => Some ([], s2)
          end in
        match frac with
        | None => None
        | Some (fp, s3) =>
            let expo :=
              match s3 with
              | c :: r =>
                  if (c =? 101) || (c =? 69) then
                    let (minus, r1) :=
                      match r with
                      | sg :: r' =>
                          if sg =? 45 then (true, r')
                          else if sg =? 43 then (false, r')
                          else (false, r)
                      | [] => (false, r)
                      end in
                    let (ep, rest) := span_digits r1 in
                    match ep with
                    | [] => None
                    | _ =>
                        Some (if minus then (- digits_value ep)%Z
                              else digits_value ep, rest)
                    end
                  else Some (0%Z, s3)
              | [] => Some (0%Z, s3)
              end in
            match expo with
            | None => None
            | Some (e, s4) =>
                let m := digits_value (ip ++ fp) in
                Some (JNum (if negative then (- m)%Z else m)
                           (e - Z.of_nat (length fp))%Z, s4)
            end
        end
  end.

(** [expect lit s]: the text after the literal [lit] when [s] starts
    with it. *)
Fixpoint expect (lit s : jsstring) : option jsstring :=
  match lit, s with
  | [], _ => Some s
  | a :: lit', c :: r => if a =? c then expect lit' r else None
  | _ :: _, [] => None
  end.

(** A value, the members of an object after its first brace, and the
    elements of an array after its first bracket.  [fuel] bounds the
    depth of the calls; the length of the text is always enough. *)
Fixpoint parse_value (fuel : nat) (s : jsstring) : option (jsval * jsstring) :=
  match fuel with
  | O => None
  | S n =>
      match skip_ws s with
      | [] => None
      | c :: r =>
          if c =? 123 then
            match skip_ws r with
            | c' :: r' =>
                if c' =? 125 then Some (JObject [], r')
                else parse_members n r []
            | [] => None
            end
          else if c =? 91 then
            match skip_ws r with
            | c' :: r' =>
                if c' =? 93 then Some (JArray [], r')
                else parse_elements n r []
            | [] => None
            end
          else if c =? 34 then
            match parse_string_body r with
            | Some (str, rest) => Some (JString str, rest)
            | None => None
            end
          else if c =? 116 then
            match expect (u16 "rue") r with
            | Some rest => Some (JBool true, rest)
            | None => None
            end
          else if c =? 102 then
            match expect (u16 "alse") r with
            | Some rest => Some (JBool false, rest)
            | None => None
            end
          else if c =? 110 then
            match expect (u16 "ull") r with
            | Some rest => Some (JNull, rest)
            | None => None
            end
          else parse_number (c :: r)
      end
  end
with parse_members (fuel : nat) (s : jsstring) (acc : list (jsstring * jsval))
  : option (jsval * jsstring) :=
  match fuel with
  | O => None
  | S n =>
      match skip_ws s with
      | [] => None
      | c :: r =>
          if c =? 34 then
            match parse_string_body r with
            | None => None
            | Some (k, r1) =>
                match skip_ws r1 with
                | [] => None
                | c1 :: r2 =>
                    if c1 =? 58 then
                      match parse_value n r2 with
                      | None => None
                      | Some (v, r3) =>
                          match skip_ws r3 with
                          | [] => None
                          | c2 :: r4 =>
                              if c2 =? 44 then
                                parse_members n r4 (define k v acc)
                              else if c2 =? 125 then
                                Some (JObject (define k v acc), r4)
                              else None
                          end
                      end
                    else None
                end
            end
          else None
      end
  end
with parse_elements (fuel : nat) (s : jsstring) (acc : list jsval)
  : option (jsval * jsstring) :=
  match fuel with
  | O => None
  | S n =>
      match parse_value n s with
      | None => None
      | Some (v, r1) =>
          match skip_ws r1 with
          | [] => None
          | c :: r2 =>
              if c =? 44 then parse_elements n r2 (acc ++ [v])
              else if c =? 93 then Some (JArray (acc ++ [v]), r2)
              else None
          end
      end
  end.

(** [JSON.parse text]: one value with nothing but white space after it;
    [None] is the SyntaxError. *)
Definition parse (text : jsstring) : option jsval :=
  match parse_value (S (length text)) text with
  | Some (v, rest) =>
      match skip_ws rest with
      | [] => Some v
      | _ :: _ => None
      end
  | None => None
  end.

End JSON.

(** ** The data of the application ([types/index.ts]) *)

(** [interface User]. *)
Record User := {
  user_id : jsstring;
  user_email : jsstring;
  user_fullName : jsstring;
  user_phone : option jsstring
}.

(** [interface LoginCredentials]. *)
Record LoginCredentials := {
  cred_email : jsstring;
  cred_password : jsstring
}.

(** [interface RegisterData]. *)
Record RegisterData := {
  reg_email : jsstring;
  reg_password : jsstring;
  reg_fullName : jsstring;
  reg_phone : option jsstring
}.

(** [interface AuthResponse].  The declared type makes [token] a string; the
    guard [if (response.data.token)] of [login] is there for a body that has
    none, so the field is optional here. *)
Record AuthResponse := {
  token : option jsstring;
  user : User
}.

(** [interface ErrorResponse], what [handleError] builds. *)
Record ErrorResponse := {
  status : Z;
  message : jsstring
}.

(** The own properties of a profile, in the order of the interface; an
    absent [phone] is no property. *)
Definition user_properties (u : User) : list (jsstring * jsstring) :=
  [(u16 "id", user_id u); (u16 "email", user_email u);
   (u16 "fullName", user_fullName u)]
  ++ match user_phone u with
     | Some p => [(u16 "phone", p)]
     | None => []
     end.

(** The profile as a JavaScript object. *)
Definition user_value (u : User) : jsval :=
  JObject (map (fun p => (fst p, JString (snd p))) (user_properties u)).

(** [JSON.stringify(user)] at the type [User]. *)
Definition JSON_stringify (u : User) : jsstring :=
  JSON.stringify_object (user_properties u).

(** Reading a property of an object; [None] is [undefined]. *)
Fixpoint get_property (k : jsstring) (o : list (jsstring * jsval))
  : option jsval :=
  match o with
  | [] => None
  | (k', v) :: r => if bool_decide (k' = k) then Some v else get_property k r
  end.

Definition string_property (k : jsstring) (o : list (jsstring * jsval))
  : option jsstring :=
  match get_property k o with
  | Some (JString s) => Some s
  | _ => None
  end.

(** The profile an object holds: its [id], [email] and [fullName] are
    strings, its [phone] a string or missing. *)
Definition as_user (v : jsval) : option User :=
  match v with
  | JObject o =>
      match string_property (u16 "id") o, string_property (u16 "email") o,
            string_property (u16 "fullName") o with
      | Some i, Some e, Some f =>
          match get_property (u16 "phone") o with
          | None => Some {| user_id := i; user_email := e; user_fullName := f;
                            user_phone := None |}
          | Some (JString p) =>
              Some {| user_id := i; user_email := e; user_fullName := f;
                      user_phone := Some p |}
          | Some _ => None
          end
      | _, _, _ => None
      end
  | _ => None
  end.

(** ** The HTTP client: requests, responses and errors *)

Inductive Method := GET | POST | PUT | DELETE.

(** An axios request config; [cfg_data] is the body. *)
Record Config := {
  cfg_method : Method;
  cfg_url : jsstring;
  cfg_headers : gmap jsstring jsstring;
  cfg_data : option jsval
}.

(** An axios response with a body of type [B]. *)
Record Response (B : Type) := {
  res_status : Z;
  res_data : B
}.
Arguments res_status {B} _.
Arguments res_data {B} _.

(** The body of an error response, [error.response.data], as far as
    [handleError] reads it.  [NullBody] is a body that is [null] (the
    server sent the JSON text [null]) or [undefined]: reading a property of
    it throws.  Any other body is a [Body] with the [message] it has, a
    string, if it has one: the [{ message }] object the backend sends, or a
    body without a [message] property, a string one for instance
    ([Body None]). *)
Inductive ErrorBody :=
  | NullBody
  | Body (body_message : option jsstring).

(** What can be thrown: the error axios rejects with ([response] when the
    server answered, [request] when the request left), the rejection of an
    AsyncStorage promise, the SyntaxError of [JSON.parse], the TypeError of
    reading a property of [null], and the object the services throw. *)
Inductive JsError :=
  | AxiosError (response : option (Response ErrorBody)) (request : bool)
  | StorageError
  | SyntaxError
  | TypeError
  | Rejection (r : ErrorResponse).

(** [error.response] *)
Definition error_response (error : JsError) : option (Response ErrorBody) :=
  match error with
  | AxiosError response _ => response
  | _ => None
  end.

(** [error.request], as a truth value *)
Definition error_request (error : JsError) : bool :=
  match error with
  | AxiosError _ request => request
  | _ => false
  end.

(** What the adapter settles on for a request it was handed: a response
    that passed [validateStatus], or an error. *)
Inductive Reply (B : Type) :=
  | Fulfilled (r : Response B)
  | Failed (response : option (Response ErrorBody)) (request : bool).
Arguments Fulfilled {B} _.
Arguments Failed {B} _ _.

(** ** The world and asynchronous computations *)

(** The calls made on the environment, in order.  [Sent config] is the
    request as the adapter is handed it. *)
Inductive event :=
  | AsyncGetItem (key : jsstring)
  | AsyncSetItem (key value : jsstring)
  | AsyncRemoveItem (key : jsstring)
  | LocalGetItem (key : jsstring)
  | LocalRemoveItem (key : jsstring)
  | LocationHref (href : jsstring)
  | Sent (config : Config)
  | ConsoleError (text : jsstring) (error : JsError).

(** [faults] schedules the outcomes of the coming AsyncStorage calls:
    [true] rejects the call, and a call beyond the list succeeds. *)
Record World := {
  async_store : gmap jsstring jsstring;
  local_store : gmap jsstring jsstring;
  location_href : jsstring;
  faults : list bool;
  trace : list event
}.

Inductive Outcome (A : Type) :=
  | Return (a : A)
  | Throw (e : JsError).
Arguments Return {A} _.
Arguments Throw {A} _.

(** An asynchronous computation: it runs from a world to the value it
    resolves to, or the error it rejects with, and the world it leaves.
    One call runs to its end; calls in flight together are not modelled. *)
Definition Promise (A : Type) : Type := World -> Outcome A * World.

Definition ret {A} (a : A) : Promise A := fun w => (Return a, w).

Definition throw {A} (e : JsError) : Promise A := fun w => (Throw e, w).

Definition bind {A B} (m : Promise A) (k : A -> Promise B) : Promise B :=
  fun w =>
    match m w with
    | (Return a, w1) => k a w1
    | (Throw e, w1) => (Throw e, w1)
    end.

(** [try { m } catch (error) { h }] *)
Definition try_catch {A} (m : Promise A) (h : JsError -> Promise A)
  : Promise A :=
  fun w =>
    match m w with
    | (Return a, w1) => (Return a, w1)
    | (Throw e, w1) => h e w1
    end.

(** [m.then(f, g)] *)
Definition then_ {A B} (m : Promise A) (f : A -> Promise B)
    (g : JsError -> Promise B) : Promise B :=
  fun w =>
    match m w with
    | (Return a, w1) => f a w1
    | (Throw e, w1) => g e w1
    end.

Declare Scope promise_scope.
Delimit Scope promise_scope with promise.
Notation "x <- m ;; k" := (bind m (fun x => k))
  (at level 100, m at next level, right associativity) : promise_scope.
Notation "m ;; k" := (bind m (fun _ => k))
  (at level 100, right associativity) : promise_scope.
Local Open Scope promise_scope.

(** Updates of one field of the world. *)
Definition record_event (e : event) (w : World) : World :=
  {| async_store := async_store w; local_store := local_store w;
     location_href := location_href w; faults := faults w;
     trace := trace w ++ [e] |}.

Definition set_faults (fs : list bool) (w : World) : World :=
  {| async_store := async_store w; local_store := local_store w;
     location_href := location_href w; faults := fs; trace := trace w |}.

Definition set_async_store (s : gmap jsstring jsstring) (w : World) : World :=
  {| async_store := s; local_store := local_store w;
     location_href := location_href w; faults := faults w; trace := trace w |}.

Definition set_local_store (s : gmap jsstring jsstring) (w : World) : World :=
  {| async_store := async_store w; local_store := s;
     location_href := location_href w; faults := faults w; trace := trace w |}.

Definition set_href (href : jsstring) (w : World) : World :=
  {| async_store := async_store w; local_store := local_store w;
     location_href := href; faults := faults w; trace := trace w |}.

Definition emit (e : event) : Promise unit :=
  fun w => (Return tt, record_event e w).

(** Whether the storage rejects its next call. *)
Definition fails_next (w : World) : bool := hd false (faults w).

(** Takes the outcome scheduled for the next AsyncStorage call. *)
Definition next_fault : Promise bool :=
  fun w => (Return (fails_next w), set_faults (tl (faults w)) w).

(** [@react-native-async-storage/async-storage]: every call returns a
    promise, which the platform may reject. *)
Module AsyncStorage.

Definition getItem (key : jsstring) : Promise (option jsstring) :=
  emit (AsyncGetItem key) ;;
  failed <- next_fault ;;
  if failed : bool then throw StorageError
  else fun w => (Return (async_store w !! key), w).

Definition setItem (key value : jsstring) : Promise unit :=
  emit (AsyncSetItem key value) ;;
  failed <- next_fault ;;
  if failed : bool then throw StorageError
  else fun w =>
         (Return tt, set_async_store (<[ key := value ]> (async_store w)) w).

Definition removeItem (key : jsstring) : Promise unit :=
  emit (AsyncRemoveItem key) ;;
  failed <- next_fault ;;
  if failed : bool then throw StorageError
  else fun w => (Return tt, set_async_store (delete key (async_store w)) w).

End AsyncStorage.

(** The browser's [localStorage], synchronous. *)
Module localStorage.

Definition getItem (key : jsstring) : Promise (option jsstring) :=
  emit (LocalGetItem key) ;;
  fun w => (Return (local_store w !! key), w).

Definition removeItem (key : jsstring) : Promise unit :=
  emit (LocalRemoveItem key) ;;
  fun w => (Return tt, set_local_store (delete key (local_store w)) w).

End localStorage.

(** [window.location.href = href] *)
Definition set_location_href (href : jsstring) : Promise unit :=
  emit (LocationHref href) ;;
  fun w => (Return tt, set_href href w).

(** [console.error(text, error)] *)
Definition console_error (text : jsstring) (error : JsError) : Promise unit :=
  emit (ConsoleError text error).

(** ** The axios instance ([api/axios]) *)

(** [!!value] for a string that may be missing: neither [null],
    [undefined] nor the empty string. *)
Definition truthy (value : option jsstring) : bool :=
  match value with
  | Some (_ :: _) => true
  | _ => false
  end.

(** [headers: { 'Content-Type': 'application/json' }] *)
Definition default_headers : gmap jsstring jsstring :=
  {[ u16 "Content-Type" := u16 "application/json" ]}.

(** [config.headers.Authorization = value] *)
Definition set_Authorization (config : Config) (value : jsstring) : Config :=
  {| cfg_method := cfg_method config; cfg_url := cfg_url config;
     cfg_headers := <[ u16 "Authorization" := value ]> (cfg_headers config);
     cfg_data := cfg_data config |}.

(** [error.response?.status === 401] *)
Definition is_401 (error : JsError) : bool :=
  match error_response error with
  | Some r => (res_status r =? 401)%Z
  | None => false
  end.

(** An instance with the handlers registered by
    [interceptors.request.use] and [interceptors.response.use].  The
    rejection handler of the request interceptor,
    [(error) => Promise.reject(error)], has nothing before it in the chain
    and is left out. *)
Record AxiosInstance := {
  request_onFulfilled : Config -> Promise Config;
  response_onFulfilled : forall B, Response B -> Promise (Response B);
  response_onRejected : forall B, JsError -> Promise (Response B)
}.

(** The adapter is handed the request; the network decides the reply,
    which is [Failed None false] when the request could not leave. *)
Definition dispatchRequest {B} (net : Config -> Reply B) (config : Config)
  : Promise (Response B) :=
  emit (Sent config) ;;
  match net config with
  | Fulfilled r => ret r
  | Failed response request => throw (AxiosError response request)
  end.

(** [Axios.prototype.request]: the request interceptor, the dispatch, then
    the response interceptor on what either of them produced. *)
Definition request {B} (instance : AxiosInstance) (net : Config -> Reply B)
    (config : Config) : Promise (Response B) :=
  then_ (config' <- request_onFulfilled instance config ;;
         dispatchRequest net config')
        (response_onFulfilled instance B)
        (response_onRejected instance B).

(** [instance.post(url, data)]: every call starts from a fresh config with
    the headers of the instance. *)
Definition post {B} (instance : AxiosInstance) (url : jsstring)
    (data : option jsval) (net : Config -> Reply B) : Promise (Response B) :=
  request instance net
    {| cfg_method := POST; cfg_url := url; cfg_headers := default_headers;
       cfg_data := data |}.

(** [src/natvived.js], [api/axios.js] *)
Module NatvivedJs.

Definition request_onFulfilled (config : Config) : Promise Config :=
  token <- localStorage.getItem (u16 "token") ;;
  match token with
  | Some ((_ :: _) as t) => ret (set_Authorization config (u16 "Bearer " ++ t))
  | _ => ret config
  end.

Definition response_onFulfilled (B : Type) (response : Response B)
  : Promise (Response B) :=
  ret response.

Definition response_onRejected (B : Type) (error : JsError)
  : Promise (Response B) :=
  (if is_401 error then
     localStorage.removeItem (u16 "token") ;;
     set_location_href (u16 "/login")
   else ret tt) ;;
  throw error.

Definition axiosInstance : AxiosInstance :=
  Build_AxiosInstance request_onFulfilled response_onFulfilled
    response_onRejected.

End NatvivedJs.

(** [src/native.en.ts], [api/axios.ts] *)
Module NativeEnTs.

Definition request_onFulfilled (config : Config) : Promise Config :=
  token <- AsyncStorage.getItem (u16 "token") ;;
  match token with
  | Some ((_ :: _) as t) => ret (set_Authorization config (u16 "Bearer " ++ t))
  | _ => ret config
  end.

Definition response_onFulfilled (B : Type) (response : Response B)
  : Promise (Response B) :=
  ret response.

Definition response_onRejected (B : Type) (error : JsError)
  : Promise (Response B) :=
  (if is_401 error then AsyncStorage.removeItem (u16 "token") else ret tt) ;;
  throw error.

Definition axiosInstance : AxiosInstance :=
  Build_AxiosInstance request_onFulfilled response_onFulfilled
    response_onRejected.

End NativeEnTs.

(** The two source files. *)
Inductive source_file := natvived_js | native_en_ts.

Definition axios_of (f : source_file) : AxiosInstance :=
  match f with
  | natvived_js => NatvivedJs.axiosInstance
  | native_en_ts => NativeEnTs.axiosInstance
  end.

(** ** The auth service ([services/authService]) *)

(** ['Une erreur est survenue'] *)
Definition generic_message : jsstring := u16 "Une erreur est survenue".

(** ['Le serveur ne répond pas'] *)
Definition no_response_message : jsstring :=
  u16 "Le serveur ne r" ++ [233] ++ u16 "pond pas".

(** ['Erreur lors de la configuration de la requête'] *)
Definition config_message : jsstring :=
  u16 "Erreur lors de la configuration de la requ" ++ [234] ++ u16 "te".

(** The object literal takes [error.response.status] and then reads
    [error.response.data.message], which throws when the body is [null]. *)
Definition handleError (error : JsError) : Outcome ErrorResponse :=
  match error_response error with
  | Some response =>
      match res_data response with
      | NullBody => Throw TypeError
      | Body body_message =>
          Return {| status := res_status response;
                    message :=
                      match body_message with
                      | Some ((_ :: _) as m) => m
                      | _ => generic_message
                      end |}
      end
  | None =>
      if error_request error then
        Return {| status := 503; message := no_response_message |}
      else
        Return {| status := 500; message := config_message |}
  end.

(** What [throw handleError(error)] throws: the object [handleError]
    returns, or the error it raised instead. *)
Definition handled (error : JsError) : JsError :=
  match handleError error with
  | Return r => Rejection r
  | Throw e => e
  end.

(** The body [{ email, password }]. *)
Definition credentials_value (c : LoginCredentials) : jsval :=
  JObject [(u16 "email", JString (cred_email c));
           (u16 "password", JString (cred_password c))].

Definition register_value (d : RegisterData) : jsval :=
  JObject ([(u16 "email", JString (reg_email d));
            (u16 "password", JString (reg_password d));
            (u16 "fullName", JString (reg_fullName d))]
           ++ match reg_phone d with
              | Some p => [(u16 "phone", JString p)]
              | None => []
              end).

Section AuthService.

(** [import axiosInstance from '../api/axios'] *)
Variable axiosInstance : AxiosInstance.

(** [natvived.js] takes [email] and [password] and posts the same body,
    [{ email, password }]. *)
Definition login (credentials : LoginCredentials)
    (net : Config -> Reply AuthResponse) : Promise AuthResponse :=
  try_catch
    (response <- post axiosInstance (u16 "/auth/login")
                   (Some (credentials_value credentials)) net ;;
     (match token (res_data response) with
      | Some ((_ :: _) as t) =>
          AsyncStorage.setItem (u16 "token") t ;;
          AsyncStorage.setItem (u16 "user")
            (JSON_stringify (user (res_data response)))
      | _ => ret tt
      end) ;;
     ret (res_data response))
    (fun error => throw (handled error)).

Definition register (userData : RegisterData)
    (net : Config -> Reply AuthResponse) : Promise AuthResponse :=
  try_catch
    (response <- post axiosInstance (u16 "/auth/register")
                   (Some (register_value userData)) net ;;
     ret (res_data response))
    (fun error => throw (handled error)).

(** ['Erreur lors de la déconnexion:'] *)
Definition logout_text : jsstring :=
  u16 "Erreur lors de la d" ++ [233] ++ u16 "connexion:".

Definition logout (net : Config -> Reply jsval) : Promise unit :=
  try_catch
    (AsyncStorage.removeItem (u16 "token") ;;
     AsyncStorage.removeItem (u16 "user") ;;
     _ <- post axiosInstance (u16 "/auth/logout") None net ;;
     ret tt)
    (fun error =>
       console_error logout_text error ;;
       throw (handled error)).

(** ['Erreur lors de la récupération de l\'utilisateur:'] *)
Definition getCurrentUser_text : jsstring :=
  u16 "Erreur lors de la r" ++ [233] ++ u16 "cup" ++ [233]
  ++ u16 "ration de l'utilisateur:".

(** The result is [JNull] for [null]. *)
Definition getCurrentUser : Promise jsval :=
  try_catch
    (user <- AsyncStorage.getItem (u16 "user") ;;
     match user with
     | Some ((_ :: _) as text) =>
         match JSON.parse text with
         | Some v => ret v
         | None => throw SyntaxError
         end
     | _ => ret JNull
     end)
    (fun error =>
       console_error getCurrentUser_text error ;;
       ret JNull).

Definition isAuthenticated : Promise bool :=
  token <- AsyncStorage.getItem (u16 "token") ;;
  ret (truthy token).

End AuthService.

(** ** Observations used in the statements *)

(** The storage the interceptors of a file read the token from and clear
    it in. *)
Definition interceptor_store (f : source_file) (w : World)
  : gmap jsstring jsstring :=
  match f with
  | natvived_js => local_store w
  | native_en_ts => async_store w
  end.

(** The requests that were sent, oldest first. *)
Fixpoint sent_requests (t : list event) : list Config :=
  match t with
  | [] => []
  | Sent config :: r => config :: sent_requests r
  | _ :: r => sent_requests r
  end.

(** The object a sequence of string-valued members defines. *)
Definition defined_by (ps : list (jsstring * jsstring))
    (acc : list (jsstring * jsval)) : list (jsstring * jsval) :=
  fold_left (fun o p => define (fst p) (JString (snd p)) o) ps acc.

(** The request as the request interceptor hands it on when [store] is the
    storage it reads. *)
Definition outgoing (store : gmap jsstring jsstring) (config : Config)
  : Config :=
  match store !! u16 "token" with
  | Some ((_ :: _) as t) => set_Authorization config (u16 "Bearer " ++ t)
  | _ => config
  end.

(** The world after an AsyncStorage call was made and answered. *)
Definition called (e : event) (w : World) : World :=
  set_faults (tl (faults w)) (record_event e w).

(** A request without an [Authorization] header. *)
Definition anonymous (config : Config) : Prop :=
  cfg_headers config !! u16 "Authorization" = None.

(** The call by which the request interceptor of a file reads the token. *)
Definition token_read (f : source_file) : event :=
  match f with
  | natvived_js => LocalGetItem (u16 "token")
  | native_en_ts => AsyncGetItem (u16 "token")
  end.

(** A parse that succeeds consumes text, and succeeds again, with the
    same result, on any fuel above the number of characters consumed. *)
Definition adequate {A}
    (parser : nat -> jsstring -> A -> option (jsval * jsstring))
    (m : nat) : Prop :=
  forall s a v rest,
    parser m s a = Some (v, rest) ->
    (length rest < length s)%nat /\
    forall n, (length s <= n + length rest)%nat ->
              parser (S n) s a = Some (v, rest).

(** ** Scenarios *)

(** A process that has just started, with AsyncStorage serving every
    call. *)
Definition fresh_world : World :=
  {| async_store := ∅; local_store := ∅; location_href := u16 "/";
     faults := []; trace := [] |}.

Definition alice : User :=
  {| user_id := u16 "1"; user_email := u16 "a@b.com";
     user_fullName := u16 "A"; user_phone := None |}.

Definition alice_credentials : LoginCredentials :=
  {| cred_email := u16 "a@b.com"; cred_password := u16 "x" |}.

Definition alice_registration : RegisterData :=
  {| reg_email := u16 "a@b.com"; reg_password := u16 "x";
     reg_fullName := u16 "A"; reg_phone := None |}.

(** The body [{ token: "T1", user: alice }] and the same without a
    token. *)
Definition T1_body : AuthResponse :=
  {| token := Some (u16 "T1"); user := alice |}.

Definition tokenless_body : AuthResponse :=
  {| token := None; user := alice |}.

(** A server that answers every request with 200 and [body]. *)
Definition accepts {B} (body : B) : Config -> Reply B :=
  fun _ => Fulfilled {| res_status := 200; res_data := body |}.

Definition unauthorized_response : Response ErrorBody :=
  {| res_status := 401;
     res_data := Body (Some (u16 "Unauthorized")) |}.

(** A server that answers every request with 401. *)
Definition unauthorized {B} : Config -> Reply B :=
  fun _ => Failed (Some unauthorized_response) true.

(** A network that gives no response. *)
Definition unreachable {B} : Config -> Reply B :=
  fun _ => Failed None true.

(** AsyncStorage after alice signed in with token [T1]. *)
Definition signed_in : World :=
  {| async_store :=
       <[ u16 "user" := JSON_stringify alice ]>
         (<[ u16 "token" := u16 "T1" ]> ∅);
     local_store := ∅; location_href := u16 "/"; faults := []; trace := [] |}.

(** [GET /products] *)
Definition products_request : Config :=
  {| cfg_method := GET; cfg_url := u16 "/products";
     cfg_headers := default_headers; cfg_data := None |}.

(** [GET /products] with the token of alice. *)
Definition authorized_products_request : Config :=
  set_Authorization products_request (u16 "Bearer T1").

(** The error axios raises for the 401 response. *)
Definition refusal : JsError := AxiosError (Some unauthorized_response) true.

(** The world once the interceptor of [native.en.ts] has read the token
    of alice. *)
Definition after_token_read : World :=
  called (AsyncGetItem (u16 "token")) signed_in.

(** The worlds the calls of the scenarios leave. *)
Definition after_login : World :=
  snd (login NativeEnTs.axiosInstance alice_credentials (accepts T1_body)
         fresh_world).

Definition after_register : World :=
  snd (register NativeEnTs.axiosInstance alice_registration (accepts T1_body)
         fresh_world).

Definition after_tokenless_login : World :=
  snd (login NativeEnTs.axiosInstance alice_credentials
         (accepts tokenless_body) fresh_world).

Definition after_refused_login : World :=
  snd (login NativeEnTs.axiosInstance alice_credentials unauthorized signed_in).

(** ** The other verbs of the instance *)

(** [config.params], the query of a [get]: an object the adapter
    serialises into the URL it calls.  No interceptor reads or writes it,
    so it travels beside the config to the network. *)
Abbreviation Params := (list (jsstring * jsval)).

Module axios.

(** [instance.put(url, data)] *)
Definition put {B} (instance : AxiosInstance) (url : jsstring)
    (data : option jsval) (net : Config -> Reply B) : Promise (Response B) :=
  request instance net
    {| cfg_method := PUT; cfg_url := url; cfg_headers := default_headers;
       cfg_data := data |}.

(** [instance.get(url, { params })] *)
Definition get {B} (instance : AxiosInstance) (url : jsstring)
    (params : Params) (net : Config -> Params -> Reply B)
  : Promise (Response B) :=
  request instance (fun config => net config params)
    {| cfg_method := GET; cfg_url := url; cfg_headers := default_headers;
       cfg_data := None |}.

(** [instance.delete(url)] *)
Definition delete {B} (instance : AxiosInstance) (url : jsstring)
    (net : Config -> Reply B) : Promise (Response B) :=
  request instance net
    {| cfg_method := DELETE; cfg_url := url; cfg_headers := default_headers;
       cfg_data := None |}.

End axios.

(** ** The rest of the auth service ([natvived.js]) *)

(** The body of the refresh response, as far as [refreshToken] reads it. *)
Record TokenResponse := {
  fresh_token : option jsstring
}.

(** The body [{ refreshToken }], whose member is [null] when the key is
    not stored. *)
Definition refresh_value (stored : option jsstring) : jsval :=
  JObject [(u16 "refreshToken",
            match stored with
            | Some s => JString s
            | None => JNull
            end)].

(** The body [{ email }]. *)
Definition email_value (email : jsstring) : jsval :=
  JObject [(u16 "email", JString email)].

Section AuthServiceRest.

Variable axiosInstance : AxiosInstance.

Definition refreshToken (net : Config -> Reply TokenResponse)
  : Promise TokenResponse :=
  try_catch
    (refreshToken <- AsyncStorage.getItem (u16 "refreshToken") ;;
     response <- post axiosInstance (u16 "/auth/refresh-token")
                   (Some (refresh_value refreshToken)) net ;;
     (match fresh_token (res_data response) with
      | Some ((_ :: _) as t) => AsyncStorage.setItem (u16 "token") t
      | _ => ret tt
      end) ;;
     ret (res_data response))
    (fun error => throw (handled error)).

(** The response body is the profile: it is stored under [user], where
    [getCurrentUser] reads the profile from. *)
Definition updateUserProfile (userData : jsval) (net : Config -> Reply User)
  : Promise User :=
  try_catch
    (response <- axios.put axiosInstance (u16 "/auth/profile")
                   (Some userData) net ;;
     AsyncStorage.setItem (u16 "user") (JSON_stringify (res_data response)) ;;
     ret (res_data response))
    (fun error => throw (handled error)).

Definition resetPassword (email : jsstring) (net : Config -> Reply jsval)
  : Promise jsval :=
  try_catch
    (response <- post axiosInstance (u16 "/auth/reset-password")
                   (Some (email_value email)) net ;;
     ret (res_data response))
    (fun error => throw (handled error)).

End AuthServiceRest.

(** ** The product service ([natvived.js], [services/productService.js]) *)

(** Its [handleError] is a copy of the one of the auth service.  A product
    is sent and received as the object it is; [id] is the string the
    template literal puts after [/products/]. *)
Section ProductService.

Variable axiosInstance : AxiosInstance.

Definition createProduct (productData : jsval) (net : Config -> Reply jsval)
  : Promise jsval :=
  try_catch
    (response <- post axiosInstance (u16 "/products") (Some productData) net ;;
     ret (res_data response))
    (fun error => throw (handled error)).

(** [params] is [[]] for the default [{}]. *)
Definition getProducts (params : Params)
    (net : Config -> Params -> Reply jsval) : Promise jsval :=
  try_catch
    (response <- axios.get axiosInstance (u16 "/products") params net ;;
     ret (res_data response))
    (fun error => throw (handled error)).

Definition updateProduct (id : jsstring) (productData : jsval)
    (net : Config -> Reply jsval) : Promise jsval :=
  try_catch
    (response <- axios.put axiosInstance (u16 "/products/" ++ id)
                   (Some productData) net ;;
     ret (res_data response))
    (fun error => throw (handled error)).

Definition deleteProduct (id : jsstring) (net : Config -> Reply jsval)
  : Promise bool :=
  try_catch
    (_ <- axios.delete axiosInstance (u16 "/products/" ++ id) net ;;
     ret true)
    (fun error => throw (handled error)).

(** [{ search: searchTerm, ...filters }]: the filters are string-valued
    ([interface ProductFilters]) and are copied in their order onto the
    object that holds the search term. *)
Definition search_params (searchTerm : jsstring)
    (filters : list (jsstring * jsstring)) : Params :=
  defined_by filters [(u16 "search", JString searchTerm)].

Definition searchProducts (searchTerm : jsstring)
    (filters : list (jsstring * jsstring))
    (net : Config -> Params -> Reply jsval) : Promise jsval :=
  try_catch
    (response <- axios.get axiosInstance (u16 "/products/search")
                   (search_params searchTerm filters) net ;;
     ret (res_data response))
    (fun error => throw (handled error)).

End ProductService.

(** ** The auth context ([contexts/AuthContext]) *)

(** [interface AuthState]; [natvived.js] keeps the two fields in two
    [useState] cells.  [auth_user] is [JNull] for [null]. *)
Record AuthState := {
  auth_user : jsval;
  auth_loading : bool
}.

(** The state the provider mounts with. *)
Definition initial_state : AuthState :=
  {| auth_user := JNull; auth_loading := true |}.

(** [setState(prev => ({ ...prev, user }))], [setUser(user)] *)
Definition setUser (user : jsval) (state : AuthState) : AuthState :=
  {| auth_user := user; auth_loading := auth_loading state |}.

(** [setState(prev => ({ ...prev, loading }))], [setLoading(loading)] *)
Definition setLoading (loading : bool) (state : AuthState) : AuthState :=
  {| auth_user := auth_user state; auth_loading := loading |}.

(** The functions of the provider take the state they start from and
    resolve to the state they leave; a rejection leaves the state as it
    was. *)
Module AuthContext.

Section Provider.

Variable axiosInstance : AxiosInstance.

(** ['Erreur lors de la vérification de l\'utilisateur:'] *)
Definition checkUser_text : jsstring :=
  u16 "Erreur lors de la v" ++ [233] ++ u16 "rification de l'utilisateur:".

Definition checkUser (state : AuthState) : Promise AuthState :=
  state' <- try_catch
              (user <- getCurrentUser ;;
               ret (setUser user state))
              (fun error =>
                 console_error checkUser_text error ;;
                 ret state) ;;
  ret (setLoading false state').

(** The response is what [natvived.js] returns; [native.en.ts] returns
    nothing. *)
Definition login (email password : jsstring)
    (net : Config -> Reply AuthResponse) (state : AuthState)
  : Promise (AuthResponse * AuthState) :=
  response <- login axiosInstance
                {| cred_email := email; cred_password := password |} net ;;
  ret (response, setUser (user_value (user response)) state).

Definition register (userData : RegisterData)
    (net : Config -> Reply AuthResponse) : Promise AuthResponse :=
  register axiosInstance userData net.

Definition logout (net : Config -> Reply jsval) (state : AuthState)
  : Promise AuthState :=
  try_catch
    (logout axiosInstance net ;;
     ret (setUser JNull state))
    (fun error =>
       console_error logout_text error ;;
       throw error).

End Provider.

End AuthContext.

(** ** The screens *)

(** [Alert.alert(title, message)]; the buttons of an alert are left out. *)
Record Alert := {
  alert_title : jsstring;
  alert_message : jsstring
}.

(** [!value] for a string. *)
Definition empty (value : jsstring) : bool :=
  match value with
  | [] => true
  | _ :: _ => false
  end.

(** [value || fallback] for two strings. *)
Definition or_else (value fallback : jsstring) : jsstring :=
  match value with
  | [] => fallback
  | _ :: _ => value
  end.

(** ['Erreur'] and ['Succès'] *)
Definition Erreur : jsstring := u16 "Erreur".

Definition Succes : jsstring := u16 "Succ" ++ [232] ++ u16 "s".

(** The fields of [LoginScreen]. *)
Record LoginForm := {
  form_email : jsstring;
  form_password : jsstring;
  form_loading : bool
}.

Definition set_form_loading (loading : bool) (form : LoginForm) : LoginForm :=
  {| form_email := form_email form; form_password := form_password form;
     form_loading := loading |}.

(** The fields of [RegisterScreen]: the data that is sent, with a [phone]
    that is always a string, and the confirmation beside it. *)
Record RegisterForm := {
  formData : RegisterData;
  confirmPassword : jsstring;
  register_loading : bool
}.

Definition set_register_loading (loading : bool) (form : RegisterForm)
  : RegisterForm :=
  {| formData := formData form; confirmPassword := confirmPassword form;
     register_loading := loading |}.

Section Screens.

Variable axiosInstance : AxiosInstance.

(** The [message] of an error that is not the object the services throw:
    no screen reads anything else of it. *)
Variable native_message : JsError -> jsstring.

(** [error.message] *)
Definition error_message (error : JsError) : jsstring :=
  match error with
  | Rejection r => message r
  | _ => native_message error
  end.

(** [LoginScreen]: a handler runs from the fields and the state of the
    context to what it leaves of them and the alerts it shows. *)
Definition handleLogin (net : Config -> Reply AuthResponse)
    (form : LoginForm) (state : AuthState) (w : World)
  : (LoginForm * AuthState * list Alert) * World :=
  if empty (form_email form) || empty (form_password form) then
    ((form, state,
      [{| alert_title := Erreur;
          alert_message := u16 "Veuillez remplir tous les champs" |}]), w)
  else
    let form1 := set_form_loading true form in
    match AuthContext.login axiosInstance (form_email form)
            (form_password form) net state w with
    | (Return (_, state1), w1) =>
        ((set_form_loading false form1, state1, []), w1)
    | (Throw error, w1) =>
        ((set_form_loading false form1, state,
          [{| alert_title := u16 "Erreur de connexion";
              alert_message :=
                or_else (error_message error)
                  (u16 "Une erreur est survenue lors de la connexion") |}]),
         w1)
    end.

(** [RegisterScreen].  The two files keep the confirmation in different
    places and compare it with the password in the same way. *)
Definition validateForm (form : RegisterForm) : bool * list Alert :=
  if empty (reg_email (formData form)) || empty (reg_password (formData form))
     || empty (reg_fullName (formData form)) then
    (false,
     [{| alert_title := Erreur;
         alert_message :=
           u16 "Veuillez remplir tous les champs obligatoires" |}])
  else if negb (bool_decide (reg_password (formData form)
                             = confirmPassword form)) then
    (false,
     [{| alert_title := Erreur;
         alert_message := u16 "Les mots de passe ne correspondent pas" |}])
  else (true, []).

(** ['Inscription réussie'] *)
Definition register_success : jsstring :=
  u16 "Inscription r" ++ [233] ++ u16 "ussie".

(** [native.en.ts] registers through the context and [natvived.js] through
    the service, with the four fields of the form: the same call.  The
    button of the success alert, which leads to the login screen, is left
    out. *)
Definition handleRegister (net : Config -> Reply AuthResponse)
    (form : RegisterForm) (w : World) : (RegisterForm * list Alert) * World :=
  let (valid, shown) := validateForm form in
  if negb valid then ((form, shown), w)
  else
    let form1 := set_register_loading true form in
    match AuthContext.register axiosInstance (formData form) net w with
    | (Return _, w1) =>
        ((set_register_loading false form1,
          shown ++ [{| alert_title := Succes;
                       alert_message := register_success |}]), w1)
    | (Throw error, w1) =>
        ((set_register_loading false form1,
          shown ++ [{| alert_title := Erreur;
                       alert_message :=
                         or_else (error_message error)
                           (u16 "Une erreur est survenue lors de l'inscription")
                    |}]), w1)
    end.

(** [ProductsScreen]: the handler behind the button [Supprimer] of the
    confirmation that [handleDelete] shows.  Of a product it reads the
    [id]. *)
Variable Product : Type.
Variable product_id : Product -> jsstring.

(** ['Produit supprimé avec succès'] *)
Definition delete_success : jsstring :=
  u16 "Produit supprim" ++ [233] ++ u16 " avec succ" ++ [232] ++ u16 "s".

Definition handleDelete_onPress (id : jsstring) (net : Config -> Reply jsval)
    (products : list Product) (w : World)
  : (list Product * list Alert) * World :=
  match deleteProduct axiosInstance id net w with
  | (Return _, w1) =>
      ((filter (fun product => product_id product <> id) products,
        [{| alert_title := Succes; alert_message := delete_success |}]), w1)
  | (Throw error, w1) =>
      ((products,
        [{| alert_title := Erreur; alert_message := error_message error |}]),
       w1)
  end.

End Screens.

(** ** Histories of calls *)

(** A call of a function of the two services, with the network it meets. *)
Inductive call :=
  | Login (credentials : LoginCredentials) (net : Config -> Reply AuthResponse)
  | Register (userData : RegisterData) (net : Config -> Reply AuthResponse)
  | Logout (net : Config -> Reply jsval)
  | GetCurrentUser
  | IsAuthenticated
  | RefreshToken (net : Config -> Reply TokenResponse)
  | UpdateUserProfile (userData : jsval) (net : Config -> Reply User)
  | ResetPassword (email : jsstring) (net : Config -> Reply jsval)
  | CreateProduct (productData : jsval) (net : Config -> Reply jsval)
  | GetProducts (params : Params) (net : Config -> Params -> Reply jsval)
  | UpdateProduct (id : jsstring) (productData : jsval)
      (net : Config -> Reply jsval)
  | DeleteProduct (id : jsstring) (net : Config -> Reply jsval)
  | SearchProducts (searchTerm : jsstring)
      (filters : list (jsstring * jsstring))
      (net : Config -> Params -> Reply jsval).

(** The call, with its result dropped. *)
Definition perform (instance : AxiosInstance) (c : call) : Promise unit :=
  match c with
  | Login credentials net => login instance credentials net ;; ret tt
  | Register userData net => register instance userData net ;; ret tt
  | Logout net => logout instance net
  | GetCurrentUser => getCurrentUser ;; ret tt
  | IsAuthenticated => isAuthenticated ;; ret tt
  | RefreshToken net => refreshToken instance net ;; ret tt
  | UpdateUserProfile userData net =>
      updateUserProfile instance userData net ;; ret tt
  | ResetPassword email net => resetPassword instance email net ;; ret tt
  | CreateProduct productData net =>
      createProduct instance productData net ;; ret tt
  | GetProducts params net => getProducts instance params net ;; ret tt
  | UpdateProduct id productData net =>
      updateProduct instance id productData net ;; ret tt
  | DeleteProduct id net => deleteProduct instance id net ;; ret tt
  | SearchProducts searchTerm filters net =>
      searchProducts instance searchTerm filters net ;; ret tt
  end.

(** The world after the calls were made one after the other, each one
    awaited, whether it resolved or rejected. *)
Definition history (instance : AxiosInstance) (calls : list call) (w : World)
  : World :=
  fold_left (fun w c => snd (perform instance c w)) calls w.

(** ** Specifications of asynchronous computations *)

(** From a world that satisfies [P], the computation resolves to a value
    and a world that satisfy [Q], or rejects with an error and a world
    that satisfy [E]. *)
Definition triple {A} (P : World -> Prop) (m : Promise A)
    (Q : A -> World -> Prop) (E : JsError -> World -> Prop) : Prop :=
  forall w, P w ->
    match m w with
    | (Return a, w') => Q a w'
    | (Throw e, w') => E e w'
    end.

(** The computation keeps [I], however it ends. *)
Definition keeps {A} (I : World -> Prop) (m : Promise A) : Prop :=
  triple I m (fun _ => I) (fun _ => I).

(** The computation sends at most [n] requests, and takes none back. *)
Definition sends {A} (m : Promise A) (n : nat) : Prop :=
  forall w, exists new,
    sent_requests (trace (snd (m w))) = sent_requests (trace w) ++ new /\
    (length new <= n)%nat.

(** The object the services throw, with a message to show. *)
Definition normalized (error : JsError) : Prop :=
  exists r, error = Rejection r /\ message r <> [].

(** The error has no response with a [null] body: [handleError] returns
    on it. *)
Definition with_body (error : JsError) : Prop :=
  forall response,
    error_response error = Some response -> res_data response <> NullBody.

(** A network none of whose error responses has a [null] body. *)
Definition bodied {B} (net : Config -> Reply B) : Prop :=
  forall config response q,
    net config = Failed (Some response) q -> res_data response <> NullBody.

(** The network the call meets is such a one. *)
Definition call_bodied (c : call) : Prop :=
  match c with
  | Login _ net | Register _ net => bodied net
  | Logout net => bodied net
  | GetCurrentUser | IsAuthenticated => True
  | RefreshToken net => bodied net
  | UpdateUserProfile _ net => bodied net
  | ResetPassword _ net | CreateProduct _ net | UpdateProduct _ _ net
  | DeleteProduct _ net => bodied net
  | GetProducts params net => bodied (fun config => net config params)
  | SearchProducts searchTerm filters net =>
      bodied (fun config => net config (search_params searchTerm filters))
  end.

(** The computation rejects with errors that satisfy [E] only. *)
Definition raises {A} (m : Promise A) (E : JsError -> Prop) : Prop :=
  forall w e w', m w = (Throw e, w') -> E e.

(** What AsyncStorage holds of the session is well formed: the token is
    not the empty string, and the text under [user] is a profile that
    [JSON.stringify] wrote. *)
Definition well_formed (store : gmap jsstring jsstring) : Prop :=
  store !! u16 "token" <> Some [] /\
  forall text, store !! u16 "user" = Some text ->
               exists u, text = JSON_stringify u.

(** ** Further scenarios *)

Definition bob : User :=
  {| user_id := u16 "1"; user_email := u16 "b@b.com";
     user_fullName := u16 "B"; user_phone := Some (u16 "07") |}.

(** A server that answers every request with 500 and no message. *)
Definition server_error {B} : Config -> Reply B :=
  fun _ => Failed (Some {| res_status := 500;
                           res_data := Body None |}) true.

(** A server that answers every request with 500 and the body [null]. *)
Definition null_response : Response ErrorBody :=
  {| res_status := 500; res_data := NullBody |}.

Definition null_error {B} : Config -> Reply B :=
  fun _ => Failed (Some null_response) true.



Definition alice_form : LoginForm :=
  {| form_email := u16 "a@b.com"; form_password := u16 "x";
     form_loading := false |}.

Definition T2_body : TokenResponse := {| fresh_token := Some (u16 "T2") |}.

(** Alice signs in, changes her profile, has her token refreshed, is
    refused the deletion of a product, and looks up the profile. *)
Definition session_calls : list call :=
  [Login alice_credentials (accepts T1_body);
   UpdateUserProfile (JObject [(u16 "phone", JString (u16 "07"))])
     (accepts bob);
   RefreshToken (accepts T2_body);
   DeleteProduct (u16 "7") unauthorized;
   GetCurrentUser].

(** The response of a server that [accepts T1_body]. *)
Definition T1_response : Response AuthResponse :=
  {| res_status := 200; res_data := T1_body |}.

(** The login form with the password left empty. *)
Definition half_filled : LoginForm :=
  {| form_email := u16 "a@b.com"; form_password := [];
     form_loading := false |}.

(** Errors of the platform whose message does not matter. *)
Definition silent : JsError -> jsstring := fun _ => [].

(** * Properties *)

(** ** JSON: what [JSON.stringify] writes, [JSON.parse] reads back *)

Section JSONFacts.
Import JSON.

Lemma hex_value_hex_digit d : d < 16 -> hex_value (hex_digit d) = Some d.
Proof.
  intros H. unfold hex_digit, hex_value.
  destruct (N.ltb_spec d 10).
  - replace ((48 <=? 48 + d) && (48 + d <=? 57)) with true.
    + f_equal. lia.
    + symmetry. apply andb_true_iff. split; apply N.leb_le; lia.
  - replace ((48 <=? 87 + d) && (87 + d <=? 57)) with false.
    + replace ((97 <=? 87 + d) && (87 + d <=? 102)) with true.
      * f_equal. lia.
      * symmetry. apply andb_true_iff. split; apply N.leb_le; lia.
    + symmetry. apply andb_false_iff. right. apply N.leb_gt. lia.
Qed.

Lemma hex4_digits c :
  c < 65536 ->
  ((c / 4096 mod 16 * 16 + c / 256 mod 16) * 16 + c / 16 mod 16) * 16
  + c mod 16 = c.
Proof.
  intros H.
  replace (c / 4096) with (c / 16 / 16 / 16)
    by (rewrite !N.Div0.div_div; reflexivity).
  replace (c / 256) with (c / 16 / 16)
    by (rewrite !N.Div0.div_div; reflexivity).
  pose proof (N.div_mod c 16 ltac:(lia)) as H0.
  pose proof (N.div_mod (c / 16) 16 ltac:(lia)) as H1.
  pose proof (N.div_mod (c / 16 / 16) 16 ltac:(lia)) as H2.
  assert (c / 16 / 16 / 16 < 16) as H3.
  { rewrite !N.Div0.div_div. apply N.Div0.div_lt_upper_bound. simpl. lia. }
  rewrite (N.mod_small (c / 16 / 16 / 16) 16) by exact H3.
  lia.
Qed.

Lemma parse_unicode_escape c rest :
  c < 65536 ->
  parse_string_body (unicode_escape c ++ rest)
  = cons_unit c (parse_string_body rest).
Proof.
  intros H. unfold unicode_escape, hex4.
  cbn [app parse_string_body N.eqb Pos.eqb].
  unfold unhex4.
  rewrite !hex_value_hex_digit by (apply N.mod_lt; lia).
  rewrite hex4_digits by exact H. reflexivity.
Qed.

Lemma parse_raw c rest :
  c <> 34 -> c <> 92 -> 32 <= c ->
  parse_string_body (c :: rest) = cons_unit c (parse_string_body rest).
Proof.
  intros H1 H2 H3. cbn [parse_string_body].
  destruct (N.eqb_spec c 34); [contradiction|].
  destruct (N.eqb_spec c 92); [contradiction|].
  destruct (N.ltb_spec c 32); [lia|]. reflexivity.
Qed.

Lemma parse_quote_unit c rest :
  parse_string_body (quote_unit c ++ rest)
  = cons_unit c (parse_string_body rest).
Proof.
  unfold quote_unit.
  repeat (match goal with
          | |- context [N.eqb c ?k] =>
              destruct (N.eqb_spec c k); [subst c; reflexivity|]
          end).
  destruct (N.ltb_spec c 32).
  - apply parse_unicode_escape. lia.
  - apply parse_raw; assumption.
Qed.

Lemma surrogate_bounds c :
  is_high_surrogate c || is_low_surrogate c = true -> 0xD800 <= c < 65536.
Proof.
  unfold is_high_surrogate, is_low_surrogate.
  rewrite orb_true_iff, !andb_true_iff, !N.leb_le. lia.
Qed.

(** The quoted characters and the closing quote read back as the string. *)
Lemma parse_quote_units s rest :
  parse_string_body (quote_units s ++ 34 :: rest) = Some (s, rest).
Proof.
  remember (length s) as n eqn:Hn.
  revert s Hn. induction n as [n IH] using lt_wf_ind. intros s Hn.
  destruct s as [|c r]; [reflexivity|].
  cbn [quote_units].
  destruct (is_high_surrogate c) eqn:Hh.
  - pose proof (surrogate_bounds c) as Hc. rewrite Hh in Hc.
    specialize (Hc eq_refl).
    destruct r as [|d r'].
    + rewrite parse_unicode_escape by lia. reflexivity.
    + destruct (is_low_surrogate d) eqn:Hl.
      * pose proof (surrogate_bounds d) as Hd. rewrite Hl, orb_true_r in Hd.
        specialize (Hd eq_refl).
        cbn [app]. rewrite !parse_raw by lia.
        rewrite (IH (length r')) by (subst n; simpl; lia || reflexivity).
        reflexivity.
      * rewrite <- app_assoc, parse_unicode_escape by lia.
        rewrite (IH (length (d :: r'))) by (subst n; simpl; lia || reflexivity).
        reflexivity.
  - destruct (is_low_surrogate c) eqn:Hl.
    + pose proof (surrogate_bounds c) as Hc. rewrite Hl, orb_true_r in Hc.
      specialize (Hc eq_refl).
      rewrite <- app_assoc, parse_unicode_escape by lia.
      rewrite (IH (length r)) by (subst n; simpl; lia || reflexivity).
      reflexivity.
    + rewrite <- app_assoc, parse_quote_unit.
      rewrite (IH (length r)) by (subst n; simpl; lia || reflexivity).
      reflexivity.
Qed.

Lemma parse_quote s rest :
  parse_string_body (quote_units s ++ [34] ++ rest) = Some (s, rest).
Proof. apply parse_quote_units. Qed.

Lemma parse_value_string n s rest :
  parse_value (S n) (quote s ++ rest) = Some (JString s, rest).
Proof.
  unfold quote. cbn [app parse_value skip_ws is_ws N.eqb Pos.eqb orb].
  rewrite <- app_assoc, parse_quote. reflexivity.
Qed.

Lemma parse_member n k v rest acc :
  parse_members (S (S n)) (stringify_property (k, v) ++ rest) acc
  = match skip_ws rest with
    | [] => None
    | c :: r =>
        if c =? 44 then parse_members (S n) r (define k (JString v) acc)
        else if c =? 125 then Some (JObject (define k (JString v) acc), r)
        else None
    end.
Proof.
  unfold stringify_property, quote at 1. cbn [fst snd].
  cbn [app parse_members skip_ws is_ws N.eqb Pos.eqb orb].
  rewrite <- !app_assoc, parse_quote.
  cbn [app skip_ws is_ws N.eqb Pos.eqb orb].
  rewrite parse_value_string. reflexivity.
Qed.

Lemma parse_members_strings ps :
  forall n acc rest,
    ps <> [] -> (length ps < n)%nat ->
    parse_members n (stringify_properties ps ++ 125 :: rest) acc
    = Some (JObject (defined_by ps acc), rest).
Proof.
  induction ps as [|[k v] r IH]; intros n acc rest Hne Hn; [contradiction|].
  destruct n as [|[|n]]; [simpl in Hn; lia..|].
  destruct r as [|p r].
  - cbn [stringify_properties]. rewrite parse_member. reflexivity.
  - change (stringify_properties ((k, v) :: p :: r))
      with (stringify_property (k, v) ++ 44 :: stringify_properties (p :: r)).
    rewrite <- app_assoc, parse_member.
    cbn [app skip_ws is_ws N.eqb Pos.eqb orb].
    rewrite IH; [reflexivity|discriminate|simpl in *; lia].
Qed.

Lemma length_stringify_properties ps :
  (length ps <= length (stringify_properties ps))%nat.
Proof.
  induction ps as [|[k v] [|p r] IH].
  - reflexivity.
  - simpl. lia.
  - change (stringify_properties ((k, v) :: p :: r))
      with (stringify_property (k, v) ++ 44 :: stringify_properties (p :: r)).
    rewrite length_app. simpl in *. lia.
Qed.

(** An object whose properties are strings reads back as written. *)
Lemma parse_stringify_object ps :
  ps <> [] ->
  parse (stringify_object ps) = Some (JObject (defined_by ps [])).
Proof.
  intros Hne. unfold parse, stringify_object.
  pose proof (length_stringify_properties ps) as Hlen.
  destruct ps as [|[k v] r]; [contradiction|].
  set (text := stringify_properties ((k, v) :: r)) in *.
  assert (exists t, text = 34 :: t) as [t Ht].
  { unfold text. destruct r; cbn; eauto. }
  cbn [parse_value skip_ws is_ws N.eqb Pos.eqb orb].
  rewrite Ht at 1. cbn [app skip_ws is_ws N.eqb Pos.eqb orb].
  unfold text.
  rewrite parse_members_strings.
  - reflexivity.
  - discriminate.
  - cbn [length]. rewrite length_app. fold text. cbn [length] in *. lia.
Qed.

Lemma parse_stringify_user u :
  parse (JSON_stringify u) = Some (user_value u).
Proof.
  unfold JSON_stringify. rewrite parse_stringify_object.
  - destruct u as [i e f [p|]]; reflexivity.
  - destruct u as [i e f [p|]]; discriminate.
Qed.

Lemma as_user_value u : as_user (user_value u) = Some u.
Proof. destruct u as [i e f [p|]]; reflexivity. Qed.

End JSONFacts.

(** ** JSON: the fuel of the parser *)

Section Fuel.
Import JSON.

Lemma skip_ws_length s : (length (skip_ws s) <= length s)%nat.
Proof.
  induction s as [|c r IH]; [reflexivity|].
  cbn [skip_ws]. destruct (is_ws c); cbn [length]; lia.
Qed.

Lemma cons_unit_length c o str rest (m : nat) :
  cons_unit c o = Some (str, rest) ->
  (forall str' rest', o = Some (str', rest') -> (length rest' < m)%nat) ->
  (length rest < m)%nat.
Proof.
  destruct o as [[str' rest']|]; [|discriminate].
  cbn [cons_unit]. intros H Hlen. injection H as _ <-. eauto.
Qed.

Lemma parse_string_body_length_upto n :
  forall s str rest,
    (length s <= n)%nat ->
    parse_string_body s = Some (str, rest) -> (length rest < length s)%nat.
Proof.
  induction n as [|n IH]; intros s str rest Hn.
  { destruct s; [discriminate|cbn [length] in Hn; lia]. }
  destruct s as [|c r]; [discriminate|].
  cbn [parse_string_body length] in *.
  destruct (c =? 34).
  { intros H. injection H as _ <-. lia. }
  destruct (c =? 92).
  - destruct r as [|e r1]; [discriminate|].
    destruct (e =? 117).
    + destruct r1 as [|h1 [|h2 [|h3 [|h4 r2]]]]; try discriminate.
      destruct (unhex4 h1 h2 h3 h4); [|discriminate].
      intros H. eapply cons_unit_length; [exact H|].
      intros str' rest' H'.
      apply IH in H'; cbn [length] in *; lia.
    + destruct (unescape e); [|discriminate].
      intros H. eapply cons_unit_length; [exact H|].
      intros str' rest' H'.
      apply IH in H'; cbn [length] in *; lia.
  - destruct (c <? 32); [discriminate|].
    intros H. eapply cons_unit_length; [exact H|].
    intros str' rest' H'.
    apply IH in H'; cbn [length] in *; lia.
Qed.

Lemma parse_string_body_length s str rest :
  parse_string_body s = Some (str, rest) -> (length rest < length s)%nat.
Proof. apply (parse_string_body_length_upto (length s)). reflexivity. Qed.

Lemma expect_length lit : forall s rest,
  expect lit s = Some rest -> (length rest <= length s)%nat.
Proof.
  induction lit as [|a lit IH]; intros s rest.
  - destruct s; intros H; injection H as <-; reflexivity.
  - destruct s as [|c r]; [discriminate|]. cbn [expect].
    destruct (a =? c); [|discriminate].
    intros H. apply IH in H. cbn [length]. lia.
Qed.

Lemma span_digits_length s : forall ds rest,
  span_digits s = (ds, rest) -> (length ds + length rest = length s)%nat.
Proof.
  induction s as [|c r IH]; intros ds rest.
  - intros H. injection H as <- <-. reflexivity.
  - cbn [span_digits]. destruct (is_digit c).
    + destruct (span_digits r) as [ds' rest'] eqn:E.
      intros H. injection H as <- <-. specialize (IH _ _ eq_refl).
      cbn [length]. lia.
    + intros H. injection H as <- <-. reflexivity.
Qed.

Lemma parse_number_length s v rest :
  parse_number s = Some (v, rest) -> (length rest < length s)%nat.
Proof.
  unfold parse_number.
  set (sign := match s with
               | c :: r => if c =? 45 then (true, r) else (false, s)
               | [] => (false, s)
               end).
  assert (length (snd sign) <= length s)%nat as Hsign.
  { unfold sign. destruct s as [|c r]; [reflexivity|].
    destruct (c =? 45); cbn [snd length]; lia. }
  destruct sign as [negative s1]. cbn [snd] in Hsign.
  destruct (span_digits s1) as [ip s2] eqn:Hip.
  apply span_digits_length in Hip.
  destruct ip as [|d ds]; [discriminate|].
  destruct ((d =? 48) && negb (bool_decide (ds = []))); [discriminate|].
  cbn [length] in Hip.
  set (frac := match s2 with
               | c :: r =>
                   if c =? 46 then
                     let (fp, rest) := span_digits r in
                     match fp with [] => None | _ => Some (fp, rest) end
                   else Some ([], s2)
               | [] => Some ([], s2)
               end).
  assert (forall fp s3, frac = Some (fp, s3) -> (length s3 <= length s2)%nat)
    as Hfrac.
  { unfold frac. intros fp s3. destruct s2 as [|c r].
    - intros H. injection H as _ <-. reflexivity.
    - destruct (c =? 46).
      + destruct (span_digits r) as [fp' rest'] eqn:E.
        apply span_digits_length in E.
        destruct fp'; [discriminate|].
        intros H. injection H as _ <-. cbn [length] in *. lia.
      + intros H. injection H as _ <-. reflexivity. }
  destruct frac as [[fp s3]|]; [|discriminate].
  specialize (Hfrac _ _ eq_refl).
  set (expo := match s3 with
               | c :: r => _
               | [] => Some (0%Z, s3)
               end).
  assert (forall e s4, expo = Some (e, s4) -> (length s4 <= length s3)%nat)
    as Hexpo.
  { unfold expo. intros e s4. destruct s3 as [|c r].
    - intros H. injection H as _ <-. reflexivity.
    - destruct ((c =? 101) || (c =? 69)).
      + set (sg := match r with
                   | sg :: r' => _
                   | [] => (false, r)
                   end).
        assert (length (snd sg) <= length r)%nat as Hsg.
        { unfold sg. destruct r as [|x r']; [reflexivity|].
          destruct (x =? 45); [cbn [snd length]; lia|].
          destruct (x =? 43); cbn [snd length]; lia. }
        destruct sg as [minus r1]. cbn [snd] in Hsg.
        destruct (span_digits r1) as [ep rest'] eqn:E.
        apply span_digits_length in E.
        destruct ep; [discriminate|].
        intros H. injection H as _ <-. cbn [length] in *. lia.
      + intros H. injection H as _ <-. reflexivity. }
  destruct expo as [[e s4]|]; [|discriminate].
  specialize (Hexpo _ _ eq_refl).
  intros H. injection H as _ <-. lia.
Qed.

Lemma parse_adequate m :
  adequate (fun n s (_ : unit) => parse_value n s) m /\
  adequate parse_members m /\
  adequate parse_elements m.
Proof.
  induction m as [|m (IHv & IHm & IHe)].
  { repeat split; discriminate. }
  split; [|split]; intros s a v rest H.
  - (* a value *)
    cbn [parse_value] in H |- *.
    pose proof (skip_ws_length s) as Hws.
    destruct (skip_ws s) as [|c r]; [discriminate|]. cbn [length] in Hws.
    destruct (c =? 123).
    { pose proof (skip_ws_length r) as Hws'.
      destruct (skip_ws r) as [|c' r']; [discriminate|]. cbn [length] in Hws'.
      destruct (c' =? 125).
      - injection H as <- <-. split; [lia|reflexivity].
      - apply IHm in H. destruct H as [Hlen Hfuel].
        split; [lia|]. intros n Hn.
        destruct n as [|n]; [lia|]. apply Hfuel. lia. }
    destruct (c =? 91).
    { pose proof (skip_ws_length r) as Hws'.
      destruct (skip_ws r) as [|c' r']; [discriminate|]. cbn [length] in Hws'.
      destruct (c' =? 93).
      - injection H as <- <-. split; [lia|reflexivity].
      - apply IHe in H. destruct H as [Hlen Hfuel].
        split; [lia|]. intros n Hn.
        destruct n as [|n]; [lia|]. apply Hfuel. lia. }
    destruct (c =? 34).
    { destruct (parse_string_body r) as [[str rest']|] eqn:Hstr;
        [|discriminate].
      apply parse_string_body_length in Hstr.
      injection H as <- <-. split; [lia|reflexivity]. }
    destruct (c =? 116).
    { destruct (expect (u16 "rue") r) as [rest'|] eqn:Hlit; [|discriminate].
      apply expect_length in Hlit.
      injection H as <- <-. split; [lia|reflexivity]. }
    destruct (c =? 102).
    { destruct (expect (u16 "alse") r) as [rest'|] eqn:Hlit; [|discriminate].
      apply expect_length in Hlit.
      injection H as <- <-. split; [lia|reflexivity]. }
    destruct (c =? 110).
    { destruct (expect (u16 "ull") r) as [rest'|] eqn:Hlit; [|discriminate].
      apply expect_length in Hlit.
      injection H as <- <-. split; [lia|reflexivity]. }
    pose proof (parse_number_length _ _ _ H) as Hnum. cbn [length] in Hnum.
    split; [lia|]. intros n _. exact H.
  - (* the members of an object *)
    cbn [parse_members] in H |- *.
    pose proof (skip_ws_length s) as Hws.
    destruct (skip_ws s) as [|c r]; [discriminate|]. cbn [length] in Hws.
    destruct (c =? 34); [|discriminate].
    destruct (parse_string_body r) as [[k r1]|] eqn:Hkey; [|discriminate].
    apply parse_string_body_length in Hkey.
    pose proof (skip_ws_length r1) as Hws1.
    destruct (skip_ws r1) as [|c1 r2]; [discriminate|]. cbn [length] in Hws1.
    destruct (c1 =? 58); [|discriminate].
    destruct (parse_value m r2) as [[v0 r3]|] eqn:Hval; [|discriminate].
    apply (IHv r2 tt) in Hval. destruct Hval as [Hlen Hfuel].
    pose proof (skip_ws_length r3) as Hws3.
    destruct (skip_ws r3) as [|c2 r4] eqn:Hskip3; [discriminate|].
    cbn [length] in Hws3.
    destruct (c2 =? 44) eqn:Hc2.
    + apply IHm in H. destruct H as [Hlen' Hfuel'].
      split; [lia|]. intros n Hn.
      destruct n as [|n]; [lia|].
      rewrite Hfuel, Hskip3, Hc2 by lia. apply Hfuel'. lia.
    + destruct (c2 =? 125) eqn:Hc2'; [|discriminate].
      injection H as <- <-.
      split; [lia|]. intros n Hn.
      destruct n as [|n]; [lia|].
      rewrite Hfuel, Hskip3, Hc2, Hc2' by lia. reflexivity.
  - (* the elements of an array *)
    cbn [parse_elements] in H |- *.
    destruct (parse_value m s) as [[v0 r1]|] eqn:Hval; [|discriminate].
    apply (IHv s tt) in Hval. destruct Hval as [Hlen Hfuel].
    pose proof (skip_ws_length r1) as Hws1.
    destruct (skip_ws r1) as [|c r2] eqn:Hskip1; [discriminate|].
    cbn [length] in Hws1.
    destruct (c =? 44) eqn:Hc.
    + apply IHe in H. destruct H as [Hlen' Hfuel'].
      split; [lia|]. intros n Hn.
      destruct n as [|n]; [lia|].
      rewrite Hfuel, Hskip1, Hc by lia. apply Hfuel'. lia.
    + destruct (c =? 93) eqn:Hc'; [|discriminate].
      injection H as <- <-.
      split; [lia|]. intros n Hn.
      destruct n as [|n]; [lia|].
      rewrite Hfuel, Hskip1, Hc, Hc' by lia. reflexivity.
Qed.

(** The fuel [parse] gives is enough: what any fuel makes of a text,
    the fuel of [parse] makes of it. *)
Lemma parse_value_fuel m text v rest :
  parse_value m text = Some (v, rest) ->
  parse_value (S (length text)) text = Some (v, rest).
Proof.
  intros H. destruct (parse_adequate m) as (Hv & _ & _).
  apply (Hv text tt) in H. destruct H as [_ Hfuel]. apply Hfuel. lia.
Qed.

(** So a text that [parse] rejects is rejected on every fuel. *)
Lemma parse_rejects_every_fuel text :
  parse text = None ->
  forall m v rest, parse_value m text = Some (v, rest) -> skip_ws rest <> [].
Proof.
  unfold parse. intros Hnone m v rest H.
  rewrite (parse_value_fuel m text v rest H) in Hnone.
  destruct (skip_ws rest); [discriminate|discriminate].
Qed.

(** Nested arrays and the literals, on the fuel of [parse]. *)
Example parse_nested :
  parse (u16 " [[[[1]]], [true, false, null], [-1.5e3, []]] ")
  = Some (JArray [JArray [JArray [JArray [JNum 1 0]]];
                  JArray [JBool true; JBool false; JNull];
                  JArray [JNum (-15) 2; JArray []]]).
Proof. vm_compute. reflexivity. Qed.

End Fuel.

(** ** Running the storage and the interceptors *)

Ltac unfold_promise :=
  unfold login, register, logout, getCurrentUser, isAuthenticated, post,
    request, dispatchRequest, axios_of, NatvivedJs.axiosInstance,
    NativeEnTs.axiosInstance, NatvivedJs.request_onFulfilled,
    NatvivedJs.response_onFulfilled, NatvivedJs.response_onRejected,
    NativeEnTs.request_onFulfilled, NativeEnTs.response_onFulfilled,
    NativeEnTs.response_onRejected, AsyncStorage.getItem,
    AsyncStorage.setItem, AsyncStorage.removeItem, localStorage.getItem,
    localStorage.removeItem, set_location_href, console_error, emit,
    next_fault, then_, try_catch, bind, ret, throw in *.

Ltac simpl_world :=
  cbn [fst snd async_store local_store location_href faults trace
       record_event set_faults set_async_store set_local_store set_href
       called request_onFulfilled response_onFulfilled response_onRejected
       res_data res_status token user interceptor_store] in *.

Lemma getItem_run key w :
  AsyncStorage.getItem key w
  = (if fails_next w then Throw StorageError
     else Return (async_store w !! key),
     called (AsyncGetItem key) w).
Proof.
  unfold_promise. unfold called, fails_next. simpl_world.
  destruct (hd false (faults w)); reflexivity.
Qed.

Lemma setItem_run key value w :
  AsyncStorage.setItem key value w
  = if fails_next w then (Throw StorageError, called (AsyncSetItem key value) w)
    else (Return tt,
          set_async_store (<[ key := value ]> (async_store w))
            (called (AsyncSetItem key value) w)).
Proof.
  unfold_promise. unfold called, fails_next. simpl_world.
  destruct (hd false (faults w)); reflexivity.
Qed.

Lemma removeItem_run key w :
  AsyncStorage.removeItem key w
  = if fails_next w then (Throw StorageError, called (AsyncRemoveItem key) w)
    else (Return tt,
          set_async_store (delete key (async_store w))
            (called (AsyncRemoveItem key) w)).
Proof.
  unfold_promise. unfold called, fails_next. simpl_world.
  destruct (hd false (faults w)); reflexivity.
Qed.

Lemma sent_requests_app t1 t2 :
  sent_requests (t1 ++ t2) = sent_requests t1 ++ sent_requests t2.
Proof.
  induction t1 as [|e t1 IH]; [reflexivity|].
  destruct e; simpl; rewrite IH; reflexivity.
Qed.

(** The request interceptors. *)
Lemma request_onFulfilled_natvived config w :
  NatvivedJs.request_onFulfilled config w
  = (Return (outgoing (local_store w) config),
     record_event (LocalGetItem (u16 "token")) w).
Proof.
  unfold_promise. unfold outgoing. simpl_world.
  destruct (local_store w !! u16 "token") as [[|c t]|]; reflexivity.
Qed.

Lemma request_onFulfilled_native config w :
  NativeEnTs.request_onFulfilled config w
  = (if fails_next w then Throw StorageError
     else Return (outgoing (async_store w) config),
     called (AsyncGetItem (u16 "token")) w).
Proof.
  unfold NativeEnTs.request_onFulfilled, bind. rewrite getItem_run.
  unfold outgoing, ret.
  destruct (fails_next w); [reflexivity|].
  destruct (async_store w !! u16 "token") as [[|c t]|]; reflexivity.
Qed.

(** One request through the instance of [natvived.js]. *)
Lemma request_natvived B (net : Config -> Reply B) config w :
  request NatvivedJs.axiosInstance net config w
  = let config' := outgoing (local_store w) config in
    let w1 := record_event (Sent config')
                (record_event (LocalGetItem (u16 "token")) w) in
    match net config' with
    | Fulfilled r => (Return r, w1)
    | Failed response q =>
        (Throw (AxiosError response q),
         if is_401 (AxiosError response q) then
           set_href (u16 "/login")
             (record_event (LocationHref (u16 "/login"))
                (set_local_store (delete (u16 "token") (local_store w))
                   (record_event (LocalRemoveItem (u16 "token")) w1)))
         else w1)
    end.
Proof.
  unfold request, then_, bind.
  cbn [request_onFulfilled NatvivedJs.axiosInstance].
  rewrite request_onFulfilled_natvived.
  unfold_promise. simpl_world.
  destruct (net _) as [r|response q]; [reflexivity|].
  simpl_world. destruct (is_401 _); reflexivity.
Qed.

(** One request through the instance of [native.en.ts]. *)
Lemma request_native B (net : Config -> Reply B) config w :
  request NativeEnTs.axiosInstance net config w
  = let w0 := called (AsyncGetItem (u16 "token")) w in
    if fails_next w then (Throw StorageError, w0)
    else
      let config' := outgoing (async_store w) config in
      let w1 := record_event (Sent config') w0 in
      match net config' with
      | Fulfilled r => (Return r, w1)
      | Failed response q =>
          if is_401 (AxiosError response q) then
            if fails_next w1 then
              (Throw StorageError, called (AsyncRemoveItem (u16 "token")) w1)
            else
              (Throw (AxiosError response q),
               set_async_store (delete (u16 "token") (async_store w))
                 (called (AsyncRemoveItem (u16 "token")) w1))
          else (Throw (AxiosError response q), w1)
      end.
Proof.
  unfold request, then_, bind.
  cbn [request_onFulfilled NativeEnTs.axiosInstance].
  rewrite request_onFulfilled_native.
  destruct (fails_next w) eqn:Hf.
  - reflexivity.
  - cbn zeta. unfold dispatchRequest, bind, emit.
    destruct (net _) as [r|response q]; [reflexivity|].
    unfold throw. cbn [response_onRejected NativeEnTs.axiosInstance].
    unfold NativeEnTs.response_onRejected, bind.
    destruct (is_401 _); [|reflexivity].
    rewrite removeItem_run.
    destruct (fails_next (record_event _ _)); reflexivity.
Qed.

Lemma outgoing_present store config t :
  store !! u16 "token" = Some t -> t <> [] ->
  outgoing store config = set_Authorization config (u16 "Bearer " ++ t).
Proof.
  intros H Ht. unfold outgoing. rewrite H.
  destruct t; [contradiction|reflexivity].
Qed.

Lemma outgoing_absent store config :
  truthy (store !! u16 "token") = false -> outgoing store config = config.
Proof.
  unfold outgoing, truthy.
  destruct (store !! u16 "token") as [[|c t]|];
    [reflexivity|discriminate|reflexivity].
Qed.

(** ** The request interceptor *)

(** X27.  Whenever a request goes out, the request interceptor has read the
    token from the storage of its file ([localStorage] in [natvived.js],
    [AsyncStorage] in [native.en.ts], where the read has to be served) and
    left the storage as it was.  A token that is there (a non-empty string)
    is attached as [Authorization: Bearer <token>] and nothing else in the
    request changes; without one the request goes on unmodified.  The
    request the adapter sends is the one the interceptor returned. *)
Theorem request_interceptor_attaches_bearer_token
    (f : source_file) (config : Config) (w : World) :
  (f = native_en_ts -> fails_next w = false) ->
  exists config' w',
    request_onFulfilled (axios_of f) config w = (Return config', w') /\
    async_store w' = async_store w /\
    local_store w' = local_store w /\
    trace w' = trace w ++ [token_read f] /\
    (forall t, interceptor_store f w !! u16 "token" = Some t -> t <> [] ->
       config' = set_Authorization config (u16 "Bearer " ++ t) /\
       cfg_headers config' !! u16 "Authorization" = Some (u16 "Bearer " ++ t) /\
       (forall h, h <> u16 "Authorization" ->
          cfg_headers config' !! h = cfg_headers config !! h) /\
       cfg_method config' = cfg_method config /\
       cfg_url config' = cfg_url config /\
       cfg_data config' = cfg_data config) /\
    (truthy (interceptor_store f w !! u16 "token") = false ->
     config' = config) /\
    (forall B (net : Config -> Reply B),
       sent_requests (trace (snd (request (axios_of f) net config w)))
       = sent_requests (trace w) ++ [config']).
Proof.
  intros Hserved.
  assert (forall store t, store !! u16 "token" = Some t -> t <> [] ->
            outgoing store config
            = set_Authorization config (u16 "Bearer " ++ t) /\
            cfg_headers (outgoing store config) !! u16 "Authorization"
            = Some (u16 "Bearer " ++ t) /\
            (forall h, h <> u16 "Authorization" ->
               cfg_headers (outgoing store config) !! h
               = cfg_headers config !! h) /\
            cfg_method (outgoing store config) = cfg_method config /\
            cfg_url (outgoing store config) = cfg_url config /\
            cfg_data (outgoing store config) = cfg_data config) as Hpresent.
  { intros store t Hs Ht. rewrite (outgoing_present _ _ _ Hs Ht).
    unfold set_Authorization; cbn [cfg_headers cfg_method cfg_url cfg_data].
    repeat split.
    - apply lookup_insert_eq.
    - intros h Hh. apply lookup_insert_ne. congruence. }
  destruct f.
  - exists (outgoing (local_store w) config),
      (record_event (LocalGetItem (u16 "token")) w).
    cbn [axios_of request_onFulfilled NatvivedJs.axiosInstance
         interceptor_store].
    rewrite request_onFulfilled_natvived.
    simpl_world.
    do 4 (split; [reflexivity|]).
    split; [apply Hpresent|]. split; [apply outgoing_absent|].
    intros B net. rewrite request_natvived. cbn zeta.
    destruct (net _) as [r|response q]; [|destruct (is_401 _)];
        simpl_world; rewrite ?sent_requests_app; cbn [sent_requests];
        rewrite ?app_nil_r, <- ?app_assoc; reflexivity.
  - specialize (Hserved eq_refl).
    exists (outgoing (async_store w) config),
      (called (AsyncGetItem (u16 "token")) w).
    cbn [axios_of request_onFulfilled NativeEnTs.axiosInstance
         interceptor_store].
    rewrite request_onFulfilled_native, Hserved.
    simpl_world.
    do 4 (split; [reflexivity|]).
    split; [apply Hpresent|]. split; [apply outgoing_absent|].
    intros B net. rewrite request_native, Hserved. cbn zeta.
    destruct (net _) as [r|response q];
        [|destruct (is_401 _); [destruct (fails_next (record_event _ _))|]];
        simpl_world; rewrite ?sent_requests_app; cbn [sent_requests];
        rewrite ?app_nil_r, <- ?app_assoc; reflexivity.
Qed.

(** ** The response interceptor *)

Lemma is_401_response r q :
  res_status r = 401%Z -> is_401 (AxiosError (Some r) q) = true.
Proof.
  intros H. unfold is_401. cbn [error_response]. rewrite H. reflexivity.
Qed.

(** What a request sends from a world whose interceptor storage holds no
    token: nothing but the request it was given, if anything. *)
Lemma request_without_token f B (net : Config -> Reply B) config w :
  truthy (interceptor_store f w !! u16 "token") = false ->
  exists new,
    sent_requests (trace (snd (request (axios_of f) net config w)))
    = sent_requests (trace w) ++ new /\
    (new = [] \/ new = [config]).
Proof.
  intros Hno. destruct f; cbn [axios_of interceptor_store] in *.
  - rewrite request_natvived, (outgoing_absent _ _ Hno). cbn zeta.
    exists [config]. split; [|right; reflexivity].
    destruct (net _) as [r|response q]; [|destruct (is_401 _)];
      simpl_world; rewrite ?sent_requests_app; cbn [sent_requests];
      rewrite ?app_nil_r, <- ?app_assoc; reflexivity.
  - rewrite request_native, (outgoing_absent _ _ Hno). cbn zeta.
    destruct (fails_next w).
    + exists []. split; [|left; reflexivity].
      simpl_world. rewrite sent_requests_app. reflexivity.
    + exists [config]. split; [|right; reflexivity].
      destruct (net _) as [r|response q];
        [|destruct (is_401 _); [destruct (fails_next (record_event _ _))|]];
        simpl_world; rewrite ?sent_requests_app; cbn [sent_requests];
        rewrite ?app_nil_r, <- ?app_assoc; reflexivity.
Qed.

(** X26.  A request that passed the request interceptor as [config'] and
    was answered with status 401 rejects with that very error, after the
    response interceptor removed the token from the storage of its file
    ([AsyncStorage] in [native.en.ts], provided it serves the removal;
    [localStorage] in [natvived.js]) and nothing else from it.  The cached
    user stays in AsyncStorage, the request was sent once and not again,
    and a request made from the world the caller is left in, without an
    [Authorization] header of its own, goes out without one. *)
Theorem unauthorized_response_clears_token
    (f : source_file) (B : Type) (net : Config -> Reply B)
    (config config' : Config) (w w1 : World)
    (r : Response ErrorBody) (q : bool) :
  request_onFulfilled (axios_of f) config w = (Return config', w1) ->
  net config' = Failed (Some r) q ->
  res_status r = 401%Z ->
  (f = native_en_ts -> fails_next w1 = false) ->
  exists w',
    request (axios_of f) net config w = (Throw (AxiosError (Some r) q), w') /\
    interceptor_store f w' = delete (u16 "token") (interceptor_store f w) /\
    interceptor_store f w' !! u16 "token" = None /\
    async_store w' !! u16 "user" = async_store w !! u16 "user" /\
    sent_requests (trace w') = sent_requests (trace w) ++ [config'] /\
    (forall B2 (net2 : Config -> Reply B2) config2,
       anonymous config2 ->
       exists new,
         sent_requests (trace (snd (request (axios_of f) net2 config2 w')))
         = sent_requests (trace w') ++ new /\
         Forall anonymous new).
Proof.
  intros Hreq Hnet Hstatus Hserved.
  pose proof (is_401_response r q Hstatus) as H401.
  assert (forall w',
            interceptor_store f w'
            = delete (u16 "token") (interceptor_store f w) ->
            interceptor_store f w' !! u16 "token" = None /\
            forall B2 (net2 : Config -> Reply B2) config2,
              anonymous config2 ->
              exists new,
                sent_requests
                  (trace (snd (request (axios_of f) net2 config2 w')))
                = sent_requests (trace w') ++ new /\
                Forall anonymous new) as Hafter.
  { intros w' Hstore.
    assert (interceptor_store f w' !! u16 "token" = None) as Hnone
      by (rewrite Hstore; apply lookup_delete_eq).
    split; [exact Hnone|].
    intros B2 net2 config2 Hanon.
    destruct (request_without_token f B2 net2 config2 w') as [new [Hsent Hnew]].
    { rewrite Hnone. reflexivity. }
    exists new. split; [exact Hsent|].
    destruct Hnew as [->| ->]; [constructor|].
    constructor; [exact Hanon|constructor]. }
  destruct f; cbn [axios_of request_onFulfilled NatvivedJs.axiosInstance
                   NativeEnTs.axiosInstance] in *.
  - rewrite request_onFulfilled_natvived in Hreq.
    injection Hreq as Hc Hw. subst config' w1.
    rewrite request_natvived. cbn zeta. rewrite Hnet, H401.
    eexists. split; [reflexivity|].
    split; [reflexivity|].
    split; [apply Hafter; reflexivity|].
    split; [reflexivity|].
    split; [|apply Hafter; reflexivity].
    simpl_world. rewrite !sent_requests_app. cbn [sent_requests].
    rewrite !app_nil_r. reflexivity.
  - specialize (Hserved eq_refl).
    rewrite request_onFulfilled_native in Hreq.
    destruct (fails_next w) eqn:Hf; [discriminate|].
    injection Hreq as Hc Hw. subst config' w1.
    rewrite request_native, Hf. cbn zeta. rewrite Hnet, H401.
    replace (fails_next (record_event _ _)) with false
      by (symmetry; exact Hserved).
    eexists. split; [reflexivity|].
    split; [reflexivity|].
    split; [apply Hafter; reflexivity|].
    split; [simpl_world; apply lookup_delete_ne; discriminate|].
    split; [|apply Hafter; reflexivity].
    simpl_world. rewrite !sent_requests_app. cbn [sent_requests].
    rewrite !app_nil_r. reflexivity.
Qed.

(** ** Error normalization *)

(** X28.  [handleError] on an error with a response: when the body of the
    response is [null] it throws a TypeError; for every other body it
    returns the status of the response, and as message the [message] of
    the body when there is one (a non-empty string), the generic text
    otherwise.  Without a response but with a request it returns 503, and
    with neither 500. *)
Theorem handleError_three_outcomes (error : JsError) :
  (forall response,
     error_response error = Some response ->
     (res_data response = NullBody -> handleError error = Throw TypeError) /\
     (forall body_message,
        res_data response = Body body_message ->
        exists r,
          handleError error = Return r /\
          status r = res_status response /\
          (forall m, body_message = Some m -> m <> [] -> message r = m) /\
          (truthy body_message = false -> message r = generic_message))) /\
  (error_response error = None -> error_request error = true ->
     handleError error
     = Return {| status := 503; message := no_response_message |}) /\
  (error_response error = None -> error_request error = false ->
     handleError error
     = Return {| status := 500; message := config_message |}).
Proof.
  unfold handleError. split; [|split].
  - intros response H. rewrite H. split.
    + intros ->. reflexivity.
    + intros body_message ->. eexists. split; [reflexivity|].
      cbn [status message]. split; [reflexivity|split].
      * intros m -> Hne. destruct m; [contradiction|reflexivity].
      * intros Hno.
        destruct body_message as [[|c m]|];
          [reflexivity|discriminate|reflexivity].
  - intros H H0. rewrite H, H0. reflexivity.
  - intros H H0. rewrite H, H0. reflexivity.
Qed.

(** What [handleError] returns has a message to show, and it throws on a
    null body only. *)
Lemma handleError_message error r :
  handleError error = Return r -> message r <> [].
Proof.
  unfold handleError.
  destruct (error_response error) as [response|].
  - destruct (res_data response) as [|[[|c m]|]]; [discriminate| | |];
      intros [= <-]; discriminate.
  - destruct (error_request error); intros [= <-]; discriminate.
Qed.

Lemma handleError_throws error e :
  handleError error = Throw e ->
  e = TypeError /\
  exists response,
    error_response error = Some response /\ res_data response = NullBody.
Proof.
  unfold handleError.
  destruct (error_response error) as [response|].
  - destruct (res_data response) as [|m] eqn:Hdata; [|discriminate].
    intros [= <-]. split; [reflexivity|]. exists response. split;
      [reflexivity|exact Hdata].
  - destruct (error_request error); discriminate.
Qed.

(** What a [catch] that throws [handleError(error)] throws. *)
Lemma handled_cases error :
  (exists r, handleError error = Return r /\ handled error = Rejection r /\
             message r <> []) \/
  (handled error = TypeError /\
   exists response,
     error_response error = Some response /\ res_data response = NullBody).
Proof.
  unfold handled.
  destruct (handleError error) as [r|e] eqn:H.
  - left. exists r. split; [reflexivity|]. split; [reflexivity|].
    apply (handleError_message _ _ H).
  - right. destruct (handleError_throws _ _ H) as [-> Hnull]. split;
      [reflexivity|exact Hnull].
Qed.

(** ** The cached user *)

Lemma getCurrentUser_run w :
  getCurrentUser w
  = if fails_next w then
      (Return JNull,
       record_event (ConsoleError getCurrentUser_text StorageError)
         (called (AsyncGetItem (u16 "user")) w))
    else
      match async_store w !! u16 "user" with
      | Some ((_ :: _) as text) =>
          match JSON.parse text with
          | Some v => (Return v, called (AsyncGetItem (u16 "user")) w)
          | None =>
              (Return JNull,
               record_event (ConsoleError getCurrentUser_text SyntaxError)
                 (called (AsyncGetItem (u16 "user")) w))
          end
      | _ => (Return JNull, called (AsyncGetItem (u16 "user")) w)
      end.
Proof.
  unfold getCurrentUser, try_catch, bind. rewrite getItem_run.
  destruct (fails_next w); [reflexivity|].
  destruct (async_store w !! u16 "user") as [[|c text]|]; try reflexivity.
  destruct (JSON.parse (c :: text)); reflexivity.
Qed.

Lemma isAuthenticated_run w :
  isAuthenticated w
  = (if fails_next w then Throw StorageError
     else Return (truthy (async_store w !! u16 "token")),
     called (AsyncGetItem (u16 "token")) w).
Proof.
  unfold isAuthenticated, bind. rewrite getItem_run.
  destruct (fails_next w); reflexivity.
Qed.

(** C7.  [getCurrentUser] always resolves and never rejects.  It resolves
    to [null] when AsyncStorage rejects the read and when the text it read
    is not JSON, and it leaves both storages as they were. *)
Theorem getCurrentUser_never_throws (w : World) :
  (exists v, fst (getCurrentUser w) = Return v) /\
  (forall e, fst (getCurrentUser w) <> Throw e) /\
  (fails_next w = true -> fst (getCurrentUser w) = Return JNull) /\
  (forall text,
     fails_next w = false ->
     async_store w !! u16 "user" = Some text ->
     JSON.parse text = None ->
     fst (getCurrentUser w) = Return JNull) /\
  async_store (snd (getCurrentUser w)) = async_store w /\
  local_store (snd (getCurrentUser w)) = local_store w.
Proof.
  rewrite getCurrentUser_run.
  destruct (fails_next w) eqn:Hf.
  - repeat split; eauto; discriminate.
  - destruct (async_store w !! u16 "user") as [[|c text]|] eqn:Hu.
    + repeat split; eauto; discriminate.
    + destruct (JSON.parse (c :: text)) as [v|] eqn:Hp.
      * repeat split; eauto; try discriminate.
        intros text' _ Heq Hnone. congruence.
      * repeat split; eauto; discriminate.
    + repeat split; eauto; discriminate.
Qed.

(** C8.  A profile written with [JSON.stringify] reads back with
    [JSON.parse] as the object with the same [id], [email] and [fullName]
    and the same [phone], present or absent; through the storage,
    [setItem('user', JSON.stringify(u))] followed by [getCurrentUser()]
    gives that object whenever AsyncStorage serves both calls. *)
Theorem user_round_trip (u : User) (w : World) :
  JSON.parse (JSON_stringify u) = Some (user_value u) /\
  as_user (user_value u) = Some u /\
  (fails_next w = false ->
   fails_next (snd (AsyncStorage.setItem (u16 "user") (JSON_stringify u) w))
   = false ->
   fst (AsyncStorage.setItem (u16 "user") (JSON_stringify u) w) = Return tt /\
   fst (getCurrentUser
          (snd (AsyncStorage.setItem (u16 "user") (JSON_stringify u) w)))
   = Return (user_value u)).
Proof.
  split; [apply parse_stringify_user|].
  split; [apply as_user_value|].
  rewrite setItem_run. intros Hf. rewrite Hf. cbn [fst snd]. intros Hf'.
  split; [reflexivity|].
  rewrite getCurrentUser_run, Hf'. simpl_world.
  rewrite lookup_insert_eq.
  destruct (JSON_stringify u) as [|c text] eqn:Htext; [discriminate|].
  rewrite <- Htext, parse_stringify_user. reflexivity.
Qed.

(** ** The auth service *)

Lemma outgoing_fields store config :
  cfg_method (outgoing store config) = cfg_method config /\
  cfg_url (outgoing store config) = cfg_url config /\
  cfg_data (outgoing store config) = cfg_data config.
Proof.
  unfold outgoing.
  destruct (store !! u16 "token") as [[|c t]|]; repeat split; reflexivity.
Qed.

Lemma sent_requests_read f c : sent_requests [token_read f; Sent c] = [c].
Proof. destruct f; reflexivity. Qed.

(** A request that resolves: the world it leaves. *)
Lemma request_returns f B (net : Config -> Reply B) config w r w' :
  request (axios_of f) net config w = (Return r, w') ->
  let c := outgoing (interceptor_store f w) config in
  net c = Fulfilled r /\
  async_store w' = async_store w /\
  local_store w' = local_store w /\
  trace w' = trace w ++ [token_read f; Sent c].
Proof.
  destruct f; cbn [axios_of interceptor_store token_read].
  - rewrite request_natvived. cbn zeta.
    destruct (net _) as [r0|response q] eqn:Hnet; [|discriminate].
    intros H. injection H as Hr Hw. subst r0 w'. simpl_world.
    rewrite <- app_assoc. repeat split; reflexivity.
  - rewrite request_native. cbn zeta.
    destruct (fails_next w); [discriminate|].
    destruct (net _) as [r0|response q] eqn:Hnet.
    + intros H. injection H as Hr Hw. subst r0 w'. simpl_world.
      rewrite <- app_assoc. repeat split; reflexivity.
    + destruct (is_401 _); [destruct (fails_next (record_event _ _))|];
        discriminate.
Qed.

(** A request that rejects: what it can have done to AsyncStorage. *)
Lemma request_throws f B (net : Config -> Reply B) config w e w' :
  request (axios_of f) net config w = (Throw e, w') ->
  async_store w' !! u16 "user" = async_store w !! u16 "user" /\
  (is_401 e = false -> async_store w' = async_store w) /\
  (is_401 e = true ->
   interceptor_store f w' = delete (u16 "token") (interceptor_store f w)).
Proof.
  destruct f; cbn [axios_of interceptor_store].
  - rewrite request_natvived. cbn zeta.
    destruct (net _) as [r0|response q] eqn:Hnet; [discriminate|].
    intros H. injection H as He Hw. subst e w'.
    destruct (is_401 _) eqn:H401; simpl_world;
      repeat split; intros; try reflexivity; discriminate.
  - rewrite request_native. cbn zeta.
    destruct (fails_next w).
    + intros H. injection H as He Hw. subst e w'. simpl_world.
      repeat split; intros; try reflexivity; discriminate.
    + destruct (net _) as [r0|response q] eqn:Hnet; [discriminate|].
      destruct (is_401 _) eqn:H401.
      * destruct (fails_next (record_event _ _));
          intros H; injection H as He Hw; subst e w'; simpl_world.
        -- repeat split; intros; try reflexivity; discriminate.
        -- rewrite H401. split; [apply lookup_delete_ne; discriminate|].
           split; intros; [discriminate|reflexivity].
      * intros H; injection H as He Hw; subst e w'. simpl_world.
        rewrite H401. repeat split; intros; try reflexivity; discriminate.
Qed.

(** [login], step by step. *)
Lemma login_run instance credentials net w :
  login instance credentials net w
  = match post instance (u16 "/auth/login")
            (Some (credentials_value credentials)) net w with
    | (Return response, w1) =>
        match token (res_data response) with
        | Some ((_ :: _) as t) =>
            let e1 := AsyncSetItem (u16 "token") t in
            let e2 := AsyncSetItem (u16 "user")
                        (JSON_stringify (user (res_data response))) in
            if fails_next w1 then
              (Throw (handled StorageError), called e1 w1)
            else
              let w2 :=
                set_async_store (<[ u16 "token" := t ]> (async_store w1))
                  (called e1 w1) in
              if fails_next w2 then
                (Throw (handled StorageError), called e2 w2)
              else
                (Return (res_data response),
                 set_async_store
                   (<[ u16 "user" :=
                         JSON_stringify (user (res_data response)) ]>
                      (async_store w2))
                   (called e2 w2))
        | _ => (Return (res_data response), w1)
        end
    | (Throw error, w1) => (Throw (handled error), w1)
    end.
Proof.
  unfold login, try_catch, bind.
  destruct (post _ _ _ _ w) as [[response|error] w1]; [|reflexivity].
  destruct (token (res_data response)) as [[|c t]|]; try reflexivity.
  rewrite setItem_run. cbn zeta.
  destruct (fails_next w1); [reflexivity|].
  rewrite setItem_run.
  destruct (fails_next _); reflexivity.
Qed.

(** C2.  A [login] that resolves to a body with a token has sent one
    request, to [/auth/login], and resolves to the body of its response.
    Its last two calls wrote the token and the serialized user of that
    body to AsyncStorage, which holds them when the caller gets the result.
    From there, as long as AsyncStorage serves the read, [isAuthenticated()]
    resolves to [true] and [getCurrentUser()] to the user of the response. *)
Theorem login_success_persists_session
    (f : source_file) (credentials : LoginCredentials)
    (net : Config -> Reply AuthResponse) (w w' : World) (body : AuthResponse) :
  login (axios_of f) credentials net w = (Return body, w') ->
  truthy (token body) = true ->
  (exists c st,
     sent_requests (trace w') = sent_requests (trace w) ++ [c] /\
     cfg_method c = POST /\ cfg_url c = u16 "/auth/login" /\
     net c = Fulfilled {| res_status := st; res_data := body |}) /\
  (exists t before,
     token body = Some t /\
     trace w'
     = before ++ [AsyncSetItem (u16 "token") t;
                  AsyncSetItem (u16 "user") (JSON_stringify (user body))]) /\
  async_store w' !! u16 "token" = token body /\
  async_store w' !! u16 "user" = Some (JSON_stringify (user body)) /\
  (fails_next w' = false ->
   fst (isAuthenticated w') = Return true /\
   fst (getCurrentUser w') = Return (user_value (user body))).
Proof.
  intros Hrun Htok. rewrite login_run in Hrun. unfold post in Hrun.
  destruct (request _ _ _ w) as [[response|error] w1] eqn:Hreq; [|discriminate].
  apply request_returns in Hreq. cbn zeta in Hreq.
  destruct Hreq as (Hnet & Hasync & Hlocal & Htrace).
  destruct (token (res_data response)) as [[|c t]|] eqn:Ht.
  - injection Hrun as Hb Hw. subst body. rewrite Ht in Htok. discriminate.
  - cbn zeta in Hrun.
    destruct (fails_next w1); [discriminate|].
    destruct (fails_next (set_async_store _ _)); [discriminate|].
    injection Hrun as Hb Hw. subst body w'. simpl_world.
    split.
    { eexists _, (res_status response). rewrite Htrace.
      rewrite !sent_requests_app, sent_requests_read. cbn [sent_requests].
      rewrite !app_nil_r.
      split; [reflexivity|].
      destruct (outgoing_fields (interceptor_store f w)
                  {| cfg_method := POST; cfg_url := u16 "/auth/login";
                     cfg_headers := default_headers;
                     cfg_data := Some (credentials_value credentials) |})
        as (Hm & Hu & _).
      split; [exact Hm|]. split; [exact Hu|].
      rewrite Hnet. destruct response; reflexivity. }
    split.
    { exists (c :: t), (trace w1). rewrite Ht, <- app_assoc.
      split; reflexivity. }
    split.
    { rewrite Ht, lookup_insert_ne by discriminate. apply lookup_insert_eq. }
    split.
    { apply lookup_insert_eq. }
    intros Hserved.
    rewrite isAuthenticated_run, getCurrentUser_run, Hserved. simpl_world.
    rewrite lookup_insert_ne by discriminate.
    rewrite !lookup_insert_eq. split; [reflexivity|].
    destruct (JSON_stringify (user (res_data response)))
      as [|c0 text] eqn:Htext; [discriminate|].
    rewrite <- Htext, parse_stringify_user. reflexivity.
  - injection Hrun as Hb Hw. subst body. rewrite Ht in Htok. discriminate.
Qed.

(** A request through the instance of [natvived.js] leaves AsyncStorage
    alone, however it ends. *)
Lemma request_natvived_async B (net : Config -> Reply B) config w :
  async_store (snd (request NatvivedJs.axiosInstance net config w))
  = async_store w.
Proof.
  rewrite request_natvived. cbn zeta.
  destruct (net _) as [r|response q]; [|destruct (is_401 _)]; reflexivity.
Qed.

(** C4, as the code has it.  When the request of a [login] rejects, the
    call rejects with what [handleError] made of the error, the normalized
    error whenever [handleError] returned one, and AsyncStorage still
    holds the user it held.  In [natvived.js] it holds the token as well,
    in every case.  In [native.en.ts] it holds the token as well unless
    the error is a 401 response: then the response interceptor has removed
    the token, and nothing else, as it does for every request. *)
Theorem failed_login_keeps_user
    (f : source_file) (credentials : LoginCredentials)
    (net : Config -> Reply AuthResponse) (w w1 : World) (error : JsError) :
  post (axios_of f) (u16 "/auth/login")
    (Some (credentials_value credentials)) net w = (Throw error, w1) ->
  login (axios_of f) credentials net w = (Throw (handled error), w1) /\
  (forall r, handleError error = Return r -> handled error = Rejection r) /\
  async_store w1 !! u16 "user" = async_store w !! u16 "user" /\
  (f = natvived_js -> async_store w1 = async_store w) /\
  (is_401 error = false -> async_store w1 = async_store w) /\
  (f = native_en_ts -> is_401 error = true ->
   async_store w1 = delete (u16 "token") (async_store w)).
Proof.
  intros Hpost. split; [rewrite login_run, Hpost; reflexivity|].
  split; [intros r Hr; unfold handled; rewrite Hr; reflexivity|].
  unfold post in Hpost.
  destruct (request_throws _ _ _ _ _ _ _ Hpost) as (Huser & Hother & H401).
  split; [exact Huser|]. split; [|split; [exact Hother|]].
  - intros ->. cbn [axios_of] in Hpost.
    pose proof (request_natvived_async AuthResponse net
                  {| cfg_method := POST; cfg_url := u16 "/auth/login";
                     cfg_headers := default_headers;
                     cfg_data := Some (credentials_value credentials) |} w)
      as Hasync.
    rewrite Hpost in Hasync. exact Hasync.
  - intros -> Hyes. exact (H401 Hyes).
Qed.

(** C9.  A [register] that resolves has read the token and sent one
    request, to [/auth/register], with the registration data, and did
    nothing else: both storages are as they were, and the result is the
    body of the response. *)
Theorem register_leaves_session
    (f : source_file) (userData : RegisterData)
    (net : Config -> Reply AuthResponse) (w w' : World) (body : AuthResponse) :
  register (axios_of f) userData net w = (Return body, w') ->
  async_store w' = async_store w /\
  local_store w' = local_store w /\
  exists c st,
    trace w' = trace w ++ [token_read f; Sent c] /\
    cfg_method c = POST /\ cfg_url c = u16 "/auth/register" /\
    cfg_data c = Some (register_value userData) /\
    net c = Fulfilled {| res_status := st; res_data := body |}.
Proof.
  unfold register, try_catch, bind, post, ret.
  destruct (request _ _ _ w) as [[response|error] w1] eqn:Hreq; [|discriminate].
  intros H. injection H as Hb Hw. subst body w1.
  apply request_returns in Hreq. cbn zeta in Hreq.
  destruct Hreq as (Hnet & Hasync & Hlocal & Htrace).
  split; [exact Hasync|]. split; [exact Hlocal|].
  eexists _, (res_status response). split; [exact Htrace|].
  destruct (outgoing_fields (interceptor_store f w)
              {| cfg_method := POST; cfg_url := u16 "/auth/register";
                 cfg_headers := default_headers;
                 cfg_data := Some (register_value userData) |})
    as (Hm & Hu & Hd).
  split; [exact Hm|]. split; [exact Hu|]. split; [exact Hd|].
  rewrite Hnet. destruct response; reflexivity.
Qed.

(** C10.  A [login] that resolves to a body without a token (none, or the
    empty string) has read the token and sent one request and did nothing
    else: it wrote nothing, both storages are as they were, and the result
    is the body of the response.  So [isAuthenticated()] and
    [getCurrentUser()] answer as they would have before the call; where no
    token was stored, [isAuthenticated()] is still [false]. *)
Theorem login_without_token_writes_nothing
    (f : source_file) (credentials : LoginCredentials)
    (net : Config -> Reply AuthResponse) (w w' : World) (body : AuthResponse) :
  login (axios_of f) credentials net w = (Return body, w') ->
  truthy (token body) = false ->
  (exists c st,
     trace w' = trace w ++ [token_read f; Sent c] /\
     cfg_method c = POST /\ cfg_url c = u16 "/auth/login" /\
     net c = Fulfilled {| res_status := st; res_data := body |}) /\
  async_store w' = async_store w /\
  local_store w' = local_store w /\
  (fails_next w' = false ->
   fst (isAuthenticated w') = Return (truthy (async_store w !! u16 "token")) /\
   (truthy (async_store w !! u16 "token") = false ->
    fst (isAuthenticated w') = Return false)) /\
  (fails_next w' = fails_next w ->
   fst (isAuthenticated w') = fst (isAuthenticated w) /\
   fst (getCurrentUser w') = fst (getCurrentUser w)).
Proof.
  intros Hrun Htok. rewrite login_run in Hrun. unfold post in Hrun.
  destruct (request _ _ _ w) as [[response|error] w1] eqn:Hreq; [|discriminate].
  apply request_returns in Hreq. cbn zeta in Hreq.
  destruct Hreq as (Hnet & Hasync & Hlocal & Htrace).
  assert (body = res_data response /\ w' = w1) as [-> ->].
  { destruct (token (res_data response)) as [[|c t]|] eqn:Ht.
    - injection Hrun as <- <-. split; reflexivity.
    - cbn zeta in Hrun.
      destruct (fails_next w1); [discriminate|].
      destruct (fails_next (set_async_store _ _)); [discriminate|].
      injection Hrun as Hb Hw. subst body. rewrite Ht in Htok. discriminate.
    - injection Hrun as <- <-. split; reflexivity. }
  split.
  { eexists _, (res_status response). split; [exact Htrace|].
    destruct (outgoing_fields (interceptor_store f w)
                {| cfg_method := POST; cfg_url := u16 "/auth/login";
                   cfg_headers := default_headers;
                   cfg_data := Some (credentials_value credentials) |})
      as (Hm & Hu & _).
    split; [exact Hm|]. split; [exact Hu|].
    rewrite Hnet. destruct response; reflexivity. }
  split; [exact Hasync|]. split; [exact Hlocal|].
  split.
  - intros Hserved. rewrite isAuthenticated_run, Hserved, Hasync. cbn [fst].
    split; [reflexivity|]. intros ->. reflexivity.
  - intros Hsame.
    rewrite !isAuthenticated_run, !getCurrentUser_run, Hsame, Hasync.
    split.
    + reflexivity.
    + destruct (fails_next w); [reflexivity|].
      destruct (async_store w !! u16 "user") as [[|c t]|]; try reflexivity.
      destruct (JSON.parse (c :: t)); reflexivity.
Qed.

Lemma fails_next_served w : faults w = [] -> fails_next w = false.
Proof. unfold fails_next. intros ->. reflexivity. Qed.

(** A request while AsyncStorage serves every call: it is sent, once, and
    settles as the network decides. *)
Lemma request_served f B (net : Config -> Reply B) config w :
  faults w = [] ->
  let c := outgoing (interceptor_store f w) config in
  exists w' events,
    request (axios_of f) net config w
    = (match net c with
       | Fulfilled r => Return r
       | Failed response q => Throw (AxiosError response q)
       end, w') /\
    trace w' = trace w ++ events /\
    sent_requests events = [c] /\
    faults w' = [] /\
    (forall k, async_store w !! k = None -> async_store w' !! k = None).
Proof.
  intros Hfaults. pose proof (fails_next_served w Hfaults) as Hserved.
  destruct f; cbn [axios_of interceptor_store]; cbn zeta.
  - rewrite request_natvived. cbn zeta.
    destruct (net _) as [r|response q]; [|destruct (is_401 _)];
      eexists _, _; (split; [reflexivity|]); simpl_world;
      rewrite <- ?app_assoc; (split; [reflexivity|]);
      (split; [reflexivity|]); (split; [assumption|]); auto.
  - rewrite request_native, Hserved. cbn zeta.
    destruct (net _) as [r|response q].
    + eexists _, _; (split; [reflexivity|]); simpl_world;
      rewrite <- ?app_assoc; (split; [reflexivity|]);
      (split; [reflexivity|]); rewrite Hfaults; auto.
    + destruct (is_401 _).
      * replace (fails_next (record_event _ _)) with false
          by (unfold fails_next; simpl_world; rewrite Hfaults; reflexivity).
        eexists _, _; (split; [reflexivity|]); simpl_world;
        rewrite <- ?app_assoc; (split; [reflexivity|]);
        (split; [reflexivity|]); rewrite Hfaults.
        split; [reflexivity|].
        intros k Hk. rewrite lookup_delete. case_decide; [reflexivity|exact Hk].
      * eexists _, _; (split; [reflexivity|]); simpl_world;
        rewrite <- ?app_assoc; (split; [reflexivity|]);
        (split; [reflexivity|]); rewrite Hfaults; auto.
Qed.

(** [logout], step by step. *)
Lemma logout_run instance net w :
  logout instance net w
  = let failed error w' :=
      (Throw (handled error),
       record_event (ConsoleError logout_text error) w') in
    let e1 := AsyncRemoveItem (u16 "token") in
    let e2 := AsyncRemoveItem (u16 "user") in
    if fails_next w then failed StorageError (called e1 w)
    else
      let w1 := set_async_store (delete (u16 "token") (async_store w))
                  (called e1 w) in
      if fails_next w1 then failed StorageError (called e2 w1)
      else
        let w2 := set_async_store (delete (u16 "user") (async_store w1))
                    (called e2 w1) in
        match post instance (u16 "/auth/logout") None net w2 with
        | (Return _, w3) => (Return tt, w3)
        | (Throw error, w3) => failed error w3
        end.
Proof.
  unfold logout, try_catch, bind, console_error, emit, throw, ret.
  rewrite removeItem_run. cbn zeta.
  destruct (fails_next w); [reflexivity|].
  rewrite removeItem_run.
  destruct (fails_next _); [reflexivity|].
  destruct (post _ _ _ _ _) as [[r|error] w3]; reflexivity.
Qed.

(** C3.  While AsyncStorage serves its calls, [logout] first removes the
    token and the user, and only then sends its one request, to
    [/auth/logout].  Whatever the network answers, AsyncStorage holds
    neither token nor user when the call settles and [isAuthenticated()]
    resolves to [false]; and when the request fails, [logout] rejects, with
    what [handleError] makes of the failure: the normalized error, or the
    TypeError it throws on a null body. *)
Theorem logout_clears_session_first
    (f : source_file) (net : Config -> Reply jsval) (w : World) :
  faults w = [] ->
  exists out w' c rest,
    logout (axios_of f) net w = (out, w') /\
    trace w' = trace w ++ AsyncRemoveItem (u16 "token")
                       :: AsyncRemoveItem (u16 "user") :: rest /\
    sent_requests rest = [c] /\
    cfg_method c = POST /\ cfg_url c = u16 "/auth/logout" /\
    async_store w' !! u16 "token" = None /\
    async_store w' !! u16 "user" = None /\
    fst (isAuthenticated w') = Return false /\
    out = match net c with
          | Fulfilled _ => Return tt
          | Failed response q =>
              Throw (handled (AxiosError response q))
          end.
Proof.
  intros Hfaults. rewrite logout_run. cbn zeta.
  rewrite (fails_next_served w Hfaults).
  set (w1 := set_async_store _ (called (AsyncRemoveItem (u16 "token")) w)).
  assert (faults w1 = []) as Hfaults1
    by (unfold w1; simpl_world; rewrite Hfaults; reflexivity).
  rewrite (fails_next_served w1 Hfaults1).
  set (w2 := set_async_store _ (called (AsyncRemoveItem (u16 "user")) w1)).
  assert (faults w2 = []) as Hfaults2
    by (unfold w2; simpl_world; rewrite Hfaults1; reflexivity).
  set (config := {| cfg_method := POST; cfg_url := u16 "/auth/logout";
                    cfg_headers := default_headers; cfg_data := None |}).
  destruct (request_served f jsval net config w2 Hfaults2)
    as (w3 & events & Hreq & Htrace & Hsent & Hfaults3 & Hnone).
  cbn zeta in Hreq. unfold post. fold config. rewrite Hreq.
  destruct (outgoing_fields (interceptor_store f w2) config) as (Hm & Hu & _).
  assert (async_store w2 !! u16 "token" = None) as Htoken.
  { unfold w2, w1. simpl_world.
    rewrite lookup_delete_ne by discriminate. apply lookup_delete_eq. }
  assert (async_store w2 !! u16 "user" = None) as Huser.
  { unfold w2. simpl_world. apply lookup_delete_eq. }
  assert (trace w2 = trace w ++ [AsyncRemoveItem (u16 "token");
                                 AsyncRemoveItem (u16 "user")]) as Htrace2.
  { unfold w2, w1. simpl_world. rewrite <- app_assoc. reflexivity. }
  destruct (net (outgoing (interceptor_store f w2) config))
    as [r|response q] eqn:Hnet.
  - exists (Return tt), w3, (outgoing (interceptor_store f w2) config), events.
    split; [reflexivity|].
    split; [rewrite Htrace, Htrace2, <- app_assoc; reflexivity|].
    split; [exact Hsent|]. split; [exact Hm|]. split; [exact Hu|].
    split; [apply Hnone, Htoken|]. split; [apply Hnone, Huser|].
    split; [|rewrite Hnet; reflexivity].
    rewrite isAuthenticated_run, (fails_next_served w3 Hfaults3).
    cbn [fst]. rewrite (Hnone _ Htoken). reflexivity.
  - eexists _, _, (outgoing (interceptor_store f w2) config),
      (events ++ [ConsoleError logout_text (AxiosError response q)]).
    split; [reflexivity|]. simpl_world.
    split; [rewrite Htrace, Htrace2, <- !app_assoc; reflexivity|].
    split; [rewrite sent_requests_app, Hsent; reflexivity|].
    split; [exact Hm|]. split; [exact Hu|].
    split; [apply Hnone, Htoken|]. split; [apply Hnone, Huser|].
    split; [|rewrite Hnet; reflexivity].
    rewrite isAuthenticated_run. unfold fails_next at 1. simpl_world.
    rewrite Hfaults3. cbn [hd fst]. rewrite (Hnone _ Htoken). reflexivity.
Qed.

(** ** The theorems at work on the scenarios *)

Ltac by_evaluation := intros; vm_compute; reflexivity.

(** X27 on [GET /products] once alice has signed in ([native.en.ts]). *)
Lemma request_interceptor_witness :
  (native_en_ts = native_en_ts -> fails_next signed_in = false) /\
  (exists config' w',
     request_onFulfilled (axios_of native_en_ts) products_request signed_in
     = (Return config', w') /\
     async_store w' = async_store signed_in /\
     local_store w' = local_store signed_in /\
     trace w' = trace signed_in ++ [token_read native_en_ts] /\
     (forall t,
        interceptor_store native_en_ts signed_in !! u16 "token" = Some t ->
        t <> [] ->
        config' = set_Authorization products_request (u16 "Bearer " ++ t) /\
        cfg_headers config' !! u16 "Authorization"
        = Some (u16 "Bearer " ++ t) /\
        (forall h, h <> u16 "Authorization" ->
           cfg_headers config' !! h = cfg_headers products_request !! h) /\
        cfg_method config' = cfg_method products_request /\
        cfg_url config' = cfg_url products_request /\
        cfg_data config' = cfg_data products_request) /\
     (truthy (interceptor_store native_en_ts signed_in !! u16 "token")
      = false ->
      config' = products_request) /\
     (forall B (net : Config -> Reply B),
        sent_requests
          (trace (snd (request (axios_of native_en_ts) net products_request
                         signed_in)))
        = sent_requests (trace signed_in) ++ [config'])).
Proof.
  assert (native_en_ts = native_en_ts -> fails_next signed_in = false) as H0
    by by_evaluation.
  split; [exact H0|].
  exact (request_interceptor_attaches_bearer_token
           native_en_ts products_request signed_in H0).
Defined.

(** X26 on [GET /products] answered with 401 once alice has signed in
    ([native.en.ts]). *)
Lemma unauthorized_response_witness :
  (request_onFulfilled (axios_of native_en_ts) products_request signed_in
   = (Return authorized_products_request, after_token_read) /\
   @unauthorized jsval authorized_products_request
   = Failed (Some unauthorized_response) true /\
   res_status unauthorized_response = 401%Z /\
   (native_en_ts = native_en_ts -> fails_next after_token_read = false)) /\
  (exists w',
     request (axios_of native_en_ts) (@unauthorized jsval) products_request
       signed_in
     = (Throw (AxiosError (Some unauthorized_response) true), w') /\
     interceptor_store native_en_ts w'
     = delete (u16 "token") (interceptor_store native_en_ts signed_in) /\
     interceptor_store native_en_ts w' !! u16 "token" = None /\
     async_store w' !! u16 "user" = async_store signed_in !! u16 "user" /\
     sent_requests (trace w')
     = sent_requests (trace signed_in) ++ [authorized_products_request] /\
     (forall B2 (net2 : Config -> Reply B2) config2,
        anonymous config2 ->
        exists new,
          sent_requests
            (trace (snd (request (axios_of native_en_ts) net2 config2 w')))
          = sent_requests (trace w') ++ new /\
          Forall anonymous new)).
Proof.
  assert (request_onFulfilled (axios_of native_en_ts) products_request signed_in
          = (Return authorized_products_request, after_token_read)) as H0
    by by_evaluation.
  assert (@unauthorized jsval authorized_products_request
          = Failed (Some unauthorized_response) true) as H1
    by by_evaluation.
  assert (res_status unauthorized_response = 401%Z) as H2 by by_evaluation.
  assert (native_en_ts = native_en_ts -> fails_next after_token_read = false)
    as H3 by by_evaluation.
  split; [repeat split; assumption|].
  exact (unauthorized_response_clears_token
           native_en_ts jsval (@unauthorized jsval) products_request
           authorized_products_request signed_in after_token_read
           unauthorized_response true H0 H1 H2 H3).
Defined.

(** C2 on the login of the specification: a fresh process, and a server
    that answers with token [T1] and alice. *)
Lemma login_success_witness :
  (login (axios_of native_en_ts) alice_credentials (accepts T1_body) fresh_world
   = (Return T1_body, after_login) /\
   truthy (token T1_body) = true) /\
  ((exists c st,
      sent_requests (trace after_login)
      = sent_requests (trace fresh_world) ++ [c] /\
      cfg_method c = POST /\ cfg_url c = u16 "/auth/login" /\
      accepts T1_body c
      = Fulfilled {| res_status := st; res_data := T1_body |}) /\
   (exists t before,
      token T1_body = Some t /\
      trace after_login
      = before
        ++ [AsyncSetItem (u16 "token") t;
            AsyncSetItem (u16 "user") (JSON_stringify (user T1_body))]) /\
   async_store after_login !! u16 "token" = token T1_body /\
   async_store after_login !! u16 "user"
   = Some (JSON_stringify (user T1_body)) /\
   (fails_next after_login = false ->
    fst (isAuthenticated after_login) = Return true /\
    fst (getCurrentUser after_login) = Return (user_value (user T1_body)))).
Proof.
  assert (login (axios_of native_en_ts) alice_credentials (accepts T1_body)
            fresh_world
          = (Return T1_body, after_login)) as H0 by by_evaluation.
  assert (truthy (token T1_body) = true) as H1 by by_evaluation.
  split; [split; assumption|].
  exact (login_success_persists_session
           native_en_ts alice_credentials (accepts T1_body) fresh_world
           after_login T1_body H0 H1).
Defined.

(** C4, as the code has it, on a login refused with 401 where alice is
    signed in. *)
Lemma failed_login_witness :
  post (axios_of native_en_ts) (u16 "/auth/login")
    (Some (credentials_value alice_credentials)) (@unauthorized AuthResponse)
    signed_in
  = (Throw refusal, after_refused_login) /\
  (login (axios_of native_en_ts) alice_credentials unauthorized signed_in
   = (Throw (handled refusal), after_refused_login) /\
   (forall r,
      handleError refusal = Return r -> handled refusal = Rejection r) /\
   async_store after_refused_login !! u16 "user"
   = async_store signed_in !! u16 "user" /\
   (native_en_ts = natvived_js ->
    async_store after_refused_login = async_store signed_in) /\
   (is_401 refusal = false ->
    async_store after_refused_login = async_store signed_in) /\
   (native_en_ts = native_en_ts -> is_401 refusal = true ->
    async_store after_refused_login
    = delete (u16 "token") (async_store signed_in))).
Proof.
  assert (post (axios_of native_en_ts) (u16 "/auth/login")
            (Some (credentials_value alice_credentials))
            (@unauthorized AuthResponse) signed_in
          = (Throw refusal, after_refused_login)) as H0 by by_evaluation.
  split; [exact H0|].
  exact (failed_login_keeps_user
           native_en_ts alice_credentials unauthorized signed_in
           after_refused_login refusal H0).
Defined.

(** C9 on a registration from a fresh process. *)
Lemma register_witness :
  register (axios_of native_en_ts) alice_registration (accepts T1_body)
    fresh_world
  = (Return T1_body, after_register) /\
  (async_store after_register = async_store fresh_world /\
   local_store after_register = local_store fresh_world /\
   exists c st,
     trace after_register
     = trace fresh_world ++ [token_read native_en_ts; Sent c] /\
     cfg_method c = POST /\ cfg_url c = u16 "/auth/register" /\
     cfg_data c = Some (register_value alice_registration) /\
     accepts T1_body c = Fulfilled {| res_status := st; res_data := T1_body |}).
Proof.
  assert (register (axios_of native_en_ts) alice_registration (accepts T1_body)
            fresh_world
          = (Return T1_body, after_register)) as H0 by by_evaluation.
  split; [exact H0|].
  exact (register_leaves_session
           native_en_ts alice_registration (accepts T1_body) fresh_world
           after_register T1_body H0).
Defined.

(** C10 on a login from a fresh process that the server answers without a
    token. *)
Lemma login_without_token_witness :
  (login (axios_of native_en_ts) alice_credentials (accepts tokenless_body)
     fresh_world
   = (Return tokenless_body, after_tokenless_login) /\
   truthy (token tokenless_body) = false) /\
  ((exists c st,
      trace after_tokenless_login
      = trace fresh_world ++ [token_read native_en_ts; Sent c] /\
      cfg_method c = POST /\ cfg_url c = u16 "/auth/login" /\
      accepts tokenless_body c
      = Fulfilled {| res_status := st; res_data := tokenless_body |}) /\
   async_store after_tokenless_login = async_store fresh_world /\
   local_store after_tokenless_login = local_store fresh_world /\
   (fails_next after_tokenless_login = false ->
    fst (isAuthenticated after_tokenless_login)
    = Return (truthy (async_store fresh_world !! u16 "token")) /\
    (truthy (async_store fresh_world !! u16 "token") = false ->
     fst (isAuthenticated after_tokenless_login) = Return false)) /\
   (fails_next after_tokenless_login = fails_next fresh_world ->
    fst (isAuthenticated after_tokenless_login)
    = fst (isAuthenticated fresh_world) /\
    fst (getCurrentUser after_tokenless_login)
    = fst (getCurrentUser fresh_world))).
Proof.
  assert (login (axios_of native_en_ts) alice_credentials
            (accepts tokenless_body) fresh_world
          = (Return tokenless_body, after_tokenless_login)) as H0
    by by_evaluation.
  assert (truthy (token tokenless_body) = false) as H1 by by_evaluation.
  split; [split; assumption|].
  exact (login_without_token_writes_nothing
           native_en_ts alice_credentials (accepts tokenless_body) fresh_world
           after_tokenless_login tokenless_body H0 H1).
Defined.

(** C3 on a logout with the network down where alice is signed in. *)
Lemma logout_witness :
  faults signed_in = [] /\
  (exists out w' c rest,
     logout (axios_of native_en_ts) unreachable signed_in = (out, w') /\
     trace w' = trace signed_in ++ AsyncRemoveItem (u16 "token")
                                :: AsyncRemoveItem (u16 "user") :: rest /\
     sent_requests rest = [c] /\
     cfg_method c = POST /\ cfg_url c = u16 "/auth/logout" /\
     async_store w' !! u16 "token" = None /\
     async_store w' !! u16 "user" = None /\
     fst (isAuthenticated w') = Return false /\
     out = match @unreachable jsval c with
           | Fulfilled _ => Return tt
           | Failed response q =>
               Throw (handled (AxiosError response q))
           end).
Proof.
  assert (faults signed_in = []) as H0 by by_evaluation.
  split; [exact H0|].
  exact (logout_clears_session_first native_en_ts unreachable signed_in H0).
Defined.

(** ** Where the specification and the code part *)

(** C4 as the specification words it, that a failed login leaves the stored
    token and user unchanged, does not hold: alice is signed in with token
    [T1], a second [login] is refused with 401, and the response
    interceptor of [native.en.ts] has removed the token when [login]
    rejects. *)
Lemma failed_login_with_401_clears_token :
  fst (login NativeEnTs.axiosInstance alice_credentials unauthorized signed_in)
  = Throw (Rejection {| status := 401; message := u16 "Unauthorized" |}) /\
  async_store signed_in !! u16 "token" = Some (u16 "T1") /\
  async_store after_refused_login !! u16 "token" = None /\
  async_store after_refused_login <> async_store signed_in.
Proof.
  assert (async_store signed_in !! u16 "token" = Some (u16 "T1")) as Hbefore
    by (vm_compute; reflexivity).
  assert (async_store after_refused_login !! u16 "token" = None) as Hafter
    by (vm_compute; reflexivity).
  split; [vm_compute; reflexivity|].
  split; [exact Hbefore|]. split; [exact Hafter|].
  intros Heq. rewrite Heq, Hbefore in Hafter. discriminate.
Qed.

(** ** Where the code falls short of the specification *)



(** C6 does not hold of an error whose response has the body [null]: the
    server answers 500 with the JSON text [null], [handleError] reads
    [message] of that body and throws a TypeError where the generic
    message was to be, and [login] rejects with the TypeError.  A body
    without a [message] gets the generic message. *)
Lemma handleError_throws_on_null_body :
  handleError (AxiosError (Some null_response) true) = Throw TypeError /\
  fst (login NativeEnTs.axiosInstance alice_credentials null_error fresh_world)
  = Throw TypeError /\
  handleError
    (AxiosError (Some {| res_status := 500; res_data := Body None |}) true)
  = Return {| status := 500; message := generic_message |}.
Proof. repeat split; vm_compute; reflexivity. Qed.

(** ** Notes on the environment *)

(** When AsyncStorage rejects the removal of the token, [logout] rejects
    with status 500 before any request is made and the session stays. *)
Remark logout_when_storage_fails instance net w :
  fails_next w = true ->
  fst (logout instance net w)
  = Throw (Rejection {| status := 500; message := config_message |}) /\
  async_store (snd (logout instance net w)) = async_store w /\
  sent_requests (trace (snd (logout instance net w))) = sent_requests (trace w).
Proof.
  intros Hf. rewrite logout_run. cbn zeta. rewrite Hf. simpl_world.
  split; [reflexivity|]. split; [reflexivity|].
  rewrite !sent_requests_app. cbn [sent_requests]. rewrite !app_nil_r.
  reflexivity.
Qed.

(** When AsyncStorage rejects the removal in the response interceptor of
    [native.en.ts], the caller gets the storage error in place of the 401
    and the token stays. *)
Remark unauthorized_when_removal_fails
    B (net : Config -> Reply B) config w r q :
  fails_next w = false ->
  net (outgoing (async_store w) config) = Failed (Some r) q ->
  res_status r = 401%Z ->
  fails_next (called (AsyncGetItem (u16 "token")) w) = true ->
  fst (request NativeEnTs.axiosInstance net config w) = Throw StorageError /\
  async_store (snd (request NativeEnTs.axiosInstance net config w))
  = async_store w.
Proof.
  intros Hf Hnet Hstatus Hf'.
  rewrite request_native, Hf. cbn zeta.
  rewrite Hnet, (is_401_response r q Hstatus).
  replace (fails_next (record_event _ _)) with true by (symmetry; exact Hf').
  split; reflexivity.
Qed.

(** In [native.en.ts] the token is gone when the interceptor looks for
    it, so the request of [logout] itself goes out without an
    [Authorization] header. *)
Remark logout_request_is_anonymous (net : Config -> Reply jsval) (w : World) :
  faults w = [] ->
  sent_requests (trace (snd (logout NativeEnTs.axiosInstance net w)))
  = sent_requests (trace w)
    ++ [{| cfg_method := POST; cfg_url := u16 "/auth/logout";
           cfg_headers := default_headers; cfg_data := None |}].
Proof.
  intros Hfaults. rewrite logout_run. cbn zeta.
  rewrite (fails_next_served w Hfaults).
  set (w1 := set_async_store _ (called (AsyncRemoveItem (u16 "token")) w)).
  assert (faults w1 = []) as Hfaults1
    by (unfold w1; simpl_world; rewrite Hfaults; reflexivity).
  rewrite (fails_next_served w1 Hfaults1).
  set (w2 := set_async_store _ (called (AsyncRemoveItem (u16 "user")) w1)).
  assert (faults w2 = []) as Hfaults2
    by (unfold w2; simpl_world; rewrite Hfaults1; reflexivity).
  assert (async_store w2 !! u16 "token" = None) as Htoken.
  { unfold w2, w1. simpl_world.
    rewrite lookup_delete_ne by discriminate. apply lookup_delete_eq. }
  unfold post. rewrite request_native, (fails_next_served w2 Hfaults2).
  cbn zeta. rewrite (outgoing_absent (async_store w2))
    by (rewrite Htoken; reflexivity).
  assert (sent_requests (trace w2) = sent_requests (trace w)) as Hsent.
  { unfold w2, w1. simpl_world. rewrite !sent_requests_app.
    cbn [sent_requests]. rewrite !app_nil_r. reflexivity. }
  destruct (net _) as [r|response q];
    [|destruct (is_401 _); [destruct (fails_next (record_event _ _))|]];
    simpl_world; rewrite !sent_requests_app; cbn [sent_requests];
    rewrite ?app_nil_r; fold w1 w2; rewrite Hsent; reflexivity.
Qed.

(** A [login] whose request succeeded still rejects when AsyncStorage
    rejects the second write, and then the token is stored without the
    user. *)
Remark login_when_user_write_fails instance credentials net w response w1 t :
  post instance (u16 "/auth/login") (Some (credentials_value credentials))
    net w = (Return response, w1) ->
  token (res_data response) = Some t -> t <> [] ->
  faults w1 = [false; true] ->
  fst (login instance credentials net w)
  = Throw (Rejection {| status := 500; message := config_message |}) /\
  async_store (snd (login instance credentials net w))
  = <[ u16 "token" := t ]> (async_store w1).
Proof.
  intros Hpost Ht Hne Hfaults. rewrite login_run, Hpost, Ht.
  destruct t as [|c t]; [contradiction|]. cbn zeta.
  assert (fails_next w1 = false) as H1
    by (unfold fails_next; rewrite Hfaults; reflexivity).
  assert (forall s e, fails_next (set_async_store s (called e w1)) = true) as H2
    by (intros; unfold fails_next; simpl_world; rewrite Hfaults; reflexivity).
  rewrite H1, H2. split; reflexivity.
Qed.

(** With the two storages apart, the token [login] writes to AsyncStorage
    is the one the interceptor of [native.en.ts] attaches to the next
    request, and not one the interceptor of [natvived.js] finds in
    [localStorage]. *)
Example next_request_after_login :
  sent_requests
    (trace (snd (request NativeEnTs.axiosInstance (accepts JNull)
                   products_request after_login)))
  = [outgoing (async_store fresh_world)
       {| cfg_method := POST; cfg_url := u16 "/auth/login";
          cfg_headers := default_headers;
          cfg_data := Some (credentials_value alice_credentials) |};
     set_Authorization products_request (u16 "Bearer T1")] /\
  sent_requests
    (trace (snd (request NatvivedJs.axiosInstance (accepts JNull)
                   products_request
                   (snd (login NatvivedJs.axiosInstance alice_credentials
                           (accepts T1_body) fresh_world)))))
  = [outgoing (local_store fresh_world)
       {| cfg_method := POST; cfg_url := u16 "/auth/login";
          cfg_headers := default_headers;
          cfg_data := Some (credentials_value alice_credentials) |};
     products_request].
Proof. split; vm_compute; reflexivity. Qed.

(** ** The scenarios of the specification *)

(** Login with [{email:"a@b.com", password:"x"}] against a server that
    returns [{token:"T1", user:{id:"1",email:"a@b.com",fullName:"A"}}]:
    the storage holds ["T1"] and [getCurrentUser()] returns that user. *)
Example scenario_login :
  async_store after_login !! u16 "token" = Some (u16 "T1") /\
  fst (getCurrentUser after_login) = Return (user_value alice) /\
  as_user (user_value alice) = Some alice.
Proof. repeat split; vm_compute; reflexivity. Qed.

(** The text the storage holds for alice; [34] is the double quote. *)
Example scenario_stored_text :
  JSON_stringify alice
  = u16 "{" ++ [34] ++ u16 "id" ++ [34] ++ u16 ":" ++ [34] ++ u16 "1" ++ [34]
    ++ u16 "," ++ [34] ++ u16 "email" ++ [34] ++ u16 ":" ++ [34]
    ++ u16 "a@b.com" ++ [34] ++ u16 "," ++ [34] ++ u16 "fullName" ++ [34]
    ++ u16 ":" ++ [34] ++ u16 "A" ++ [34] ++ u16 "}".
Proof. vm_compute. reflexivity. Qed.

(** Any call that returns status 401: the token is cleared and the error
    reaches the caller of the auth service with status 401. *)
Example scenario_unauthorized :
  fst (login NativeEnTs.axiosInstance alice_credentials unauthorized signed_in)
  = Throw (Rejection {| status := 401; message := u16 "Unauthorized" |}) /\
  truthy (async_store after_refused_login !! u16 "token") = false /\
  fst (isAuthenticated after_refused_login) = Return false.
Proof. repeat split; vm_compute; reflexivity. Qed.

(** A call that throws with no response object is normalized to status
    503. *)
Example scenario_no_response :
  handleError (AxiosError None true)
  = Return {| status := 503; message := no_response_message |}.
Proof. reflexivity. Qed.

(** Escapes: a double quote, a line feed and a lone surrogate are written
    with a backslash and read back. *)
Example scenario_escapes :
  JSON.quote [97; 34; 10; 0xD800]
  = [34; 97; 92; 34; 92; 110; 92; 117; 100; 56; 48; 48; 34] /\
  JSON.parse (JSON.quote [97; 34; 10; 0xD800])
  = Some (JString [97; 34; 10; 0xD800]).
Proof. split; vm_compute; reflexivity. Qed.

(** * Histories of calls, the other services, the context and the screens *)

(** ** A logic of asynchronous computations *)

Lemma triple_ret {A} (P : World -> Prop) (a : A) Q E :
  (forall w, P w -> Q a w) -> triple P (ret a) Q E.
Proof. intros H w Hw. apply H, Hw. Qed.

Lemma triple_throw {A} (P : World -> Prop) e (Q : A -> World -> Prop) E :
  (forall w, P w -> E e w) -> triple P (throw e) Q E.
Proof. intros H w Hw. apply H, Hw. Qed.

Lemma triple_bind {A B} P (m : Promise A) (k : A -> Promise B) R Q E :
  triple P m R E -> (forall a, triple (R a) (k a) Q E) ->
  triple P (bind m k) Q E.
Proof.
  intros Hm Hk w Hw. unfold bind. specialize (Hm w Hw).
  destruct (m w) as [[a|e] w1]; [apply Hk, Hm|exact Hm].
Qed.

Lemma triple_try_catch {A} P (m : Promise A) h Q R E :
  triple P m Q R -> (forall e, triple (R e) (h e) Q E) ->
  triple P (try_catch m h) Q E.
Proof.
  intros Hm Hh w Hw. unfold try_catch. specialize (Hm w Hw).
  destruct (m w) as [[a|e] w1]; [exact Hm|apply Hh, Hm].
Qed.

Lemma triple_then {A B} P (m : Promise A) (f : A -> Promise B) g R S Q E :
  triple P m R S -> (forall a, triple (R a) (f a) Q E) ->
  (forall e, triple (S e) (g e) Q E) ->
  triple P (then_ m f g) Q E.
Proof.
  intros Hm Hf Hg w Hw. unfold then_. specialize (Hm w Hw).
  destruct (m w) as [[a|e] w1]; [apply Hf, Hm|apply Hg, Hm].
Qed.

Lemma keeps_ret {A} I (a : A) : keeps I (ret a).
Proof. apply triple_ret. auto. Qed.

Lemma keeps_throw {A} I e : keeps I (@throw A e).
Proof. apply triple_throw. auto. Qed.

Lemma keeps_bind {A B} I (m : Promise A) (k : A -> Promise B) :
  keeps I m -> (forall a, keeps I (k a)) -> keeps I (bind m k).
Proof. intros Hm Hk. eapply triple_bind; [exact Hm|exact Hk]. Qed.

Lemma keeps_try_catch {A} I (m : Promise A) h :
  keeps I m -> (forall e, keeps I (h e)) -> keeps I (try_catch m h).
Proof. intros Hm Hh. eapply triple_try_catch; [exact Hm|exact Hh]. Qed.

(** A world property that every effect of the two services keeps is kept
    by every history of calls.  The effects are: a call recorded in the
    trace, among them a request as the request interceptor of the file
    hands it on; a storage outcome taken; a non-empty token or a
    serialized profile written; the token or the profile removed; and,
    in [natvived.js], the token removed from [localStorage] and the
    location set to [/login]. *)
Section Keeps.

Variable f : source_file.
Variable I : World -> Prop.

Hypothesis I_event :
  forall e w, sent_requests [e] = [] -> I w -> I (record_event e w).
Hypothesis I_sent :
  forall c w, anonymous c -> I w ->
    I (record_event (Sent (outgoing (interceptor_store f w) c)) w).
Hypothesis I_fault : forall w, I w -> I (set_faults (tl (faults w)) w).
Hypothesis I_token :
  forall t w, t <> [] -> I w ->
    I (set_async_store (<[ u16 "token" := t ]> (async_store w)) w).
Hypothesis I_user :
  forall u w, I w ->
    I (set_async_store (<[ u16 "user" := JSON_stringify u ]> (async_store w))
         w).
Hypothesis I_remove :
  forall k w, k = u16 "token" \/ k = u16 "user" -> I w ->
    I (set_async_store (delete k (async_store w)) w).
Hypothesis I_local :
  forall w, f = natvived_js -> I w ->
    I (set_local_store (delete (u16 "token") (local_store w)) w).
Hypothesis I_href :
  forall w, f = natvived_js -> I w -> I (set_href (u16 "/login") w).

Lemma keeps_emit e : sent_requests [e] = [] -> keeps I (emit e).
Proof. intros He w Hw. apply I_event; assumption. Qed.

Lemma keeps_next_fault : keeps I next_fault.
Proof. intros w Hw. apply I_fault, Hw. Qed.

Lemma keeps_getItem key : keeps I (AsyncStorage.getItem key).
Proof.
  unfold AsyncStorage.getItem.
  apply keeps_bind; [apply keeps_emit; reflexivity|intros _].
  apply keeps_bind; [apply keeps_next_fault|intros [|]].
  - apply keeps_throw.
  - intros w Hw. exact Hw.
Qed.

Lemma keeps_setItem key value :
  (key = u16 "token" /\ value <> []) \/
  (key = u16 "user" /\ exists u, value = JSON_stringify u) ->
  keeps I (AsyncStorage.setItem key value).
Proof.
  intros Hkv. unfold AsyncStorage.setItem.
  apply keeps_bind; [apply keeps_emit; reflexivity|intros _].
  apply keeps_bind; [apply keeps_next_fault|intros [|]].
  - apply keeps_throw.
  - intros w Hw.
    destruct Hkv as [[-> Hv]|[-> [u ->]]]; [apply I_token|apply I_user];
      assumption.
Qed.

Lemma keeps_removeItem key :
  key = u16 "token" \/ key = u16 "user" ->
  keeps I (AsyncStorage.removeItem key).
Proof.
  intros Hk. unfold AsyncStorage.removeItem.
  apply keeps_bind; [apply keeps_emit; reflexivity|intros _].
  apply keeps_bind; [apply keeps_next_fault|intros [|]].
  - apply keeps_throw.
  - intros w Hw. apply I_remove; assumption.
Qed.

Lemma keeps_console_error text error : keeps I (console_error text error).
Proof. apply keeps_emit. reflexivity. Qed.

(** The request interceptor hands on the request that [outgoing]
    describes. *)
Lemma request_onFulfilled_keeps config :
  triple I (request_onFulfilled (axios_of f) config)
    (fun config' w =>
       I w /\ config' = outgoing (interceptor_store f w) config)
    (fun _ => I).
Proof.
  intros w Hw. destruct f; cbn [axios_of request_onFulfilled
    NatvivedJs.axiosInstance NativeEnTs.axiosInstance].
  - rewrite request_onFulfilled_natvived.
    split; [apply I_event; [reflexivity|exact Hw]|reflexivity].
  - rewrite request_onFulfilled_native. unfold called.
    assert (I (set_faults (tl (faults w))
                 (record_event (AsyncGetItem (u16 "token")) w))) as H.
    { apply (I_fault (record_event _ w)), I_event; [reflexivity|exact Hw]. }
    destruct (fails_next w); [exact H|split; [exact H|reflexivity]].
Qed.

Lemma response_onRejected_keeps B error :
  keeps I (response_onRejected (axios_of f) B error).
Proof.
  destruct f eqn:Hf; cbn [axios_of response_onRejected
    NatvivedJs.axiosInstance NativeEnTs.axiosInstance].
  - unfold NatvivedJs.response_onRejected.
    apply keeps_bind; [|intros _; apply keeps_throw].
    destruct (is_401 error); [|apply keeps_ret].
    apply keeps_bind.
    + unfold localStorage.removeItem.
      apply keeps_bind; [apply keeps_emit; reflexivity|intros _].
      intros w Hw. apply I_local; [reflexivity|exact Hw].
    + intros _. unfold set_location_href.
      apply keeps_bind; [apply keeps_emit; reflexivity|intros _].
      intros w Hw. apply I_href; [reflexivity|exact Hw].
  - unfold NativeEnTs.response_onRejected.
    apply keeps_bind; [|intros _; apply keeps_throw].
    destruct (is_401 error); [|apply keeps_ret].
    apply keeps_removeItem. left. reflexivity.
Qed.

Lemma response_onFulfilled_keeps B (response : Response B) :
  keeps I (response_onFulfilled (axios_of f) B response).
Proof. destruct f; apply keeps_ret. Qed.

Lemma keeps_request B (net : Config -> Reply B) config :
  anonymous config -> keeps I (request (axios_of f) net config).
Proof.
  intros Hc. unfold request.
  eapply triple_then.
  - eapply triple_bind; [apply request_onFulfilled_keeps|].
    intros config'. unfold dispatchRequest.
    eapply triple_bind with (R := fun _ => I).
    + intros w [Hw ->]. apply I_sent; assumption.
    + intros _. destruct (net config'); [apply keeps_ret|apply keeps_throw].
  - apply response_onFulfilled_keeps.
  - apply response_onRejected_keeps.
Qed.

Lemma anonymous_default method url data :
  anonymous {| cfg_method := method; cfg_url := url;
               cfg_headers := default_headers; cfg_data := data |}.
Proof. reflexivity. Qed.

Lemma keeps_post B url data (net : Config -> Reply B) :
  keeps I (post (axios_of f) url data net).
Proof. apply keeps_request, anonymous_default. Qed.

Lemma keeps_put B url data (net : Config -> Reply B) :
  keeps I (axios.put (axios_of f) url data net).
Proof. apply keeps_request, anonymous_default. Qed.

Lemma keeps_get B url params (net : Config -> Params -> Reply B) :
  keeps I (axios.get (axios_of f) url params net).
Proof. apply keeps_request, anonymous_default. Qed.

Lemma keeps_delete B url (net : Config -> Reply B) :
  keeps I (axios.delete (axios_of f) url net).
Proof. apply keeps_request, anonymous_default. Qed.

Lemma keeps_perform c : keeps I (perform (axios_of f) c).
Proof.
  destruct c; cbn [perform];
    unfold login, register, logout, getCurrentUser, isAuthenticated,
      refreshToken, updateUserProfile, resetPassword, createProduct,
      getProducts, updateProduct, deleteProduct, searchProducts;
    repeat match goal with
      | |- forall _, _ => intro
      | |- keeps _ (match ?x with _ => _ end) =>
          first [destruct x as [[|? ?]|] | destruct x]
      | |- keeps _ (ret _) => apply keeps_ret
      | |- keeps _ (throw _) => apply keeps_throw
      | |- keeps _ (bind _ _) => apply keeps_bind
      | |- keeps _ (try_catch _ _) => apply keeps_try_catch
      | |- keeps _ (post _ _ _ _) => apply keeps_post
      | |- keeps _ (axios.put _ _ _ _) => apply keeps_put
      | |- keeps _ (axios.get _ _ _ _) => apply keeps_get
      | |- keeps _ (axios.delete _ _ _) => apply keeps_delete
      | |- keeps _ (console_error _ _) => apply keeps_console_error
      | |- keeps _ (AsyncStorage.getItem _) => apply keeps_getItem
      | |- keeps _ (AsyncStorage.removeItem _) =>
          apply keeps_removeItem; (left + right); reflexivity
      | |- keeps _ (AsyncStorage.setItem (u16 "token") _) =>
          apply keeps_setItem; left; split; [reflexivity|discriminate]
      | |- keeps _ (AsyncStorage.setItem (u16 "user") _) =>
          apply keeps_setItem; right; split;
          [reflexivity|eexists; reflexivity]
      end.
Qed.

Lemma history_keeps calls w : I w -> I (history (axios_of f) calls w).
Proof.
  revert w. induction calls as [|c calls IH]; intros w Hw; [exact Hw|].
  cbn [history fold_left]. apply IH.
  pose proof (keeps_perform c w Hw) as H.
  destruct (perform (axios_of f) c w) as [[[]|e] w1]; exact H.
Qed.

End Keeps.

(** ** What every history of calls keeps *)

Lemma history_other_keys f calls w k :
  k <> u16 "token" -> k <> u16 "user" ->
  async_store (history (axios_of f) calls w) !! k = async_store w !! k.
Proof.
  intros Ht Hu.
  apply (history_keeps f (fun w' => async_store w' !! k = async_store w !! k));
    try (intros; simpl_world; assumption); [| | |reflexivity].
  - intros t w' _ H. simpl_world. rewrite lookup_insert_ne; [exact H|auto].
  - intros u w' H. simpl_world. rewrite lookup_insert_ne; [exact H|auto].
  - intros k' w' [->| ->] H; simpl_world;
      (rewrite lookup_delete_ne; [exact H|auto]).
Qed.

Lemma history_well_formed f calls w :
  well_formed (async_store w) ->
  well_formed (async_store (history (axios_of f) calls w)).
Proof.
  apply (history_keeps f (fun w' => well_formed (async_store w')));
    try (intros; simpl_world; assumption).
  - intros t w' Ht [H1 H2]. simpl_world. split.
    + rewrite lookup_insert_eq. congruence.
    + intros text. rewrite lookup_insert_ne by discriminate. apply H2.
  - intros u w' [H1 H2]. simpl_world. split.
    + rewrite lookup_insert_ne by discriminate. exact H1.
    + intros text. rewrite lookup_insert_eq. intros [= <-]. exists u.
      reflexivity.
  - intros k w' Hk [H1 H2]. simpl_world. split.
    + destruct Hk as [-> | ->].
      * rewrite lookup_delete_eq. discriminate.
      * rewrite lookup_delete_ne by discriminate. exact H1.
    + intros text. destruct Hk as [-> | ->].
      * rewrite lookup_delete_ne by discriminate. apply H2.
      * rewrite lookup_delete_eq. discriminate.
Qed.

Lemma history_served f calls w :
  faults w = [] -> faults (history (axios_of f) calls w) = [].
Proof.
  apply (history_keeps f (fun w' => faults w' = []));
    try (intros; simpl_world; assumption).
  intros w' H. simpl_world. rewrite H. reflexivity.
Qed.

(** X1.  Whatever functions of the auth service and of the product service
    are called, with whatever arguments, against whatever network and
    however AsyncStorage fails in between, the only keys of AsyncStorage
    whose content can differ afterwards are [token] and [user], and the
    only key of [localStorage] is [token]: every other key holds what it
    held before, or is absent as before. *)
Theorem services_touch_token_and_user_only
    (f : source_file) (calls : list call) (w : World) (k : jsstring) :
  k <> u16 "token" ->
  (k <> u16 "user" ->
   async_store (history (axios_of f) calls w) !! k = async_store w !! k) /\
  local_store (history (axios_of f) calls w) !! k = local_store w !! k.
Proof.
  intros Ht. split; [intros Hu; apply history_other_keys; assumption|].
  apply (history_keeps f (fun w' => local_store w' !! k = local_store w !! k));
    try (intros; simpl_world; assumption); [|reflexivity].
  intros w' _ H. simpl_world. rewrite lookup_delete_ne; [exact H|auto].
Qed.

(** X2.  No history of calls leaves an empty string under [token], or a
    text under [user] that is not a profile written by [JSON.stringify]:
    a store that is well formed stays so. *)
Theorem session_stays_well_formed
    (f : source_file) (calls : list call) (w : World) :
  well_formed (async_store w) ->
  well_formed (async_store (history (axios_of f) calls w)).
Proof. apply history_well_formed. Qed.

(** X3.  After any history that started from a well-formed store,
    [getCurrentUser] finds nothing it cannot parse: when AsyncStorage
    serves the read it resolves to [null] exactly when no profile is
    stored, and otherwise to the object of the stored profile, and it logs
    no error. *)
Theorem getCurrentUser_after_history
    (f : source_file) (calls : list call) (w : World) :
  well_formed (async_store w) ->
  fails_next (history (axios_of f) calls w) = false ->
  exists v,
    getCurrentUser (history (axios_of f) calls w)
    = (Return v,
       called (AsyncGetItem (u16 "user")) (history (axios_of f) calls w)) /\
    match async_store (history (axios_of f) calls w) !! u16 "user" with
    | None => v = JNull
    | Some text => exists u, text = JSON_stringify u /\ v = user_value u
    end.
Proof.
  intros Hwf. set (w1 := history (axios_of f) calls w). intros Hserved.
  destruct (history_well_formed f calls w Hwf) as [_ Huser]. fold w1 in Huser.
  rewrite getCurrentUser_run, Hserved.
  destruct (async_store w1 !! u16 "user") as [text|] eqn:Htext.
  - destruct (Huser text eq_refl) as [u ->].
    exists (user_value u). split; [|exists u; split; reflexivity].
    destruct (JSON_stringify u) as [|c s] eqn:Hs; [discriminate|].
    rewrite <- Hs, parse_stringify_user. reflexivity.
  - exists JNull. split; reflexivity.
Qed.

(** X4.  After any history that started from a well-formed store,
    [isAuthenticated], when AsyncStorage serves its read, resolves to
    [true] exactly when the key [token] is there and to [false] exactly
    when it is not: the stored token is never the empty string. *)
Theorem isAuthenticated_after_history
    (f : source_file) (calls : list call) (w : World) :
  well_formed (async_store w) ->
  fails_next (history (axios_of f) calls w) = false ->
  (fst (isAuthenticated (history (axios_of f) calls w)) = Return true
   <-> is_Some (async_store (history (axios_of f) calls w) !! u16 "token")) /\
  (fst (isAuthenticated (history (axios_of f) calls w)) = Return false
   <-> async_store (history (axios_of f) calls w) !! u16 "token" = None).
Proof.
  intros Hwf. set (w1 := history (axios_of f) calls w). intros Hserved.
  destruct (history_well_formed f calls w Hwf) as [Htoken _].
  fold w1 in Htoken.
  rewrite isAuthenticated_run, Hserved. cbn [fst].
  destruct (async_store w1 !! u16 "token") as [[|c t]|]; cbn [truthy].
  - contradiction.
  - split; split; intros H; try discriminate; eauto.
  - split; split; intros H; try discriminate; try reflexivity.
    destruct H as [x H]. discriminate.
Qed.


(** X6.  Outside AsyncStorage the services change nothing in
    [native.en.ts]: [localStorage] and the location are as they were after
    any history of calls.  In [natvived.js] the one thing that can happen
    to [localStorage] is that its token is removed, and the one place the
    location can move to is [/login]. *)
Theorem services_leave_the_page
    (f : source_file) (calls : list call) (w : World) :
  let w1 := history (axios_of f) calls w in
  (f = native_en_ts ->
   local_store w1 = local_store w /\ location_href w1 = location_href w) /\
  (local_store w1 = local_store w \/
   local_store w1 = delete (u16 "token") (local_store w)) /\
  (location_href w1 = location_href w \/ location_href w1 = u16 "/login").
Proof.
  apply (history_keeps f
    (fun w' =>
       (f = native_en_ts ->
        local_store w' = local_store w /\
        location_href w' = location_href w) /\
       (local_store w' = local_store w \/
        local_store w' = delete (u16 "token") (local_store w)) /\
       (location_href w' = location_href w \/
        location_href w' = u16 "/login")));
    try (intros; simpl_world; assumption).
  - intros w' Hf (_ & H2 & H3). simpl_world.
    split; [intros ->; discriminate|]. split; [|exact H3].
    right. destruct H2 as [-> | ->]; [reflexivity|].
    apply delete_delete_eq.
  - intros w' Hf (_ & H2 & _). simpl_world.
    split; [intros ->; discriminate|]. split; [exact H2|].
    right. reflexivity.
  - split; [split; reflexivity|]. split; left; reflexivity.
Qed.

(** ** Rejections *)

(** What [getCurrentUser] resolves to. *)
Lemma getCurrentUser_value w :
  exists v, getCurrentUser w = (Return v, snd (getCurrentUser w)).
Proof.
  rewrite getCurrentUser_run.
  destruct (fails_next w); [eexists; reflexivity|].
  destruct (async_store w !! u16 "user") as [[|c text]|];
    try (eexists; reflexivity).
  destruct (JSON.parse (c :: text)); eexists; reflexivity.
Qed.

Lemma triple_any {A} (m : Promise A) :
  triple (fun _ => True) m (fun _ _ => True) (fun _ _ => True).
Proof. intros w _. destruct (m w) as [[a|e] w']; exact Logic.I. Qed.

(** A body wrapped in [catch (error) { throw handleError(error) }]. *)
Lemma catch_handles {A} (m : Promise A) (Q : A -> World -> Prop) E :
  (forall error w, E (handled error) w) -> (forall a w, Q a w) ->
  triple (fun _ => True)
    (try_catch m (fun error => throw (handled error))) Q E.
Proof.
  intros HE HQ w _. unfold try_catch, throw.
  destruct (m w) as [[a|e] w']; [apply HQ|apply HE].
Qed.

Lemma handled_normalized_or_TypeError error :
  normalized (handled error) \/ handled error = TypeError.
Proof.
  destruct (handled_cases error) as [(r & _ & -> & Hr)|[-> _]];
    [left; exists r; split; [reflexivity|exact Hr]|right; reflexivity].
Qed.

Lemma handled_with_body error : with_body error -> normalized (handled error).
Proof.
  intros Hbody.
  destruct (handled_cases error) as [(r & _ & -> & Hr)|[_ (response & H & Hn)]].
  - exists r. split; [reflexivity|exact Hr].
  - destruct (Hbody response H Hn).
Qed.

(** What a computation can reject with. *)
Lemma raises_ret {A} (a : A) E : raises (ret a) E.
Proof. intros w e w' H. discriminate. Qed.

Lemma raises_throw {A} e (E : JsError -> Prop) : E e -> raises (@throw A e) E.
Proof. intros He w e' w' [= <- _]. exact He. Qed.

Lemma raises_bind {A B} (m : Promise A) (k : A -> Promise B) E :
  raises m E -> (forall a, raises (k a) E) -> raises (bind m k) E.
Proof.
  intros Hm Hk w e w'. unfold bind.
  destruct (m w) as [[a|e0] w1] eqn:H.
  - apply Hk.
  - intros [= <- _]. apply (Hm _ _ _ H).
Qed.

Lemma raises_more {A} (m : Promise A) (E E' : JsError -> Prop) :
  raises m E -> (forall e, E e -> E' e) -> raises m E'.
Proof. intros Hm HE w e w' H. apply HE, (Hm _ _ _ H). Qed.

Lemma raises_catch {A} (m : Promise A) :
  raises m with_body ->
  raises (try_catch m (fun error => throw (handled error))) normalized.
Proof.
  intros Hm w e w'. unfold try_catch, throw.
  destruct (m w) as [[a|e0] w1] eqn:H; [discriminate|].
  intros [= <- _]. apply handled_with_body, (Hm _ _ _ H).
Qed.

Lemma with_body_StorageError : with_body StorageError.
Proof. intros response H. discriminate. Qed.

Lemma raises_getItem key : raises (AsyncStorage.getItem key) with_body.
Proof.
  intros w e w'. rewrite getItem_run.
  destruct (fails_next w); [|discriminate].
  intros [= <- _]. apply with_body_StorageError.
Qed.

Lemma raises_setItem key value :
  raises (AsyncStorage.setItem key value) with_body.
Proof.
  intros w e w'. rewrite setItem_run.
  destruct (fails_next w); [|discriminate].
  intros [= <- _]. apply with_body_StorageError.
Qed.

Lemma raises_removeItem key : raises (AsyncStorage.removeItem key) with_body.
Proof.
  intros w e w'. rewrite removeItem_run.
  destruct (fails_next w); [|discriminate].
  intros [= <- _]. apply with_body_StorageError.
Qed.

(** A request against a network that sends no [null] error body rejects
    with an error [handleError] returns on. *)
Lemma raises_request f B (net : Config -> Reply B) config :
  bodied net -> raises (request (axios_of f) net config) with_body.
Proof.
  intros Hnet w e w'.
  assert (forall c response q,
            net c = Failed response q -> with_body (AxiosError response q))
    as Haxios.
  { intros c response q Hc r [= ->]. exact (Hnet _ _ _ Hc). }
  destruct f; cbn [axios_of].
  - rewrite request_natvived. cbn zeta.
    destruct (net _) as [r|response q] eqn:Hc; [discriminate|].
    intros [= <- _]. exact (Haxios _ _ _ Hc).
  - rewrite request_native. cbn zeta.
    destruct (fails_next w);
      [intros [= <- _]; apply with_body_StorageError|].
    destruct (net _) as [r|response q] eqn:Hc; [discriminate|].
    destruct (is_401 _); [destruct (fails_next _)|]; intros [= <- _];
      first [apply with_body_StorageError | exact (Haxios _ _ _ Hc)].
Qed.

Ltac raising :=
  repeat match goal with
    | |- forall _, _ => intro
    | |- raises (match ?x with _ => _ end) _ =>
        first [destruct x as [[|? ?]|] | destruct x]
    | |- raises (ret _) _ => apply raises_ret
    | |- raises (bind _ _) _ => apply raises_bind
    | |- raises (request _ _ _) _ => apply raises_request; assumption
    | |- raises (AsyncStorage.getItem _) _ => apply raises_getItem
    | |- raises (AsyncStorage.setItem _ _) _ => apply raises_setItem
    | |- raises (AsyncStorage.removeItem _) _ => apply raises_removeItem
    end.

(** Against a network that sends no [null] error body, a call rejects with
    a normalized error, or with the rejection of AsyncStorage where there
    is no [catch]. *)
Lemma perform_bodied f c :
  call_bodied c ->
  raises (perform (axios_of f) c)
    (fun e => normalized e \/ (c = IsAuthenticated /\ e = StorageError)).
Proof.
  intros Hc.
  destruct c; cbn [perform call_bodied] in *;
    try (apply raises_bind; [|intro; apply raises_ret];
         apply (raises_more _ normalized); [|intros e He; left; exact He];
         apply raises_catch;
         unfold post, axios.put, axios.get, axios.delete; raising).
  - (* logout *)
    unfold logout. intros w e w'. unfold try_catch.
    match goal with
    | |- context [?m w] => assert (raises m with_body) as Hm
    end.
    { unfold post. raising. }
    match goal with
    | |- context [?m w] => destruct (m w) as [[a|e0] w1] eqn:H
    end; [discriminate|].
    intros [= <- _]. left. apply handled_with_body, (Hm _ _ _ H).
  - (* getCurrentUser *)
    intros w e w'. unfold bind. destruct (getCurrentUser_value w) as [v ->].
    discriminate.
  - (* isAuthenticated *)
    intros w e w'. unfold bind. rewrite isAuthenticated_run.
    destruct (fails_next w); [|discriminate].
    intros [= <- _]. right. split; reflexivity.
Qed.

(** X7.  A function of the two services that rejects does so with the
    object [handleError] built, whose message is never empty, with two
    exceptions.  [isAuthenticated] has no [catch] and passes on the
    rejection of AsyncStorage as it is.  And [handleError] itself throws a
    TypeError when the failed request has a response whose body is
    [null]: the caller gets that TypeError in place of a normalized error.
    Against a network that sends no such body this does not happen.
    [getCurrentUser] does not reject at all. *)
Theorem service_rejections_are_normalized
    (instance : AxiosInstance) (c : call) (w w' : World) (e : JsError) :
  perform instance c w = (Throw e, w') ->
  (normalized e \/ e = TypeError \/
   (c = IsAuthenticated /\ e = StorageError)) /\
  (forall f, instance = axios_of f -> call_bodied c -> e <> TypeError).
Proof.
  intros H. split.
  - assert (triple (fun _ => True) (perform instance c) (fun _ _ => True)
              (fun e _ => normalized e \/ e = TypeError \/
                          (c = IsAuthenticated /\ e = StorageError))) as Ht.
    { assert (forall error,
                normalized (handled error) \/ handled error = TypeError \/
                (c = IsAuthenticated /\ handled error = StorageError)) as Hh.
      { intros error.
        destruct (handled_normalized_or_TypeError error); auto. }
      destruct c; cbn [perform];
        try (eapply triple_bind with (R := fun _ _ => True);
             [|intros; apply triple_ret; auto]).
      all: try (apply catch_handles; auto).
      - (* logout *)
        unfold logout.
        eapply triple_try_catch; [apply triple_any|]. intros error.
        eapply triple_bind with (R := fun _ _ => True).
        + intros w0 _. exact Logic.I.
        + intros _. apply triple_throw. intros. apply Hh.
      - (* getCurrentUser *)
        intros w0 _. destruct (getCurrentUser_value w0) as [v ->].
        exact Logic.I.
      - (* isAuthenticated *)
        intros w0 _. rewrite isAuthenticated_run.
        destruct (fails_next w0); [|exact Logic.I].
        right. right. split; reflexivity. }
    specialize (Ht w Logic.I). rewrite H in Ht. exact Ht.
  - intros f -> Hc Htype. subst e.
    destruct (perform_bodied f c Hc _ _ _ H) as [(r & Hr & _)|[_ Hs]];
      discriminate.
Qed.

(** ** The gateway, apart from the 401 *)

(** X8.  A request that is not answered with 401 changes nothing that
    is stored: both storages and the location are as they were, whether
    the request resolved, failed with another status, got no response,
    or was not sent at all. *)
Theorem only_a_401_changes_the_stores
    (f : source_file) (B : Type) (net : Config -> Reply B)
    (config : Config) (w : World) :
  (forall response q,
     net (outgoing (interceptor_store f w) config) = Failed response q ->
     is_401 (AxiosError response q) = false) ->
  let w' := snd (request (axios_of f) net config w) in
  async_store w' = async_store w /\
  local_store w' = local_store w /\
  location_href w' = location_href w.
Proof.
  intros Hnet.
  destruct f; cbn [axios_of interceptor_store] in *.
  - rewrite request_natvived. cbn zeta.
    destruct (net _) as [r|response q] eqn:Hn; [repeat split|].
    rewrite (Hnet _ _ eq_refl). repeat split.
  - rewrite request_native. cbn zeta.
    destruct (fails_next w); [repeat split|].
    destruct (net _) as [r|response q] eqn:Hn; [repeat split|].
    rewrite (Hnet _ _ eq_refl). repeat split.
Qed.


(** ** The rest of the auth service *)

(** What the request interceptor leaves of a fresh config. *)
Lemma outgoing_fresh store method url data :
  let c := outgoing store {| cfg_method := method; cfg_url := url;
                             cfg_headers := default_headers;
                             cfg_data := data |} in
  cfg_method c = method /\ cfg_url c = url /\ cfg_data c = data.
Proof. apply outgoing_fields. Qed.

(** The request of [refreshToken], from the text found under
    [refreshToken]. *)
Lemma refreshToken_run instance net w :
  refreshToken instance net w
  = if fails_next w then
      (Throw (handled StorageError),
       called (AsyncGetItem (u16 "refreshToken")) w)
    else
      let w0 := called (AsyncGetItem (u16 "refreshToken")) w in
      match post instance (u16 "/auth/refresh-token")
              (Some (refresh_value (async_store w !! u16 "refreshToken")))
              net w0 with
      | (Return response, w1) =>
          match fresh_token (res_data response) with
          | Some ((_ :: _) as t) =>
              if fails_next w1 then
                (Throw (handled StorageError),
                 called (AsyncSetItem (u16 "token") t) w1)
              else
                (Return (res_data response),
                 set_async_store (<[ u16 "token" := t ]> (async_store w1))
                   (called (AsyncSetItem (u16 "token") t) w1))
          | _ => (Return (res_data response), w1)
          end
      | (Throw error, w1) => (Throw (handled error), w1)
      end.
Proof.
  unfold refreshToken, try_catch, bind. rewrite getItem_run.
  destruct (fails_next w); [reflexivity|]. cbn zeta.
  destruct (post _ _ _ _ _) as [[response|error] w1]; [|reflexivity].
  destruct (fresh_token (res_data response)) as [[|c t]|]; try reflexivity.
  rewrite setItem_run. destruct (fails_next w1); reflexivity.
Qed.

(** [refreshToken] while AsyncStorage serves every call. *)
Lemma refreshToken_served f net w :
  faults w = [] ->
  let c := outgoing (interceptor_store f w)
             {| cfg_method := POST; cfg_url := u16 "/auth/refresh-token";
                cfg_headers := default_headers;
                cfg_data :=
                  Some (refresh_value
                          (async_store w !! u16 "refreshToken")) |} in
  exists w',
    sent_requests (trace w') = sent_requests (trace w) ++ [c] /\
    async_store w' !! u16 "user" = async_store w !! u16 "user" /\
    match net c with
    | Fulfilled r =>
        refreshToken (axios_of f) net w = (Return (res_data r), w') /\
        async_store w'
        = match fresh_token (res_data r) with
          | Some ((_ :: _) as t) => <[ u16 "token" := t ]> (async_store w)
          | _ => async_store w
          end
    | Failed response q =>
        refreshToken (axios_of f) net w
        = (Throw (handled (AxiosError response q)), w') /\
        (is_401 (AxiosError response q) = false ->
         async_store w' = async_store w)
    end.
Proof.
  intros Hfaults. cbn zeta.
  rewrite refreshToken_run, (fails_next_served w Hfaults). cbn zeta.
  set (w0 := called (AsyncGetItem (u16 "refreshToken")) w).
  assert (faults w0 = []) as Hfaults0
    by (unfold w0; simpl_world; rewrite Hfaults; reflexivity).
  set (config := {| cfg_method := POST; cfg_url := u16 "/auth/refresh-token";
                    cfg_headers := default_headers; cfg_data := _ |}).
  destruct (request_served f TokenResponse net config w0 Hfaults0)
    as (w1 & events & Hreq & Htrace & Hsent & Hfaults1 & _).
  cbn zeta in Hreq. unfold post. fold config.
  replace (interceptor_store f w0) with (interceptor_store f w) in Hreq
    by (destruct f; reflexivity).
  assert (sent_requests (trace w1)
          = sent_requests (trace w)
            ++ [outgoing (interceptor_store f w) config]) as Hsent1.
  { rewrite Htrace. unfold w0. simpl_world.
    rewrite !sent_requests_app, Hsent. cbn [sent_requests].
    rewrite app_nil_r. reflexivity. }
  destruct (net (outgoing (interceptor_store f w) config))
    as [r|response q] eqn:Hnet.
  - destruct (request_returns _ _ _ _ _ _ _ Hreq) as (_ & Hstore & _).
    rewrite Hreq.
    destruct (fresh_token (res_data r)) as [[|ch t]|].
    + exists w1. rewrite Hstore. auto.
    + rewrite (fails_next_served w1 Hfaults1).
      exists (set_async_store
                (<[ u16 "token" := ch :: t ]> (async_store w1))
                (called (AsyncSetItem (u16 "token") (ch :: t)) w1)).
      simpl_world. rewrite sent_requests_app, Hsent1.
      cbn [sent_requests]. rewrite app_nil_r.
      split; [reflexivity|].
      rewrite lookup_insert_ne by discriminate. rewrite Hstore. auto.
    + exists w1. rewrite Hstore. auto.
  - destruct (request_throws _ _ _ _ _ _ _ Hreq) as (Huser & Hother & _).
    rewrite Hreq. exists w1. auto.
Qed.

(** X10.  While AsyncStorage serves its calls, [refreshToken] sends one
    request, to [/auth/refresh-token], whose body holds the text stored
    under [refreshToken], or [null] when there is none.  When the response
    has a token, that token replaces the stored one and nothing else is
    written; when it has none, or an empty one, AsyncStorage is left as it
    was.  A failed request rejects with what [handleError] makes of the
    failure: the normalized error, or the TypeError it throws on a null
    body.  The cached profile is the same afterwards in every case. *)
Theorem refreshToken_replaces_the_token_only
    (f : source_file) (net : Config -> Reply TokenResponse) (w : World) :
  faults w = [] ->
  exists c w',
    cfg_method c = POST /\ cfg_url c = u16 "/auth/refresh-token" /\
    cfg_data c = Some (refresh_value (async_store w !! u16 "refreshToken")) /\
    sent_requests (trace w') = sent_requests (trace w) ++ [c] /\
    async_store w' !! u16 "user" = async_store w !! u16 "user" /\
    match net c with
    | Fulfilled r =>
        refreshToken (axios_of f) net w = (Return (res_data r), w') /\
        async_store w'
        = match fresh_token (res_data r) with
          | Some ((_ :: _) as t) => <[ u16 "token" := t ]> (async_store w)
          | _ => async_store w
          end
    | Failed response q =>
        refreshToken (axios_of f) net w
        = (Throw (handled (AxiosError response q)), w') /\
        (is_401 (AxiosError response q) = false ->
         async_store w' = async_store w)
    end.
Proof.
  intros Hfaults.
  destruct (refreshToken_served f net w Hfaults) as (w' & H1 & H2 & H3).
  cbn zeta in *.
  match type of H1 with _ = _ ++ [?c] => exists c, w' end.
  split; [apply outgoing_fresh|]. split; [apply outgoing_fresh|].
  split; [apply outgoing_fresh|]. auto.
Qed.

(** X11.  Nothing in the two services stores a refresh token.  From an
    AsyncStorage without the key [refreshToken], and while AsyncStorage
    serves its calls, [refreshToken] therefore sends the body
    [{ refreshToken: null }] after any history of calls, a successful
    [login] or an earlier [refreshToken] among them. *)
Theorem refreshToken_finds_no_refresh_token
    (f : source_file) (calls : list call)
    (net : Config -> Reply TokenResponse) (w : World) :
  async_store w !! u16 "refreshToken" = None ->
  faults w = [] ->
  let w1 := history (axios_of f) calls w in
  exists c,
    sent_requests (trace (snd (refreshToken (axios_of f) net w1)))
    = sent_requests (trace w1) ++ [c] /\
    cfg_url c = u16 "/auth/refresh-token" /\
    cfg_data c = Some (JObject [(u16 "refreshToken", JNull)]).
Proof.
  intros Hnone Hfaults w1.
  pose proof (history_served f calls w Hfaults) as Hfaults1.
  fold w1 in Hfaults1.
  pose proof (history_other_keys f calls w (u16 "refreshToken")) as Hkey.
  fold w1 in Hkey. rewrite Hnone in Hkey.
  destruct (refreshToken_served f net w1 Hfaults1) as (w' & Hsent & _ & Hrun).
  rewrite Hkey in Hsent, Hrun by discriminate.
  cbn zeta in *.
  match type of Hsent with _ = _ ++ [?c] => exists c end.
  split; [|split; apply outgoing_fresh].
  destruct (net _) as [r|response q]; destruct Hrun as [-> _]; exact Hsent.
Qed.

(** X12.  While AsyncStorage serves its calls, [updateUserProfile] sends
    one request, [PUT /auth/profile] with the data it was given.  When the
    request resolves, the profile of the response is what it returns and
    what AsyncStorage holds under [user] from then on, and
    [getCurrentUser] reads that profile back; the token is not touched.
    When the request fails, the call rejects with what [handleError] makes
    of the failure (the normalized error, or the TypeError it throws on a
    null body) and the cached profile is the one from before. *)
Theorem updateUserProfile_replaces_the_cached_user
    (f : source_file) (userData : jsval) (net : Config -> Reply User)
    (w : World) :
  faults w = [] ->
  exists c w',
    cfg_method c = PUT /\ cfg_url c = u16 "/auth/profile" /\
    cfg_data c = Some userData /\
    sent_requests (trace w') = sent_requests (trace w) ++ [c] /\
    match net c with
    | Fulfilled r =>
        updateUserProfile (axios_of f) userData net w
        = (Return (res_data r), w') /\
        async_store w'
        = <[ u16 "user" := JSON_stringify (res_data r) ]> (async_store w) /\
        async_store w' !! u16 "token" = async_store w !! u16 "token" /\
        fst (getCurrentUser w') = Return (user_value (res_data r))
    | Failed response q =>
        updateUserProfile (axios_of f) userData net w
        = (Throw (handled (AxiosError response q)), w') /\
        async_store w' !! u16 "user" = async_store w !! u16 "user"
    end.
Proof.
  intros Hfaults.
  set (config := {| cfg_method := PUT; cfg_url := u16 "/auth/profile";
                    cfg_headers := default_headers;
                    cfg_data := Some userData |}).
  destruct (request_served f User net config w Hfaults)
    as (w1 & events & Hreq & Htrace & Hsent & Hfaults1 & _).
  cbn zeta in Hreq.
  assert (sent_requests (trace w1)
          = sent_requests (trace w)
            ++ [outgoing (interceptor_store f w) config]) as Hsent1.
  { rewrite Htrace, sent_requests_app, Hsent. reflexivity. }
  unfold updateUserProfile, axios.put, try_catch, bind. fold config.
  rewrite Hreq.
  exists (outgoing (interceptor_store f w) config).
  destruct (net (outgoing (interceptor_store f w) config))
    as [r|response q] eqn:Hnet.
  - destruct (request_returns _ _ _ _ _ _ _ Hreq) as (_ & Hstore & _).
    rewrite setItem_run, (fails_next_served w1 Hfaults1).
    exists (set_async_store
              (<[ u16 "user" := JSON_stringify (res_data r) ]>
                 (async_store w1))
              (called (AsyncSetItem (u16 "user")
                         (JSON_stringify (res_data r))) w1)).
    split; [apply outgoing_fresh|]. split; [apply outgoing_fresh|].
    split; [apply outgoing_fresh|]. simpl_world.
    split; [rewrite sent_requests_app, app_nil_r; exact Hsent1|].
    split; [reflexivity|]. rewrite Hstore.
    split; [reflexivity|].
    split; [apply lookup_insert_ne; discriminate|].
    rewrite getCurrentUser_run. unfold fails_next at 1. simpl_world.
    rewrite Hfaults1. cbn [tl hd]. rewrite lookup_insert_eq.
    destruct (JSON_stringify (res_data r)) as [|ch text] eqn:Htext;
      [discriminate|].
    rewrite <- Htext, parse_stringify_user. reflexivity.
  - destruct (request_throws _ _ _ _ _ _ _ Hreq) as (Huser & _).
    exists w1.
    split; [apply outgoing_fresh|]. split; [apply outgoing_fresh|].
    split; [apply outgoing_fresh|]. auto.
Qed.

(** X13.  [resetPassword] sends [{ email }] to [/auth/reset-password]
    and resolves to the body of the response, or rejects with what
    [handleError] makes of the failure.  It neither reads nor writes the
    session: AsyncStorage is the same afterwards unless the answer was a
    401, and the profile is the same even then. *)
Theorem resetPassword_leaves_the_session
    (f : source_file) (email : jsstring) (net : Config -> Reply jsval)
    (w : World) :
  faults w = [] ->
  exists c w',
    cfg_method c = POST /\ cfg_url c = u16 "/auth/reset-password" /\
    cfg_data c = Some (email_value email) /\
    sent_requests (trace w') = sent_requests (trace w) ++ [c] /\
    async_store w' !! u16 "user" = async_store w !! u16 "user" /\
    match net c with
    | Fulfilled r =>
        resetPassword (axios_of f) email net w = (Return (res_data r), w') /\
        async_store w' = async_store w
    | Failed response q =>
        resetPassword (axios_of f) email net w
        = (Throw (handled (AxiosError response q)), w') /\
        (is_401 (AxiosError response q) = false ->
         async_store w' = async_store w)
    end.
Proof.
  intros Hfaults.
  set (config := {| cfg_method := POST; cfg_url := u16 "/auth/reset-password";
                    cfg_headers := default_headers;
                    cfg_data := Some (email_value email) |}).
  destruct (request_served f jsval net config w Hfaults)
    as (w1 & events & Hreq & Htrace & Hsent & _).
  cbn zeta in Hreq.
  assert (sent_requests (trace w1)
          = sent_requests (trace w)
            ++ [outgoing (interceptor_store f w) config]) as Hsent1.
  { rewrite Htrace, sent_requests_app, Hsent. reflexivity. }
  unfold resetPassword, post, try_catch, bind. fold config. rewrite Hreq.
  exists (outgoing (interceptor_store f w) config), w1.
  split; [apply outgoing_fresh|]. split; [apply outgoing_fresh|].
  split; [apply outgoing_fresh|]. split; [exact Hsent1|].
  destruct (net (outgoing (interceptor_store f w) config))
    as [r|response q] eqn:Hnet.
  - destruct (request_returns _ _ _ _ _ _ _ Hreq) as (_ & Hstore & _).
    rewrite Hstore. auto.
  - destruct (request_throws _ _ _ _ _ _ _ Hreq) as (Huser & Hother & _).
    auto.
Qed.

(** ** The product service *)

(** X14.  While AsyncStorage serves its calls, [deleteProduct] sends one
    request, [DELETE /products/<id>] without a body, and resolves to
    [true] whenever that request resolves, whatever the response holds;
    when the request fails it rejects with what [handleError] makes of the
    failure: the normalized error, or the TypeError it throws on a null
    body. *)
Theorem deleteProduct_resolves_to_true
    (f : source_file) (id : jsstring) (net : Config -> Reply jsval)
    (w : World) :
  faults w = [] ->
  exists c w',
    cfg_method c = DELETE /\ cfg_url c = u16 "/products/" ++ id /\
    cfg_data c = None /\
    sent_requests (trace w') = sent_requests (trace w) ++ [c] /\
    deleteProduct (axios_of f) id net w
    = (match net c with
       | Fulfilled _ => Return true
       | Failed response q =>
           Throw (handled (AxiosError response q))
       end, w').
Proof.
  intros Hfaults.
  set (config := {| cfg_method := DELETE; cfg_url := u16 "/products/" ++ id;
                    cfg_headers := default_headers; cfg_data := None |}).
  destruct (request_served f jsval net config w Hfaults)
    as (w1 & events & Hreq & Htrace & Hsent & _).
  cbn zeta in Hreq.
  exists (outgoing (interceptor_store f w) config), w1.
  split; [apply outgoing_fresh|]. split; [apply outgoing_fresh|].
  split; [apply outgoing_fresh|].
  split; [rewrite Htrace, sent_requests_app, Hsent; reflexivity|].
  unfold deleteProduct, axios.delete, try_catch, bind. fold config.
  rewrite Hreq. destruct (net _); reflexivity.
Qed.

Lemma get_property_define k k' v o :
  get_property k (define k' v o)
  = if bool_decide (k' = k) then Some v else get_property k o.
Proof.
  induction o as [|[k0 v0] o IH]; cbn [define get_property];
    [reflexivity|].
  destruct (bool_decide (k0 = k')) eqn:H0; cbn [get_property];
    [|rewrite IH]; repeat case_bool_decide; congruence.
Qed.

Lemma get_property_app k o1 o2 :
  get_property k (o1 ++ o2)
  = match get_property k o1 with
    | Some v => Some v
    | None => get_property k o2
    end.
Proof.
  induction o1 as [|[k0 v0] o1 IH]; cbn [app get_property]; [reflexivity|].
  destruct (bool_decide (k0 = k)); [reflexivity|exact IH].
Qed.

(** The last member of a name decides. *)
Lemma get_property_defined_by k ps acc :
  get_property k (defined_by ps acc)
  = match get_property k
            (rev (map (fun p => (fst p, JString (snd p))) ps)) with
    | Some v => Some v
    | None => get_property k acc
    end.
Proof.
  unfold defined_by. revert acc.
  induction ps as [|[k0 s0] ps IH]; intros acc; [reflexivity|].
  cbn [fold_left map rev fst snd]. rewrite IH, get_property_app.
  destruct (get_property k (rev _)); [reflexivity|].
  rewrite get_property_define. cbn [get_property].
  destruct (bool_decide (k0 = k)); reflexivity.
Qed.

(** X15.  The query of [searchProducts], [{ search: searchTerm,
    ...filters }]: every filter is a parameter, with the value the filters
    give it; [search] is the search term unless the filters have a
    [search] of their own, which then replaces the term; and there is no
    other parameter. *)
Theorem search_params_are_term_and_filters
    (searchTerm : jsstring) (filters : list (jsstring * jsstring))
    (k : jsstring) :
  get_property k (search_params searchTerm filters)
  = match get_property k
            (rev (map (fun p => (fst p, JString (snd p))) filters)) with
    | Some v => Some v
    | None =>
        if bool_decide (k = u16 "search") then Some (JString searchTerm)
        else None
    end.
Proof.
  unfold search_params. rewrite get_property_defined_by.
  destruct (get_property k (rev _)); [reflexivity|].
  cbn [get_property].
  destruct (bool_decide (u16 "search" = k)) eqn:H1;
    destruct (bool_decide (k = u16 "search")) eqn:H2; try reflexivity.
  - apply bool_decide_eq_true in H1. apply bool_decide_eq_false in H2.
    congruence.
  - apply bool_decide_eq_false in H1. apply bool_decide_eq_true in H2.
    congruence.
Qed.

(** ** The auth context *)

Lemma checkUser_run state w :
  AuthContext.checkUser state w
  = match getCurrentUser w with
    | (Return v, w') =>
        (Return {| auth_user := v; auth_loading := false |}, w')
    | (Throw error, w') =>
        (Return (setLoading false state),
         record_event (ConsoleError AuthContext.checkUser_text error) w')
    end.
Proof.
  unfold AuthContext.checkUser, try_catch, bind at 1. unfold bind at 1.
  destruct (getCurrentUser w) as [[v|error] w']; reflexivity.
Qed.

(** X16.  [checkUser] never rejects and always ends with [loading] off and
    [user] set to what [getCurrentUser] resolved to; its own [catch] never
    runs, so the only calls it makes on the environment are those of
    [getCurrentUser]. *)
Theorem checkUser_always_ends_loading (state : AuthState) (w : World) :
  exists v,
    fst (getCurrentUser w) = Return v /\
    AuthContext.checkUser state w
    = (Return {| auth_user := v; auth_loading := false |},
       snd (getCurrentUser w)).
Proof.
  rewrite checkUser_run.
  destruct (getCurrentUser_value w) as [v Hv]. rewrite Hv.
  exists v. split; reflexivity.
Qed.

(** [login] while AsyncStorage serves every call. *)
Lemma login_served f credentials net w :
  faults w = [] ->
  let c := outgoing (interceptor_store f w)
             {| cfg_method := POST; cfg_url := u16 "/auth/login";
                cfg_headers := default_headers;
                cfg_data := Some (credentials_value credentials) |} in
  exists w',
    faults w' = [] /\
    match net c with
    | Fulfilled r =>
        login (axios_of f) credentials net w = (Return (res_data r), w') /\
        async_store w'
        = match token (res_data r) with
          | Some ((_ :: _) as t) =>
              <[ u16 "user" := JSON_stringify (user (res_data r)) ]>
                (<[ u16 "token" := t ]> (async_store w))
          | _ => async_store w
          end
    | Failed response q =>
        login (axios_of f) credentials net w
        = (Throw (handled (AxiosError response q)), w')
    end.
Proof.
  intros Hfaults.
  set (config := {| cfg_method := POST; cfg_url := u16 "/auth/login";
                    cfg_headers := default_headers; cfg_data := _ |}).
  destruct (request_served f AuthResponse net config w Hfaults)
    as (w1 & events & Hreq & _ & _ & Hfaults1 & _).
  cbn zeta in *. rewrite login_run. unfold post. fold config. rewrite Hreq.
  destruct (net (outgoing (interceptor_store f w) config))
    as [r|response q] eqn:Hnet; [|exists w1; auto].
  destruct (request_returns _ _ _ _ _ _ _ Hreq) as (_ & Hstore & _).
  destruct (token (res_data r)) as [[|ch t]|].
  - exists w1. auto.
  - cbn zeta. rewrite (fails_next_served w1 Hfaults1).
    set (w2 := set_async_store _ (called (AsyncSetItem (u16 "token") _) w1)).
    assert (faults w2 = []) as Hfaults2
      by (unfold w2; simpl_world; rewrite Hfaults1; reflexivity).
    rewrite (fails_next_served w2 Hfaults2).
    eexists. split; [|split; [reflexivity|]].
    + simpl_world. rewrite Hfaults2. reflexivity.
    + unfold w2. simpl_world. rewrite Hstore. reflexivity.
  - exists w1. auto.
Qed.

(** X17.  The [login] of the context, while AsyncStorage serves its calls
    and the request resolves: the context takes the user of the response,
    with or without a token in it.  But only a response with a token is
    stored, so only then does the user survive: when the provider mounts
    again, [checkUser] finds the user of the response if it came with a
    token, and otherwise whatever [getCurrentUser] found before the
    login. *)
Theorem context_login_survives_only_with_token
    (f : source_file) (email password : jsstring)
    (net : Config -> Reply AuthResponse) (state : AuthState) (w : World)
    (r : Response AuthResponse) :
  faults w = [] ->
  net (outgoing (interceptor_store f w)
         {| cfg_method := POST; cfg_url := u16 "/auth/login";
            cfg_headers := default_headers;
            cfg_data :=
              Some (credentials_value {| cred_email := email;
                                         cred_password := password |}) |})
  = Fulfilled r ->
  exists w' before,
    fst (getCurrentUser w) = Return before /\
    AuthContext.login (axios_of f) email password net state w
    = (Return (res_data r,
               {| auth_user := user_value (user (res_data r));
                  auth_loading := auth_loading state |}), w') /\
    fst (AuthContext.checkUser initial_state w')
    = Return {| auth_user :=
                  if truthy (token (res_data r))
                  then user_value (user (res_data r))
                  else before;
                auth_loading := false |}.
Proof.
  intros Hfaults Hnet.
  destruct (login_served f {| cred_email := email; cred_password := password |}
              net w Hfaults) as (w' & Hfaults' & Hrun).
  cbn zeta in Hrun. rewrite Hnet in Hrun. destruct Hrun as [Hrun Hstore].
  destruct (getCurrentUser_value w) as [before Hbefore].
  exists w', before. split; [rewrite Hbefore; reflexivity|].
  unfold AuthContext.login, bind. rewrite Hrun.
  split; [reflexivity|].
  rewrite checkUser_run.
  rewrite getCurrentUser_run in Hbefore |- *.
  rewrite (fails_next_served w Hfaults) in Hbefore.
  rewrite (fails_next_served w' Hfaults'), Hstore.
  destruct (token (res_data r)) as [[|ch t]|]; cbn [truthy].
  - destruct (async_store w !! u16 "user") as [[|c text]|];
      [| destruct (JSON.parse (c :: text)) |];
      injection Hbefore as <-; reflexivity.
  - rewrite lookup_insert_eq.
    destruct (JSON_stringify (user (res_data r))) as [|c text] eqn:Htext;
      [discriminate|].
    rewrite <- Htext, parse_stringify_user. reflexivity.
  - destruct (async_store w !! u16 "user") as [[|c text]|];
      [| destruct (JSON.parse (c :: text)) |];
      injection Hbefore as <-; reflexivity.
Qed.

(** [logout] while AsyncStorage serves every call. *)
Lemma logout_served f (net : Config -> Reply jsval) w :
  faults w = [] ->
  exists c w3,
    async_store w3 !! u16 "token" = None /\
    async_store w3 !! u16 "user" = None /\
    logout (axios_of f) net w
    = match net c with
      | Fulfilled _ => (Return tt, w3)
      | Failed response q =>
          (Throw (handled (AxiosError response q)),
           record_event (ConsoleError logout_text (AxiosError response q)) w3)
      end.
Proof.
  intros Hfaults. rewrite logout_run. cbn zeta.
  rewrite (fails_next_served w Hfaults).
  set (w1 := set_async_store _ (called (AsyncRemoveItem (u16 "token")) w)).
  assert (faults w1 = []) as Hfaults1
    by (unfold w1; simpl_world; rewrite Hfaults; reflexivity).
  rewrite (fails_next_served w1 Hfaults1).
  set (w2 := set_async_store _ (called (AsyncRemoveItem (u16 "user")) w1)).
  assert (faults w2 = []) as Hfaults2
    by (unfold w2; simpl_world; rewrite Hfaults1; reflexivity).
  set (config := {| cfg_method := POST; cfg_url := u16 "/auth/logout";
                    cfg_headers := default_headers; cfg_data := None |}).
  destruct (request_served f jsval net config w2 Hfaults2)
    as (w3 & events & Hreq & _ & _ & _ & Hnone).
  cbn zeta in Hreq. unfold post. fold config. rewrite Hreq.
  exists (outgoing (interceptor_store f w2) config), w3.
  split.
  { apply Hnone. unfold w2, w1. simpl_world.
    rewrite lookup_delete_ne by discriminate. apply lookup_delete_eq. }
  split.
  { apply Hnone. unfold w2. simpl_world. apply lookup_delete_eq. }
  destruct (net _); reflexivity.
Qed.

(** X18.  The [logout] of the context, while AsyncStorage serves its
    calls.  When the request of the service resolves, the context user is
    reset to [null].  When it fails, the call rejects with what
    [handleError] made of the failure (the normalized error, or the
    TypeError it throws on a null body) before [setUser(null)] is reached,
    so the context keeps its user, although AsyncStorage holds neither
    token nor profile any more; the failure is logged twice, by the
    service with the error of axios and then by the context with the
    error it was handed. *)
Theorem context_logout_resets_user_on_success_only
    (f : source_file) (net : Config -> Reply jsval) (state : AuthState)
    (w : World) :
  faults w = [] ->
  exists c w',
    async_store w' !! u16 "token" = None /\
    async_store w' !! u16 "user" = None /\
    match net c with
    | Fulfilled _ =>
        AuthContext.logout (axios_of f) net state w
        = (Return {| auth_user := JNull;
                     auth_loading := auth_loading state |}, w')
    | Failed response q =>
        let error := handled (AxiosError response q) in
        AuthContext.logout (axios_of f) net state w = (Throw error, w') /\
        exists before,
          trace w'
          = before ++ [ConsoleError logout_text (AxiosError response q);
                       ConsoleError logout_text error]
    end.
Proof.
  intros Hfaults.
  destruct (logout_served f net w Hfaults) as (c & w3 & Ht & Hu & Hrun).
  exists c. unfold AuthContext.logout, try_catch, bind. rewrite Hrun.
  destruct (net c) as [r|response q].
  - exists w3. auto.
  - exists (record_event
              (ConsoleError logout_text
                 (handled (AxiosError response q)))
              (record_event
                 (ConsoleError logout_text (AxiosError response q)) w3)).
    split; [exact Ht|]. split; [exact Hu|].
    split; [reflexivity|]. exists (trace w3). simpl_world.
    rewrite <- app_assoc. reflexivity.
Qed.

(** ** The screens *)

(** What the functions behind the screens reject with. *)
Lemma caught_rejection {A} (m : Promise A) w e w' :
  try_catch m (fun error => throw (handled error)) w = (Throw e, w') ->
  (exists r, e = Rejection r /\ message r <> []) \/ e = TypeError.
Proof.
  unfold try_catch, throw. destruct (m w) as [[a|e0] w1]; [discriminate|].
  intros [= <- _]. apply handled_normalized_or_TypeError.
Qed.

Lemma performed_bodied f c w e w' :
  call_bodied c -> c <> IsAuthenticated ->
  perform (axios_of f) c w = (Throw e, w') -> e <> TypeError.
Proof.
  intros Hc Hne H ->.
  destruct (perform_bodied f c Hc _ _ _ H) as [(r & Hr & _)|[Heq _]];
    [discriminate|contradiction].
Qed.

Lemma login_bodied f credentials net w e w' :
  bodied net -> login (axios_of f) credentials net w = (Throw e, w') ->
  e <> TypeError.
Proof.
  intros Hnet H.
  apply (performed_bodied f (Login credentials net) w e w' Hnet);
    [discriminate|].
  cbn [perform]. unfold bind. rewrite H. reflexivity.
Qed.

Lemma register_bodied f userData net w e w' :
  bodied net -> register (axios_of f) userData net w = (Throw e, w') ->
  e <> TypeError.
Proof.
  intros Hnet H.
  apply (performed_bodied f (Register userData net) w e w' Hnet);
    [discriminate|].
  cbn [perform]. unfold bind. rewrite H. reflexivity.
Qed.

Lemma deleteProduct_bodied f id net w e w' :
  bodied net -> deleteProduct (axios_of f) id net w = (Throw e, w') ->
  e <> TypeError.
Proof.
  intros Hnet H.
  apply (performed_bodied f (DeleteProduct id net) w e w' Hnet);
    [discriminate|].
  cbn [perform]. unfold bind. rewrite H. reflexivity.
Qed.

Lemma or_else_nonempty value fallback :
  value <> [] -> or_else value fallback = value.
Proof. destruct value; [contradiction|reflexivity]. Qed.

Lemma empty_false value : value <> [] -> empty value = false.
Proof. destruct value; [contradiction|reflexivity]. Qed.

(** X19.  [handleLogin] with an empty email or an empty password shows
    one alert and does nothing else: nothing is read, written or sent, and
    the form and the context are as they were. *)
Theorem handleLogin_requires_both_fields
    (instance : AxiosInstance) (native_message : JsError -> jsstring)
    (net : Config -> Reply AuthResponse) (form : LoginForm)
    (state : AuthState) (w : World) :
  form_email form = [] \/ form_password form = [] ->
  handleLogin instance native_message net form state w
  = ((form, state,
      [{| alert_title := u16 "Erreur";
          alert_message := u16 "Veuillez remplir tous les champs" |}]), w).
Proof.
  intros [H|H]; unfold handleLogin; rewrite H.
  - reflexivity.
  - cbn [empty]. rewrite orb_true_r. reflexivity.
Qed.

(** X20.  [handleLogin] with both fields filled in.  When the login
    resolves, no alert is shown and the context has the user of the
    response.  When it rejects, the context is as it was and one alert is
    shown.  Its text is the message of the normalized error; or, when
    [handleError] threw on a null error body, the message of that
    TypeError, with the fallback text of the screen in its place should
    that message be empty.  Against a network that sends no null error
    body only a normalized error reaches the screen, and the fallback text
    is never shown.  In every case the form stops loading. *)
Theorem handleLogin_shows_the_normalized_message
    (instance : AxiosInstance) (native_message : JsError -> jsstring)
    (net : Config -> Reply AuthResponse) (form : LoginForm)
    (state : AuthState) (w : World) :
  form_email form <> [] -> form_password form <> [] ->
  let credentials := {| cred_email := form_email form;
                        cred_password := form_password form |} in
  let form' := {| form_email := form_email form;
                  form_password := form_password form;
                  form_loading := false |} in
  let shown text := [{| alert_title := u16 "Erreur de connexion";
                        alert_message := text |}] in
  match login instance credentials net w with
  | (Return body, w') =>
      handleLogin instance native_message net form state w
      = ((form', {| auth_user := user_value (user body);
                    auth_loading := auth_loading state |}, []), w')
  | (Throw error, w') =>
      ((exists r,
          error = Rejection r /\ message r <> [] /\
          handleLogin instance native_message net form state w
          = ((form', state, shown (message r)), w')) \/
       (error = TypeError /\
        handleLogin instance native_message net form state w
        = ((form', state,
            shown (or_else (native_message TypeError)
                     (u16 "Une erreur est survenue lors de la connexion"))),
           w'))) /\
      (forall f, instance = axios_of f -> bodied net -> error <> TypeError)
  end.
Proof.
  intros He Hp. cbn zeta. unfold handleLogin.
  rewrite (empty_false _ He), (empty_false _ Hp). cbn [orb].
  unfold AuthContext.login, bind.
  destruct (login instance _ net w) as [[body|error] w'] eqn:Hlogin.
  - reflexivity.
  - split; [|intros f -> Hnet; exact (login_bodied _ _ _ _ _ _ Hnet Hlogin)].
    unfold login in Hlogin.
    destruct (caught_rejection _ _ _ _ Hlogin) as [(r & -> & Hr)| ->].
    + left. exists r. split; [reflexivity|]. split; [exact Hr|].
      cbn [error_message]. rewrite (or_else_nonempty _ _ Hr). reflexivity.
    + right. split; reflexivity.
Qed.

(** X21.  [validateForm] accepts a form exactly when its email, password
    and full name are not empty and the password equals its confirmation;
    the phone is not looked at.  It shows no alert when it accepts and one
    alert when it refuses. *)
Theorem validateForm_accepts_exactly (form : RegisterForm) :
  (fst (validateForm form) = true
   <-> reg_email (formData form) <> [] /\
       reg_password (formData form) <> [] /\
       reg_fullName (formData form) <> [] /\
       reg_password (formData form) = confirmPassword form) /\
  length (snd (validateForm form))
  = if fst (validateForm form) then 0%nat else 1%nat.
Proof.
  unfold validateForm.
  destruct (reg_email (formData form)) as [|c1 e];
    [split; [split; [discriminate|intros [[] _]; reflexivity]|reflexivity]|].
  destruct (reg_password (formData form)) as [|c2 p];
    [split; [split; [discriminate|intros (_ & [] & _); reflexivity]
            |reflexivity]|].
  destruct (reg_fullName (formData form)) as [|c3 n];
    [split; [split; [discriminate|intros (_ & _ & [] & _); reflexivity]
            |reflexivity]|].
  cbn [empty orb]. case_bool_decide as Heq; cbn [negb fst snd length].
  - split; [|reflexivity]. split; [|reflexivity].
    intros _. repeat split; try discriminate. exact Heq.
  - split; [|reflexivity]. split; [discriminate|].
    intros (_ & _ & _ & H). contradiction.
Qed.

Lemma validateForm_shown form :
  fst (validateForm form) = true -> snd (validateForm form) = [].
Proof.
  unfold validateForm.
  destruct (_ || _ || _); [discriminate|].
  destruct (negb _); [discriminate|reflexivity].
Qed.

(** X22.  [handleRegister] sends nothing for a form that [validateForm]
    refuses: the alert of the validation is all that happens.  For a form
    it accepts, a registration that resolves shows the success alert, and
    one that rejects shows one alert: the message of the normalized error,
    or, when [handleError] threw on a null error body, the message of that
    TypeError, with the fallback text of the screen in its place should
    that message be empty.  Against a network that sends no null error
    body only a normalized error reaches the screen, and the fallback text
    is never shown. *)
Theorem handleRegister_validates_before_sending
    (instance : AxiosInstance) (native_message : JsError -> jsstring)
    (net : Config -> Reply AuthResponse) (form : RegisterForm) (w : World) :
  let form' := {| formData := formData form;
                  confirmPassword := confirmPassword form;
                  register_loading := false |} in
  let shown text := [{| alert_title := u16 "Erreur";
                        alert_message := text |}] in
  if fst (validateForm form) then
    match register instance (formData form) net w with
    | (Return _, w') =>
        handleRegister instance native_message net form w
        = ((form', [{| alert_title := Succes;
                       alert_message := register_success |}]), w')
    | (Throw error, w') =>
        ((exists r,
            error = Rejection r /\ message r <> [] /\
            handleRegister instance native_message net form w
            = ((form', shown (message r)), w')) \/
         (error = TypeError /\
          handleRegister instance native_message net form w
          = ((form',
              shown (or_else (native_message TypeError)
                       (u16 "Une erreur est survenue lors de l'inscription"))),
             w'))) /\
        (forall f, instance = axios_of f -> bodied net -> error <> TypeError)
    end
  else
    handleRegister instance native_message net form w
    = ((form, snd (validateForm form)), w).
Proof.
  cbn zeta. unfold handleRegister.
  pose proof (validateForm_shown form) as Hshown.
  destruct (validateForm form) as [[|] shown]; cbn [fst snd negb] in *;
    [|reflexivity].
  specialize (Hshown eq_refl). subst shown. unfold AuthContext.register.
  destruct (register instance (formData form) net w) as [[body|error] w']
    eqn:Hregister.
  - reflexivity.
  - split;
      [|intros f -> Hnet; exact (register_bodied _ _ _ _ _ _ Hnet Hregister)].
    unfold register in Hregister.
    destruct (caught_rejection _ _ _ _ Hregister) as [(r & -> & Hr)| ->].
    + left. exists r. split; [reflexivity|]. split; [exact Hr|].
      cbn [error_message app]. rewrite (or_else_nonempty _ _ Hr). reflexivity.
    + right. split; reflexivity.
Qed.

(** X23.  The button [Supprimer].  When [deleteProduct] resolves, the
    list keeps exactly the products whose [id] is not the deleted one, in
    the order they were in (every product of that [id] goes, should there
    be several), and the success alert is shown.  When it rejects, the
    list is as it was and the alert shows the message of the error: that
    of the normalized error, or, when [handleError] threw on a null error
    body, that of the TypeError.  Against a network that sends no null
    error body only a normalized error reaches the screen. *)
Theorem handleDelete_drops_the_product
    (instance : AxiosInstance) (native_message : JsError -> jsstring)
    (Product : Type) (product_id : Product -> jsstring) (id : jsstring)
    (net : Config -> Reply jsval) (products : list Product) (w : World) :
  let shown text := [{| alert_title := u16 "Erreur";
                        alert_message := text |}] in
  match deleteProduct instance id net w with
  | (Return _, w') =>
      exists products',
        handleDelete_onPress instance native_message Product product_id
          id net products w
        = ((products', [{| alert_title := Succes;
                           alert_message := delete_success |}]), w') /\
        (forall p, p ∈ products' <-> p ∈ products /\ product_id p <> id) /\
        sublist products' products
  | (Throw error, w') =>
      ((exists r,
          error = Rejection r /\ message r <> [] /\
          handleDelete_onPress instance native_message Product product_id
            id net products w
          = ((products, shown (message r)), w')) \/
       (error = TypeError /\
        handleDelete_onPress instance native_message Product product_id
          id net products w
        = ((products, shown (native_message TypeError)), w'))) /\
      (forall f, instance = axios_of f -> bodied net -> error <> TypeError)
  end.
Proof.
  cbn zeta. unfold handleDelete_onPress.
  destruct (deleteProduct instance id net w) as [[b|error] w'] eqn:Hdelete.
  - eexists. split; [reflexivity|]. split.
    + intros p. rewrite list_elem_of_filter. tauto.
    + apply sublist_filter.
  - split;
      [|intros f -> Hnet;
        exact (deleteProduct_bodied _ _ _ _ _ _ Hnet Hdelete)].
    unfold deleteProduct in Hdelete.
    destruct (caught_rejection _ _ _ _ Hdelete) as [(r & -> & Hr)| ->].
    + left. exists r. split; [reflexivity|]. split; [exact Hr|reflexivity].
    + right. split; reflexivity.
Qed.

(** ** Sequences that end in a logout *)

(** X24.  While AsyncStorage serves its calls, any history of calls that
    ends in [logout] leaves AsyncStorage as it was at the start with
    [token] and [user] taken out: signing in, using the application and
    signing out leaves nothing behind, whatever the network did. *)
Theorem logout_leaves_nothing_behind
    (f : source_file) (calls : list call) (net : Config -> Reply jsval)
    (w : World) :
  faults w = [] ->
  async_store (history (axios_of f) (calls ++ [Logout net]) w)
  = delete (u16 "token") (delete (u16 "user") (async_store w)).
Proof.
  intros Hfaults. unfold history. rewrite fold_left_app.
  fold (history (axios_of f) calls w). cbn [fold_left perform].
  pose proof (history_served f calls w Hfaults) as Hfaults1.
  destruct (logout_served f net _ Hfaults1) as (c & w3 & Ht & Hu & Hrun).
  assert (async_store (snd (logout (axios_of f) net
                              (history (axios_of f) calls w)))
          = async_store w3) as Hw3.
  { rewrite Hrun. destruct (net c); reflexivity. }
  pose proof (history_other_keys f (calls ++ [Logout net]) w) as Hkeys.
  unfold history in Hkeys. rewrite fold_left_app in Hkeys.
  fold (history (axios_of f) calls w) in Hkeys.
  cbn [fold_left perform] in Hkeys.
  apply map_eq. intros k.
  destruct (decide (k = u16 "token")) as [->|Hkt].
  { rewrite Hw3, Ht, lookup_delete_eq. reflexivity. }
  rewrite lookup_delete_ne by auto.
  destruct (decide (k = u16 "user")) as [->|Hku].
  { rewrite Hw3, Hu, lookup_delete_eq. reflexivity. }
  rewrite lookup_delete_ne by auto.
  apply Hkeys; assumption.
Qed.

(** ** No call sends a second request *)

Lemma sends_ret {A} (a : A) : sends (ret a) 0.
Proof.
  intros w. exists []. rewrite app_nil_r. split; [reflexivity|cbn; lia].
Qed.

Lemma sends_throw {A} e : sends (@throw A e) 0.
Proof.
  intros w. exists []. rewrite app_nil_r. split; [reflexivity|cbn; lia].
Qed.

Lemma sends_bind {A B} (m : Promise A) (k : A -> Promise B) n1 n2 :
  sends m n1 -> (forall a, sends (k a) n2) -> sends (bind m k) (n1 + n2).
Proof.
  intros Hm Hk w. unfold bind. destruct (Hm w) as (new1 & H1 & Hn1).
  destruct (m w) as [[a|e] w1]; cbn [snd] in *.
  - destruct (Hk a w1) as (new2 & H2 & Hn2).
    exists (new1 ++ new2). rewrite H2, H1, app_assoc, length_app.
    split; [reflexivity|lia].
  - exists new1. split; [exact H1|lia].
Qed.

Lemma sends_try_catch {A} (m : Promise A) h n1 n2 :
  sends m n1 -> (forall e, sends (h e) n2) -> sends (try_catch m h) (n1 + n2).
Proof.
  intros Hm Hh w. unfold try_catch. destruct (Hm w) as (new1 & H1 & Hn1).
  destruct (m w) as [[a|e] w1]; cbn [snd] in *.
  - exists new1. split; [exact H1|lia].
  - destruct (Hh e w1) as (new2 & H2 & Hn2).
    exists (new1 ++ new2). rewrite H2, H1, app_assoc, length_app.
    split; [reflexivity|lia].
Qed.

Lemma sends_getItem key : sends (AsyncStorage.getItem key) 0.
Proof.
  intros w. exists []. rewrite getItem_run. cbn [snd]. unfold called.
  simpl_world. rewrite sent_requests_app. split; [reflexivity|cbn; lia].
Qed.

Lemma sends_setItem key value : sends (AsyncStorage.setItem key value) 0.
Proof.
  intros w. exists []. rewrite setItem_run. unfold called.
  destruct (fails_next w); simpl_world; rewrite sent_requests_app;
    (split; [reflexivity|cbn; lia]).
Qed.

Lemma sends_removeItem key : sends (AsyncStorage.removeItem key) 0.
Proof.
  intros w. exists []. rewrite removeItem_run. unfold called.
  destruct (fails_next w); simpl_world; rewrite sent_requests_app;
    (split; [reflexivity|cbn; lia]).
Qed.

Lemma sends_console_error text error : sends (console_error text error) 0.
Proof.
  intros w. exists []. unfold console_error, emit. simpl_world.
  rewrite sent_requests_app. split; [reflexivity|cbn; lia].
Qed.

Lemma sends_request f B (net : Config -> Reply B) config :
  sends (request (axios_of f) net config) 1.
Proof.
  intros w. destruct f; cbn [axios_of].
  - rewrite request_natvived. cbn zeta.
    exists [outgoing (local_store w) config]. split; [|cbn; lia].
    destruct (net _) as [r|response q]; [|destruct (is_401 _)];
      simpl_world; rewrite !sent_requests_app; cbn [sent_requests];
      rewrite ?app_nil_r; reflexivity.
  - rewrite request_native. cbn zeta. unfold called.
    destruct (fails_next w).
    + exists []. simpl_world. rewrite sent_requests_app.
      split; [reflexivity|cbn; lia].
    + exists [outgoing (async_store w) config]. split; [|cbn; lia].
      destruct (net _) as [r|response q];
        [|destruct (is_401 _); [destruct (fails_next _)|]];
        simpl_world; rewrite !sent_requests_app; cbn [sent_requests];
        rewrite ?app_nil_r; reflexivity.
Qed.

Lemma sends_more {A} (m : Promise A) : sends m 0 -> sends m 1.
Proof.
  intros H w. destruct (H w) as (new & Hnew & Hn).
  exists new. split; [exact Hnew|lia].
Qed.

(** A computation that sends nothing, and one with a single request in
    it. *)
Ltac silent :=
  repeat match goal with
    | |- forall _, _ => intro
    | |- sends (match ?x with _ => _ end) 0 =>
        first [destruct x as [[|? ?]|] | destruct x]
    | |- sends (ret _) 0 => apply sends_ret
    | |- sends (throw _) 0 => apply sends_throw
    | |- sends (bind _ _) 0 => apply (sends_bind _ _ 0 0)
    | |- sends (try_catch _ _) 0 => apply (sends_try_catch _ _ 0 0)
    | |- sends (console_error _ _) 0 => apply sends_console_error
    | |- sends (AsyncStorage.getItem _) 0 => apply sends_getItem
    | |- sends (AsyncStorage.setItem _ _) 0 => apply sends_setItem
    | |- sends (AsyncStorage.removeItem _) 0 => apply sends_removeItem
    end.

Ltac one_request :=
  match goal with
  | |- sends (request _ _ _) 1 => apply sends_request
  | |- sends (try_catch _ _) 1 =>
      apply (sends_try_catch _ _ 1 0); [one_request | solve [silent]]
  | |- sends (bind _ _) 1 =>
      first [ apply (sends_bind _ _ 1 0); [one_request | solve [silent]]
            | apply (sends_bind _ _ 0 1);
              [solve [silent] | intro; one_request] ]
  | |- sends _ 1 => apply sends_more; solve [silent]
  end.

Lemma sends_perform f c : sends (perform (axios_of f) c) 1.
Proof.
  destruct c; cbn [perform];
    unfold login, register, logout, getCurrentUser, isAuthenticated,
      refreshToken, updateUserProfile, resetPassword, createProduct,
      getProducts, updateProduct, deleteProduct, searchProducts,
      post, axios.put, axios.get, axios.delete;
    one_request.
Qed.

(** X25.  No call of the two services sends a second request: there is no
    retry, whatever the reply and however AsyncStorage fails.  A history
    of calls sends at most as many requests as it has calls, and the
    requests sent before it stay as they were. *)
Theorem a_call_sends_one_request_at_most
    (f : source_file) (calls : list call) (w : World) :
  exists new,
    sent_requests (trace (history (axios_of f) calls w))
    = sent_requests (trace w) ++ new /\
    (length new <= length calls)%nat.
Proof.
  revert w. induction calls as [|c calls IH]; intros w.
  - exists []. rewrite app_nil_r. split; [reflexivity|cbn; lia].
  - cbn [history fold_left].
    destruct (sends_perform f c w) as (new1 & H1 & Hn1).
    destruct (IH (snd (perform (axios_of f) c w))) as (new2 & H2 & Hn2).
    exists (new1 ++ new2). unfold history in H2.
    rewrite H2, H1, app_assoc, length_app. split; [reflexivity|cbn; lia].
Qed.

(** ** The further properties at work on the scenarios *)

(** X1 on the key [refreshToken] over a session of alice ([native.en.ts]). *)
Lemma services_touch_witness :
  (((u16 "refreshToken") <> u16 "token")) /\
  (((u16 "refreshToken") <> u16 "user" ->
   async_store (history (axios_of native_en_ts) session_calls fresh_world) !!
     (u16 "refreshToken") = async_store fresh_world !! (u16 "refreshToken"))
     /\
  local_store (history (axios_of native_en_ts) session_calls fresh_world) !!
    (u16 "refreshToken") = local_store fresh_world !! (u16 "refreshToken")).
Proof.
  assert ((u16 "refreshToken") <> u16 "token") as H0
    by (vm_compute; discriminate).
  split; [exact H0|].
  exact (services_touch_token_and_user_only
           native_en_ts session_calls fresh_world (u16 "refreshToken")
           H0).
Defined.

(** X2 on a session of alice that starts from an empty storage. *)
Lemma well_formed_witness :
  ((well_formed (async_store fresh_world))) /\
  (well_formed (async_store (history (axios_of native_en_ts) session_calls
    fresh_world))).
Proof.
  assert (well_formed (async_store fresh_world)) as H0
    by (split; [vm_compute; discriminate|intros text H; vm_compute in H;
      discriminate H]).
  split; [exact H0|].
  exact (session_stays_well_formed
           native_en_ts session_calls fresh_world
           H0).
Defined.

(** X3 after a session of alice. *)
Lemma getCurrentUser_after_history_witness :
  ((well_formed (async_store fresh_world)) /\
   (fails_next (history (axios_of native_en_ts) session_calls fresh_world) =
     false)) /\
  (exists v,
    getCurrentUser (history (axios_of native_en_ts) session_calls fresh_world)
    = (Return v,
       called (AsyncGetItem (u16 "user")) (history (axios_of native_en_ts)
         session_calls fresh_world)) /\
    match async_store (history (axios_of native_en_ts) session_calls
      fresh_world) !! u16 "user" with
    | None => v = JNull
    | Some text => exists u, text = JSON_stringify u /\ v = user_value u
    end).
Proof.
  assert (well_formed (async_store fresh_world)) as H0
    by (split; [vm_compute; discriminate|intros text H; vm_compute in H;
      discriminate H]).
  assert (fails_next (history (axios_of native_en_ts) session_calls
    fresh_world) = false) as H1
    by (by_evaluation).
  split; [split; assumption|].
  exact (getCurrentUser_after_history
           native_en_ts session_calls fresh_world
           H0 H1).
Defined.

(** X4 after a session of alice. *)
Lemma isAuthenticated_after_history_witness :
  ((well_formed (async_store fresh_world)) /\
   (fails_next (history (axios_of native_en_ts) session_calls fresh_world) =
     false)) /\
  ((fst (isAuthenticated (history (axios_of native_en_ts) session_calls
    fresh_world)) = Return true
   <-> is_Some (async_store (history (axios_of native_en_ts) session_calls
     fresh_world) !! u16 "token")) /\
  (fst (isAuthenticated (history (axios_of native_en_ts) session_calls
    fresh_world)) = Return false
   <-> async_store (history (axios_of native_en_ts) session_calls fresh_world)
     !! u16 "token" = None)).
Proof.
  assert (well_formed (async_store fresh_world)) as H0
    by (split; [vm_compute; discriminate|intros text H; vm_compute in H;
      discriminate H]).
  assert (fails_next (history (axios_of native_en_ts) session_calls
    fresh_world) = false) as H1
    by (by_evaluation).
  split; [split; assumption|].
  exact (isAuthenticated_after_history
           native_en_ts session_calls fresh_world
           H0 H1).
Defined.


(** X7 on a login that is refused with 401 where alice is signed in. *)
Lemma rejection_witness :
  ((perform NativeEnTs.axiosInstance (Login alice_credentials unauthorized)
    signed_in = (Throw (Rejection {| status := 401; message := u16
    "Unauthorized" |}), after_refused_login))) /\
  ((normalized (Rejection {| status := 401; message := u16 "Unauthorized" |})
    \/ (Rejection {| status := 401; message := u16 "Unauthorized" |}) =
    TypeError \/
   ((Login alice_credentials unauthorized) = IsAuthenticated /\ (Rejection {|
     status := 401; message := u16 "Unauthorized" |}) = StorageError)) /\
  (forall f, NativeEnTs.axiosInstance = axios_of f -> call_bodied (Login
    alice_credentials unauthorized) -> (Rejection {| status := 401; message :=
    u16 "Unauthorized" |}) <> TypeError)).
Proof.
  assert (perform NativeEnTs.axiosInstance (Login alice_credentials
    unauthorized) signed_in = (Throw (Rejection {| status := 401; message :=
    u16 "Unauthorized" |}), after_refused_login)) as H0
    by (by_evaluation).
  split; [exact H0|].
  exact (service_rejections_are_normalized
           NativeEnTs.axiosInstance (Login alice_credentials unauthorized)
             signed_in after_refused_login (Rejection {| status := 401;
             message := u16 "Unauthorized" |})
           H0).
Defined.

(** X8 on [GET /products] answered with 500 where alice is signed in. *)
Lemma server_error_witness :
  (((forall response q,
     (@server_error jsval) (outgoing (interceptor_store native_en_ts
       signed_in) products_request) = Failed response q ->
     is_401 (AxiosError response q) = false))) /\
  (let w' := snd (request (axios_of native_en_ts) (@server_error jsval)
    products_request signed_in) in
  async_store w' = async_store signed_in /\
  local_store w' = local_store signed_in /\
  location_href w' = location_href signed_in).
Proof.
  assert ((forall response q,
     (@server_error jsval) (outgoing (interceptor_store native_en_ts
       signed_in) products_request) = Failed response q ->
     is_401 (AxiosError response q) = false)) as H0
    by (intros response q H; vm_compute in H; injection H as <- <-;
      reflexivity).
  split; [exact H0|].
  exact (only_a_401_changes_the_stores
           native_en_ts jsval (@server_error jsval) products_request signed_in
           H0).
Defined.


(** X10 where alice is signed in and the server sends the token [T2]. *)
Lemma refreshToken_witness :
  ((faults signed_in = [])) /\
  (exists c w',
    cfg_method c = POST /\ cfg_url c = u16 "/auth/refresh-token" /\
    cfg_data c = Some (refresh_value (async_store signed_in !! u16
      "refreshToken")) /\
    sent_requests (trace w') = sent_requests (trace signed_in) ++ [c] /\
    async_store w' !! u16 "user" = async_store signed_in !! u16 "user" /\
    match (accepts T2_body) c with
    | Fulfilled r =>
        refreshToken (axios_of native_en_ts) (accepts T2_body) signed_in =
          (Return (res_data r), w') /\
        async_store w'
        = match fresh_token (res_data r) with
          | Some ((_ :: _) as t) => <[ u16 "token" := t ]> (async_store
            signed_in)
          | _ => async_store signed_in
          end
    | Failed response q =>
        refreshToken (axios_of native_en_ts) (accepts T2_body) signed_in
        = (Throw (handled (AxiosError response q)), w') /\
        (is_401 (AxiosError response q) = false ->
         async_store w' = async_store signed_in)
    end).
Proof.
  assert (faults signed_in = []) as H0
    by (by_evaluation).
  split; [exact H0|].
  exact (refreshToken_replaces_the_token_only
           native_en_ts (accepts T2_body) signed_in
           H0).
Defined.

(** X11 after a session of alice. *)
Lemma no_refresh_token_witness :
  ((async_store fresh_world !! u16 "refreshToken" = None) /\
   (faults fresh_world = [])) /\
  (let w1 := history (axios_of native_en_ts) session_calls fresh_world in
  exists c,
    sent_requests (trace (snd (refreshToken (axios_of native_en_ts) (accepts
      T2_body) w1)))
    = sent_requests (trace w1) ++ [c] /\
    cfg_url c = u16 "/auth/refresh-token" /\
    cfg_data c = Some (JObject [(u16 "refreshToken", JNull)])).
Proof.
  assert (async_store fresh_world !! u16 "refreshToken" = None) as H0
    by (by_evaluation).
  assert (faults fresh_world = []) as H1
    by (by_evaluation).
  split; [split; assumption|].
  exact (refreshToken_finds_no_refresh_token
           native_en_ts session_calls (accepts T2_body) fresh_world
           H0 H1).
Defined.

(** X12 where alice is signed in and the server answers with bob. *)
Lemma updateUserProfile_witness :
  ((faults signed_in = [])) /\
  (exists c w',
    cfg_method c = PUT /\ cfg_url c = u16 "/auth/profile" /\
    cfg_data c = Some (JObject [(u16 "phone", JString (u16 "07"))]) /\
    sent_requests (trace w') = sent_requests (trace signed_in) ++ [c] /\
    match (accepts bob) c with
    | Fulfilled r =>
        updateUserProfile (axios_of native_en_ts) (JObject [(u16 "phone",
          JString (u16 "07"))]) (accepts bob) signed_in
        = (Return (res_data r), w') /\
        async_store w'
        = <[ u16 "user" := JSON_stringify (res_data r) ]> (async_store
          signed_in) /\
        async_store w' !! u16 "token" = async_store signed_in !! u16 "token" /\
        fst (getCurrentUser w') = Return (user_value (res_data r))
    | Failed response q =>
        updateUserProfile (axios_of native_en_ts) (JObject [(u16 "phone",
          JString (u16 "07"))]) (accepts bob) signed_in
        = (Throw (handled (AxiosError response q)), w') /\
        async_store w' !! u16 "user" = async_store signed_in !! u16 "user"
    end).
Proof.
  assert (faults signed_in = []) as H0
    by (by_evaluation).
  split; [exact H0|].
  exact (updateUserProfile_replaces_the_cached_user
           native_en_ts (JObject [(u16 "phone", JString (u16 "07"))]) (accepts
             bob) signed_in
           H0).
Defined.

(** X13 where alice is signed in. *)
Lemma resetPassword_witness :
  ((faults signed_in = [])) /\
  (exists c w',
    cfg_method c = POST /\ cfg_url c = u16 "/auth/reset-password" /\
    cfg_data c = Some (email_value (u16 "a@b.com")) /\
    sent_requests (trace w') = sent_requests (trace signed_in) ++ [c] /\
    async_store w' !! u16 "user" = async_store signed_in !! u16 "user" /\
    match (accepts JNull) c with
    | Fulfilled r =>
        resetPassword (axios_of native_en_ts) (u16 "a@b.com") (accepts JNull)
          signed_in = (Return (res_data r), w') /\
        async_store w' = async_store signed_in
    | Failed response q =>
        resetPassword (axios_of native_en_ts) (u16 "a@b.com") (accepts JNull)
          signed_in
        = (Throw (handled (AxiosError response q)), w') /\
        (is_401 (AxiosError response q) = false ->
         async_store w' = async_store signed_in)
    end).
Proof.
  assert (faults signed_in = []) as H0
    by (by_evaluation).
  split; [exact H0|].
  exact (resetPassword_leaves_the_session
           native_en_ts (u16 "a@b.com") (accepts JNull) signed_in
           H0).
Defined.

(** X14 on product [7] where alice is signed in. *)
Lemma deleteProduct_witness :
  ((faults signed_in = [])) /\
  (exists c w',
    cfg_method c = DELETE /\ cfg_url c = u16 "/products/" ++ (u16 "7") /\
    cfg_data c = None /\
    sent_requests (trace w') = sent_requests (trace signed_in) ++ [c] /\
    deleteProduct (axios_of native_en_ts) (u16 "7") (accepts JNull) signed_in
    = (match (accepts JNull) c with
       | Fulfilled _ => Return true
       | Failed response q =>
           Throw (handled (AxiosError response q))
       end, w')).
Proof.
  assert (faults signed_in = []) as H0
    by (by_evaluation).
  split; [exact H0|].
  exact (deleteProduct_resolves_to_true
           native_en_ts (u16 "7") (accepts JNull) signed_in
           H0).
Defined.

(** X17 on the login of alice in a fresh process. *)
Lemma context_login_witness :
  ((faults fresh_world = []) /\
   ((accepts T1_body) (outgoing (interceptor_store native_en_ts fresh_world)
         {| cfg_method := POST; cfg_url := u16 "/auth/login";
            cfg_headers := default_headers;
            cfg_data :=
              Some (credentials_value {| cred_email := (u16 "a@b.com");
                                         cred_password := (u16 "x") |}) |})
  = Fulfilled T1_response)) /\
  (exists w' before,
    fst (getCurrentUser fresh_world) = Return before /\
    AuthContext.login (axios_of native_en_ts) (u16 "a@b.com") (u16 "x")
      (accepts T1_body) initial_state fresh_world
    = (Return (res_data T1_response,
               {| auth_user := user_value (user (res_data T1_response));
                  auth_loading := auth_loading initial_state |}), w') /\
    fst (AuthContext.checkUser initial_state w')
    = Return {| auth_user :=
                  if truthy (token (res_data T1_response))
                  then user_value (user (res_data T1_response))
                  else before;
                auth_loading := false |}).
Proof.
  assert (faults fresh_world = []) as H0
    by (by_evaluation).
  assert ((accepts T1_body) (outgoing (interceptor_store native_en_ts
    fresh_world)
         {| cfg_method := POST; cfg_url := u16 "/auth/login";
            cfg_headers := default_headers;
            cfg_data :=
              Some (credentials_value {| cred_email := (u16 "a@b.com");
                                         cred_password := (u16 "x") |}) |})
  = Fulfilled T1_response) as H1
    by (by_evaluation).
  split; [split; assumption|].
  exact (context_login_survives_only_with_token
           native_en_ts (u16 "a@b.com") (u16 "x") (accepts T1_body)
             initial_state fresh_world T1_response
           H0 H1).
Defined.

(** X18 on a logout with the network down where alice is signed in. *)
Lemma context_logout_witness :
  ((faults signed_in = [])) /\
  (exists c w',
    async_store w' !! u16 "token" = None /\
    async_store w' !! u16 "user" = None /\
    match (@unreachable jsval) c with
    | Fulfilled _ =>
        AuthContext.logout (axios_of native_en_ts) (@unreachable jsval)
          initial_state signed_in
        = (Return {| auth_user := JNull;
                     auth_loading := auth_loading initial_state |}, w')
    | Failed response q =>
        let error := handled (AxiosError response q) in
        AuthContext.logout (axios_of native_en_ts) (@unreachable jsval)
          initial_state signed_in = (Throw error, w') /\
        exists before,
          trace w'
          = before ++ [ConsoleError logout_text (AxiosError response q);
                       ConsoleError logout_text error]
    end).
Proof.
  assert (faults signed_in = []) as H0
    by (by_evaluation).
  split; [exact H0|].
  exact (context_logout_resets_user_on_success_only
           native_en_ts (@unreachable jsval) initial_state signed_in
           H0).
Defined.

(** X19 on the form with the password left empty. *)
Lemma handleLogin_empty_witness :
  ((form_email half_filled = [] \/ form_password half_filled = [])) /\
  (handleLogin NativeEnTs.axiosInstance silent (accepts T1_body) half_filled
    initial_state fresh_world
  = ((half_filled, initial_state,
      [{| alert_title := u16 "Erreur";
          alert_message := u16 "Veuillez remplir tous les champs" |}]),
            fresh_world)).
Proof.
  assert (form_email half_filled = [] \/ form_password half_filled = []) as H0
    by (right; reflexivity).
  split; [exact H0|].
  exact (handleLogin_requires_both_fields
           NativeEnTs.axiosInstance silent (accepts T1_body) half_filled
             initial_state fresh_world
           H0).
Defined.

(** X20 on the form of alice when the server refuses with 401. *)
Lemma handleLogin_witness :
  ((form_email alice_form <> []) /\
   (form_password alice_form <> [])) /\
  (let credentials := {| cred_email := form_email alice_form;
                        cred_password := form_password alice_form |} in
  let form' := {| form_email := form_email alice_form;
                  form_password := form_password alice_form;
                  form_loading := false |} in
  let shown text := [{| alert_title := u16 "Erreur de connexion";
                        alert_message := text |}] in
  match login NativeEnTs.axiosInstance credentials (@unauthorized
    AuthResponse) fresh_world with
  | (Return body, w') =>
      handleLogin NativeEnTs.axiosInstance silent (@unauthorized AuthResponse)
        alice_form initial_state fresh_world
      = ((form', {| auth_user := user_value (user body);
                    auth_loading := auth_loading initial_state |}, []), w')
  | (Throw error, w') =>
      ((exists r,
          error = Rejection r /\ message r <> [] /\
          handleLogin NativeEnTs.axiosInstance silent (@unauthorized
            AuthResponse) alice_form initial_state fresh_world
          = ((form', initial_state, shown (message r)), w')) \/
       (error = TypeError /\
        handleLogin NativeEnTs.axiosInstance silent (@unauthorized
          AuthResponse) alice_form initial_state fresh_world
        = ((form', initial_state,
            shown (or_else (silent TypeError)
                     (u16 "Une erreur est survenue lors de la connexion"))),
           w'))) /\
      (forall f, NativeEnTs.axiosInstance = axios_of f -> bodied
        (@unauthorized AuthResponse) -> error <> TypeError)
  end).
Proof.
  assert (form_email alice_form <> []) as H0
    by (vm_compute; discriminate).
  assert (form_password alice_form <> []) as H1
    by (vm_compute; discriminate).
  split; [split; assumption|].
  exact (handleLogin_shows_the_normalized_message
           NativeEnTs.axiosInstance silent (@unauthorized AuthResponse)
             alice_form initial_state fresh_world
           H0 H1).
Defined.

(** X24 on a session of alice that ends in a logout with the network down. *)
Lemma logout_after_session_witness :
  ((faults fresh_world = [])) /\
  (async_store (history (axios_of native_en_ts) (session_calls ++ [Logout
    (@unreachable jsval)]) fresh_world)
  = delete (u16 "token") (delete (u16 "user") (async_store fresh_world))).
Proof.
  assert (faults fresh_world = []) as H0
    by (by_evaluation).
  split; [exact H0|].
  exact (logout_leaves_nothing_behind
           native_en_ts session_calls (@unreachable jsval) fresh_world
           H0).
Defined.
